(** * A shallow embedding of the CIFAR-10 notebooks

    The development follows the two notebooks of the repository: the
    running-average tracker [AverageMeter], the epoch functions
    [train_one_epoch] and [validate], the training script with its
    best-checkpoint rule, the two [SimpleCNN] definitions, and the residual
    network ([BasicBlock], [ResNet], [resnet18]).  It goes on with the rest
    of the notebooks: [CNN_BatchNorm], [load_resnet18], the choice of the
    model, the functions that draw pictures and predictions, the validation
    transforms, and the training and evaluation cells of the second
    notebook.

    Python floats are represented by exact rationals ([Q]); only their order
    and their field operations are used.  Python integers are [Z] (or [nat]
    where the value is a size or an index). *)

From Stdlib Require Import String Ascii Bool Arith ZArith QArith Qround Qabs Lia Lqa List.
From Stdlib Require Import DecimalString.
Import ListNotations.
Close Scope Q_scope.

(* ================================================================== *)
(** * Scalars *)
(* ================================================================== *)

Module Scalar.

(** [a > b] on floats, as a boolean. *)
Definition Qgtb (a b : Q) : bool := negb (Qle_bool a b).

(** Sum of a list of scalars, written as a mathematician would (right fold). *)
Definition Qsum (l : list Q) : Q := fold_right Qplus 0%Q l.


End Scalar.

(* ================================================================== *)
(** * [AverageMeter]: the running weighted average *)
(* ================================================================== *)

Module AverageMeter.
Import Scalar.

(** The object's two attributes.  [sum] accumulates floats; [count]
    accumulates the integer [n] of every call. *)
Record t : Type := mk { sum : Q; count : Z }.


(** [def __init__(self): self.reset()].  Nothing exists before the call, so
    the constructor takes no object. *)
Definition __init__ : t := {| sum := 0; count := 0 |}.

(** [def update(self, value, n=1): self.sum += value * n; self.count += n] *)
Definition update (self : t) (value : Q) (n : Z) : t :=
  {| sum := (sum self + value * inject_Z n)%Q; count := (count self + n)%Z |}.

(** [return self.sum / self.count if self.count > 0 else 0] *)
Definition avg (self : t) : Q :=
  if (0 <? count self)%Z then (sum self / inject_Z (count self))%Q else 0%Q.

(** A sequence of [update(value, n)] calls applied in order. *)
Definition updates (self : t) (calls : list (Q * Z)) : t :=
  fold_left (fun m c => update m (fst c) (snd c)) calls self.




End AverageMeter.

(* ================================================================== *)
(** * The tensor library, as far as the notebooks use it *)
(* ================================================================== *)

(** A tensor is its shape and its elements in row-major order, the layout of
    a contiguous tensor.  Every operation is a shape rule, which also decides
    whether the library raises ([None]), and an element rule.  Operations act
    on dense float tensors; label and prediction tensors hold integers. *)

Module torch.
Import Scalar.

Record Tensor : Type := mkTensor { shape : list nat; data : list Q }.

Record LongTensor : Type := mkLong { lshape : list nat; ldata : list Z }.

Definition numel (s : list nat) : nat := fold_right Nat.mul 1 s.

(** [t.size(0)]: raises on a zero-dimensional tensor. *)
Definition size0 (t : Tensor) : option nat :=
  match shape t with
  | n :: _ => Some n
  | [] => None
  end.

Definition at_ (d : list Q) (i : nat) : Q := nth i d 0%Q.

(** Sum of [f i] for [i] in [0 .. n-1]. *)
Definition sum_upto (n : nat) (f : nat -> Q) : Q := Qsum (map f (seq 0 n)).

(** ** Element-wise operations *)

Definition Qrelu (x : Q) : Q := if Qle_bool 0 x then x else 0%Q.

(** [torch.relu(x)], also [nn.ReLU(inplace=True)]: in the notebooks the
    in-place form is only applied to a tensor that the preceding layer has
    just produced, so writing in place and returning a new tensor agree. *)
Definition relu (t : Tensor) : Tensor :=
  {| shape := shape t; data := map Qrelu (data t) |}.

(** ** Index arithmetic *)

Fixpoint unravel (s : list nat) (i : nat) : list nat :=
  match s with
  | [] => []
  | d :: s' => (i / numel s') :: unravel s' (i mod numel s')
  end.

Fixpoint ravel (s : list nat) (idx : list nat) : nat :=
  match s, idx with
  | _ :: s', c :: idx' => c * numel s' + ravel s' idx'
  | _, _ => 0
  end.

(** Broadcasting of [src] to the shape [dst]: shapes are aligned at the last
    dimension and a dimension of [src] must equal that of [dst] or be 1. *)
Fixpoint dims_match (src dst : list nat) : bool :=
  match src, dst with
  | [], [] => true
  | a :: src', b :: dst' => ((a =? b) || (a =? 1)) && dims_match src' dst'
  | _, _ => false
  end.

Definition broadcastable (src dst : list nat) : bool :=
  (length src <=? length dst)
  && dims_match src (skipn (length dst - length src) dst).

Definition broadcast_index (src dst : list nat) (i : nat) : nat :=
  let idx := skipn (length dst - length src) (unravel dst i) in
  ravel src (map (fun dc => if fst dc =? 1 then 0 else snd dc) (combine src idx)).

(** [out += identity]: the in-place sum keeps the shape of [out]. *)
Definition iadd_shape (out identity : list nat) : option (list nat) :=
  if broadcastable identity out then Some out else None.

Definition iadd (out identity : Tensor) : option Tensor :=
  match iadd_shape (shape out) (shape identity) with
  | Some s =>
      Some {| shape := s;
              data := map (fun i => at_ (data out) i
                                    + at_ (data identity)
                                        (broadcast_index (shape identity) (shape out) i))%Q
                          (seq 0 (numel (shape out))) |}
  | None => None
  end.

(** ** Reshaping *)

(** [torch.flatten(x, 1)] *)
Definition flatten1_shape (s : list nat) : option (list nat) :=
  match s with
  | n :: (_ :: _) as rest => Some [n; numel rest]
  | _ => None
  end.

Definition flatten1 (t : Tensor) : option Tensor :=
  match flatten1_shape (shape t) with
  | Some s => Some {| shape := s; data := data t |}
  | None => None
  end.

(** [x.view(-1, k)]: the first dimension is inferred; the library refuses an
    empty tensor (the inferred size would be ambiguous) and an element count
    that [k] does not divide. *)
Definition view_rows_shape (k : nat) (s : list nat) : option (list nat) :=
  if (numel s =? 0) || (k =? 0) then None
  else if numel s mod k =? 0 then Some [numel s / k; k]
  else None.

Definition view_rows (k : nat) (t : Tensor) : option Tensor :=
  match view_rows_shape k (shape t) with
  | Some s => Some {| shape := s; data := data t |}
  | None => None
  end.

(** ** [argmax(dim=1)] *)

(** Index of the first maximal element. *)
Fixpoint argmax_from (best_i : nat) (best : Q) (i : nat) (l : list Q) : nat :=
  match l with
  | [] => best_i
  | x :: l' =>
      if Qgtb x best then argmax_from i x (S i) l'
      else argmax_from best_i best (S i) l'
  end.

Definition argmax_list (l : list Q) : nat :=
  match l with
  | [] => 0
  | x :: l' => argmax_from 0 x 1 l'
  end.

Definition argmax1_shape (s : list nat) : option (list nat) :=
  match s with
  | n :: k :: rest => if k =? 0 then None else Some (n :: rest)
  | _ => None
  end.

Definition argmax1 (t : Tensor) : option LongTensor :=
  match shape t, argmax1_shape (shape t) with
  | n :: k :: rest, Some s =>
      let inner := numel rest in
      Some {| lshape := s;
              ldata :=
                flat_map (fun b =>
                  map (fun r =>
                    Z.of_nat (argmax_list
                      (map (fun c => at_ (data t) ((b * k + c) * inner + r)) (seq 0 k))))
                    (seq 0 inner))
                  (seq 0 n) |}
  | _, _ => None
  end.

End torch.

(* ================================================================== *)
(** * Layers of [torch.nn] *)
(* ================================================================== *)

(** Exceptions of the library propagate: a failing step fails the whole
    computation. *)
Notation "x <- m ;; k" :=
  (match m with Some x => k | None => None end)
  (at level 61, m at next level, right associativity).
Notation "' pat <- m ;; k" :=
  (match m with Some pat => k | None => None end)
  (at level 61, pat pattern, m at next level, right associativity).

Module nn.
Import Scalar torch.

(** ** Parameter initialisation

    Constructors of layers with weights draw their initial values from the
    library's random generator.  The generator is a position in a stream of
    values; drawing advances it. *)
Record Generator : Type := mkGen { position : nat; stream : nat -> Q }.

Definition Init (A : Type) : Type := Generator -> A * Generator.

Definition ret {A} (a : A) : Init A := fun g => (a, g).

Definition bind {A B} (m : Init A) (k : A -> Init B) : Init B :=
  fun g => let (a, g') := m g in k a g'.

Definition draw (n : nat) : Init (list Q) :=
  fun g => (map (stream g) (seq (position g) n),
            {| position := position g + n; stream := stream g |}).

(** The reciprocal square root of the library's arithmetic, used by batch
    normalisation; rationals have none of their own. *)
Class Numerics : Type := { rsqrt : Q -> Q }.

(** Output length of a sliding window of size [k], step [s] and padding [p]
    over an axis of length [h]: [floor((h + 2p - k) / s) + 1], an error when
    the padded axis is shorter than the window or the step is zero. *)
Definition window_out (h k s p : nat) : option nat :=
  if (s =? 0) || (h + 2 * p <? k) then None
  else Some ((h + 2 * p - k) / s + 1).

(** Batched view of an image tensor: a 3-D tensor [(C,H,W)] is treated as a
    batch of one. *)
Definition as_batch (s : list nat) : option (nat * nat * nat * nat) :=
  match s with
  | [n; c; h; w] => Some (n, c, h, w)
  | [c; h; w] => Some (1, c, h, w)
  | _ => None
  end.

(** The result shape with the batch dimension present exactly when the input
    had one. *)
Definition like_input (s : list nat) (c h w : nat) : list nat :=
  match s with
  | [n; _; _; _] => [n; c; h; w]
  | _ => [c; h; w]
  end.

(** Flat position of element [(n, c, i, j)] of an [(N, C, H, W)] tensor. *)
Definition pos4 (C H W n c i j : nat) : nat := ((n * C + c) * H + i) * W + j.

(** The elements of a 4-D result, in row-major order. *)
Definition tabulate4 (N C H W : nat) (f : nat -> nat -> nat -> nat -> Q) : list Q :=
  flat_map (fun n =>
    flat_map (fun c =>
      flat_map (fun i => map (fun j => f n c i j) (seq 0 W)) (seq 0 H))
      (seq 0 C))
    (seq 0 N).

End nn.

(** ** [nn.Conv2d] *)

Module Conv2d.
Import Scalar torch nn.

Record t : Type := mk {
  in_channels : nat;
  out_channels : nat;
  kernel_size : nat;
  stride : nat;
  padding : nat;
  weight : list Q;            (* (out_channels, in_channels, k, k), row-major *)
  bias : option (list Q)      (* (out_channels), absent with [bias=False] *)
}.

(** [nn.Conv2d(in_channels, out_channels, kernel_size, stride=1, padding=0,
    bias=True)]; the defaults are written out at each call. *)
Definition __init__ (in_channels out_channels kernel_size stride padding : nat)
    (has_bias : bool) : Init t :=
  bind (draw (out_channels * in_channels * kernel_size * kernel_size)) (fun w =>
  bind (if has_bias then bind (draw out_channels) (fun b => ret (Some b)) else ret None)
       (fun b =>
  ret {| in_channels := in_channels; out_channels := out_channels;
         kernel_size := kernel_size; stride := stride; padding := padding;
         weight := w; bias := b |})).

Definition forward_shape (self : t) (s : list nat) : option (list nat) :=
  '(n, c, h, w) <- as_batch s ;;
  if negb (c =? in_channels self) then None else
  h' <- window_out h (kernel_size self) (stride self) (padding self) ;;
  w' <- window_out w (kernel_size self) (stride self) (padding self) ;;
  Some (like_input s (out_channels self) h' w').

(** Output element [(n, o, i, j)]: the bias of channel [o] plus the
    cross-correlation of the zero-padded input with the kernel of [o]. *)
Definition output_at (self : t) (C H W : nat) (d : list Q) (n o i j : nat) : Q :=
  let k := kernel_size self in
  let p := padding self in
  let tap (c a b : nat) : Q :=
    let r := i * stride self + a in
    let q := j * stride self + b in
    if (p <=? r) && (r <? p + H) && (p <=? q) && (q <? p + W)
    then (at_ (weight self) (((o * C + c) * k + a) * k + b)
          * at_ d (pos4 C H W n c (r - p) (q - p)))%Q
    else 0%Q in
  ((match bias self with Some b => at_ b o | None => 0 end)
   + sum_upto C (fun c => sum_upto k (fun a => sum_upto k (fun b => tap c a b))))%Q.

Definition forward (self : t) (x : Tensor) : option Tensor :=
  s' <- forward_shape self (shape x) ;;
  '(n, c, h, w) <- as_batch (shape x) ;;
  '(_, o, h', w') <- as_batch s' ;;
  Some {| shape := s';
          data := tabulate4 n o h' w' (output_at self c h w (data x)) |}.

End Conv2d.

(** ** [nn.BatchNorm2d] *)

Module BatchNorm2d.
Import Scalar torch nn.

Record t : Type := mk {
  num_features : nat;
  weight : list Q;
  bias : list Q;
  running_mean : list Q;
  running_var : list Q;
  eps : Q
}.

(** [nn.BatchNorm2d(num_features)]: scale one, shift zero, running mean zero,
    running variance one, [eps = 1e-5]; nothing is drawn. *)
Definition __init__ (num_features : nat) : Init t :=
  ret {| num_features := num_features;
         weight := repeat 1%Q num_features;
         bias := repeat 0%Q num_features;
         running_mean := repeat 0%Q num_features;
         running_var := repeat 1%Q num_features;
         eps := 1 # 100000 |}.

(** The layer takes 4-D input whose channel count is [num_features].  In
    training mode the library refuses an input with a single value per
    channel ([N * H * W = 1]): its batch statistics would be meaningless. *)
Definition forward_shape (training : bool) (self : t) (s : list nat)
    : option (list nat) :=
  match s with
  | [n; c; h; w] =>
      if negb (c =? num_features self) then None
      else if training && (n * h * w =? 1) then None
      else Some s
  | _ => None
  end.

(** The values of channel [c], over the batch and both spatial axes. *)
Definition channel_values (N C H W : nat) (d : list Q) (c : nat) : list Q :=
  flat_map (fun n => firstn (H * W) (skipn ((n * C + c) * (H * W)) d)) (seq 0 N).

Definition mean (l : list Q) : Q := (Qsum l / inject_Z (Z.of_nat (length l)))%Q.

(** Biased variance, as the layer normalises with. *)
Definition variance (l : list Q) : Q :=
  let m := mean l in mean (map (fun v => (v - m) * (v - m))%Q l).

(** Training mode normalises with the statistics of the batch, inference mode
    with the running statistics.  (In training mode the library also moves
    the running statistics toward those of the batch; the returned tensor does
    not depend on that update and it is left out.) *)
Definition output_at `{Numerics} (training : bool) (self : t)
    (N C H W : nat) (d : list Q) (n c i j : nat) : Q :=
  let vals := channel_values N C H W d c in
  let m := if training then mean vals else at_ (running_mean self) c in
  let v := if training then variance vals else at_ (running_var self) c in
  ((at_ d (pos4 C H W n c i j) - m) * rsqrt (v + eps self)
   * at_ (weight self) c + at_ (bias self) c)%Q.

Definition forward `{Numerics} (training : bool) (self : t) (x : Tensor)
    : option Tensor :=
  s' <- forward_shape training self (shape x) ;;
  '(n, c, h, w) <- as_batch s' ;;
  Some {| shape := s';
          data := tabulate4 n c h w (output_at training self n c h w (data x)) |}.

End BatchNorm2d.

(** ** [nn.MaxPool2d] *)

Module MaxPool2d.
Import Scalar torch nn.

Record t : Type := mk { kernel_size : nat; stride : nat; padding : nat }.

(** [nn.MaxPool2d(kernel_size, stride, padding=0)] has no parameters. *)
Definition __init__ (kernel_size stride padding : nat) : t :=
  {| kernel_size := kernel_size; stride := stride; padding := padding |}.

(** The library refuses an empty window, a padding above half the window, an
    empty channel or spatial axis, and an output that would be empty. *)
Definition forward_shape (self : t) (s : list nat) : option (list nat) :=
  '(n, c, h, w) <- as_batch s ;;
  if (kernel_size self =? 0) || (kernel_size self / 2 <? padding self)
     || (c =? 0) || (h =? 0) || (w =? 0) then None else
  h' <- window_out h (kernel_size self) (stride self) (padding self) ;;
  w' <- window_out w (kernel_size self) (stride self) (padding self) ;;
  Some (like_input s c h' w').

Definition Qmax (a b : Q) : Q := if Qgtb b a then b else a.

Definition max_list (l : list Q) : Q :=
  match l with
  | [] => 0%Q
  | x :: l' => fold_left Qmax l' x
  end.

(** Output element [(n, c, i, j)]: the largest input element under the
    window; padding positions hold no element. *)
Definition output_at (self : t) (C H W : nat) (d : list Q) (n c i j : nat) : Q :=
  let k := kernel_size self in
  let p := padding self in
  max_list
    (flat_map (fun a =>
       flat_map (fun b =>
         let r := i * stride self + a in
         let q := j * stride self + b in
         if (p <=? r) && (r <? p + H) && (p <=? q) && (q <? p + W)
         then [at_ d (pos4 C H W n c (r - p) (q - p))]
         else [])
         (seq 0 k))
       (seq 0 k)).

Definition forward (self : t) (x : Tensor) : option Tensor :=
  s' <- forward_shape self (shape x) ;;
  '(n, c, h, w) <- as_batch (shape x) ;;
  '(_, _, h', w') <- as_batch s' ;;
  Some {| shape := s';
          data := tabulate4 n c h' w' (output_at self c h w (data x)) |}.

End MaxPool2d.

(** ** [nn.AdaptiveAvgPool2d] *)

Module AdaptiveAvgPool2d.
Import Scalar torch nn.

Record t : Type := mk { output_size : nat * nat }.

Definition __init__ (output_size : nat * nat) : t :=
  {| output_size := output_size |}.

Definition forward_shape (self : t) (s : list nat) : option (list nat) :=
  '(n, c, h, w) <- as_batch s ;;
  if (c =? 0) || (h =? 0) || (w =? 0) then None
  else Some (like_input s c (fst (output_size self)) (snd (output_size self))).

(** Output cell [i] of [o] cells over an axis of length [h] averages the
    input positions [floor(i*h/o) .. ceil((i+1)*h/o) - 1]. *)
Definition cell_start (h o i : nat) : nat := i * h / o.
Definition cell_end (h o i : nat) : nat := ((i + 1) * h + o - 1) / o.

Definition output_at (self : t) (C H W : nat) (d : list Q) (n c i j : nat) : Q :=
  let '(oh, ow) := output_size self in
  let rows := seq (cell_start H oh i) (cell_end H oh i - cell_start H oh i) in
  let cols := seq (cell_start W ow j) (cell_end W ow j - cell_start W ow j) in
  (Qsum (flat_map (fun r => map (fun q => at_ d (pos4 C H W n c r q)) cols) rows)
   / inject_Z (Z.of_nat (length rows * length cols)))%Q.

Definition forward (self : t) (x : Tensor) : option Tensor :=
  s' <- forward_shape self (shape x) ;;
  '(n, c, h, w) <- as_batch (shape x) ;;
  Some {| shape := s';
          data := tabulate4 n c (fst (output_size self)) (snd (output_size self))
                    (output_at self c h w (data x)) |}.

End AdaptiveAvgPool2d.

(** ** [nn.Linear] *)

Module Linear.
Import Scalar torch nn.

Record t : Type := mk {
  in_features : nat;
  out_features : nat;
  weight : list Q;            (* (out_features, in_features), row-major *)
  bias : option (list Q)
}.

(** [nn.Linear(in_features, out_features)], with bias. *)
Definition __init__ (in_features out_features : nat) : Init t :=
  bind (draw (out_features * in_features)) (fun w =>
  bind (draw out_features) (fun b =>
  ret {| in_features := in_features; out_features := out_features;
         weight := w; bias := Some b |})).

(** The last dimension must be [in_features]; it becomes [out_features]. *)
Definition forward_shape (self : t) (s : list nat) : option (list nat) :=
  match rev s with
  | k :: lead => if k =? in_features self
                 then Some (rev lead ++ [out_features self]) else None
  | [] => None
  end.

(** Component [o] of the image of row [r]: [sum_i x[r,i] * W[o,i] + b[o]]. *)
Definition output_at (self : t) (d : list Q) (r o : nat) : Q :=
  (sum_upto (in_features self) (fun i =>
     at_ d (r * in_features self + i) * at_ (weight self) (o * in_features self + i))
   + match bias self with Some b => at_ b o | None => 0 end)%Q.

Definition forward (self : t) (x : Tensor) : option Tensor :=
  s' <- forward_shape self (shape x) ;;
  Some {| shape := s';
          data := flat_map (fun r => map (fun o => output_at self (data x) r o)
                                         (seq 0 (out_features self)))
                           (seq 0 (numel (removelast (shape x)))) |}.

End Linear.

(** ** [nn.Sequential] *)

Module Sequential.
Import torch.

(** An [nn.Sequential] over a list of modules: they are applied in order, each to the
    result of the one before.  [fwd] is the [forward] of the element class. *)
Definition forward {M : Type} (fwd : M -> Tensor -> option Tensor)
    (self : list M) (x : Tensor) : option Tensor :=
  fold_left (fun acc m => x' <- acc ;; fwd m x') self (Some x).

Definition forward_shape {M : Type} (fwd : M -> list nat -> option (list nat))
    (self : list M) (s : list nat) : option (list nat) :=
  fold_left (fun acc m => s' <- acc ;; fwd m s') self (Some s).

End Sequential.

(* ================================================================== *)
(** * The models of the notebooks *)
(* ================================================================== *)

Notation "x <~ m ;; k" := (nn.bind m (fun x => k))
  (at level 61, m at next level, right associativity).
Notation "' pat <~ m ;; k" := (nn.bind m (fun x => match x with pat => k end))
  (at level 61, pat pattern, m at next level, right associativity).

(** ** [SimpleCNN], first definition *)

Module SimpleCNN.
Import torch nn.

Record t : Type := mk {
  conv1 : Conv2d.t;
  conv2 : Conv2d.t;
  pool : MaxPool2d.t;
  fc1 : Linear.t;
  fc2 : Linear.t
}.

Definition __init__ (num_classes : nat) : Init t :=
  conv1 <~ Conv2d.__init__ 3 32 3 1 1 true ;;
  conv2 <~ Conv2d.__init__ 32 64 3 1 1 true ;;
  let pool := MaxPool2d.__init__ 2 2 0 in
  fc1 <~ Linear.__init__ (64 * 8 * 8) 128 ;;
  fc2 <~ Linear.__init__ 128 num_classes ;;
  ret {| conv1 := conv1; conv2 := conv2; pool := pool; fc1 := fc1; fc2 := fc2 |}.

Definition forward (self : t) (x : Tensor) : option Tensor :=
  x <- Conv2d.forward (conv1 self) x ;;
  x <- MaxPool2d.forward (pool self) (relu x) ;;
  x <- Conv2d.forward (conv2 self) x ;;
  x <- MaxPool2d.forward (pool self) (relu x) ;;
  x <- view_rows (64 * 8 * 8) x ;;
  x <- Linear.forward (fc1 self) x ;;
  let x := relu x in
  x <- Linear.forward (fc2 self) x ;;
  Some x.

End SimpleCNN.

(** ** [SimpleCNN], the redefinition that prints after each layer *)

Module SimpleCNN_prints.
Import torch nn.

Record t : Type := mk {
  conv1 : Conv2d.t;
  conv2 : Conv2d.t;
  pool : MaxPool2d.t;
  fc1 : Linear.t;
  fc2 : Linear.t
}.

Definition __init__ (num_classses : nat) : Init t :=
  conv1 <~ Conv2d.__init__ 3 32 3 1 1 true ;;
  conv2 <~ Conv2d.__init__ 32 64 3 1 1 true ;;
  let pool := MaxPool2d.__init__ 2 2 0 in
  fc1 <~ Linear.__init__ (64 * 8 * 8) 128 ;;
  fc2 <~ Linear.__init__ 128 num_classses ;;
  ret {| conv1 := conv1; conv2 := conv2; pool := pool; fc1 := fc1; fc2 := fc2 |}.

(** A printed line: the label and the shape shown after it. *)
Definition Line : Type := (string * list nat)%type.

(** A computation that prints and may raise: what was printed so far, and
    the value unless a layer raised. *)
Definition Printing (A : Type) : Type := (list Line * option A)%type.

Definition print (label : string) (x : Tensor) : Printing unit :=
  ([(label, shape x)], Some tt).

Definition call {A} (r : option A) : Printing A := ([], r).

Definition then_ {A B} (m : Printing A) (k : A -> Printing B) : Printing B :=
  match m with
  | (out, Some a) => let (out', r) := k a in (out ++ out', r)
  | (out, None) => (out, None)
  end.

Definition forward (self : t) (x : Tensor) : Printing Tensor :=
  then_ (print "Input shape:" x) (fun _ =>
  then_ (call (Conv2d.forward (conv1 self) x)) (fun x =>
  let x := relu x in
  then_ (print "After conv1:" x) (fun _ =>
  then_ (call (MaxPool2d.forward (pool self) x)) (fun x =>
  then_ (print "After Pool1:" x) (fun _ =>
  then_ (call (Conv2d.forward (conv2 self) x)) (fun x =>
  let x := relu x in
  then_ (print "After conv2:" x) (fun _ =>
  then_ (call (MaxPool2d.forward (pool self) x)) (fun x =>
  then_ (print "After Pool2:" x) (fun _ =>
  then_ (call (view_rows (64 * 8 * 8) x)) (fun x =>
  then_ (print "After Flatten:" x) (fun _ =>
  then_ (call (Linear.forward (fc1 self) x)) (fun x =>
  let x := relu x in
  then_ (print "After fc1:" x) (fun _ =>
  then_ (call (Linear.forward (fc2 self) x)) (fun x =>
  let x := relu x in
  then_ (print "After fc2:" x) (fun _ =>
  (nil, Some x)))))))))))))))).

End SimpleCNN_prints.

(** ** The residual block *)

(** The layers a shortcut projection is made of. *)
Inductive Layer : Type :=
| Conv (c : Conv2d.t)
| Norm (b : BatchNorm2d.t).

Definition Layer_forward `{nn.Numerics} (training : bool) (l : Layer)
    (x : torch.Tensor) : option torch.Tensor :=
  match l with
  | Conv c => Conv2d.forward c x
  | Norm b => BatchNorm2d.forward training b x
  end.

(** What [ResNet] asks of the block class it is given: the class attribute
    [expansion], the constructor [block(in_channels, out_channels, stride,
    downsample)] and [forward].  [training] is the module's mode, which
    [model.train()] and [model.eval()] set for a model and all its layers. *)
Class BlockClass (B : Type) : Type := {
  expansion : nat;
  block : nat -> nat -> nat -> option (list Layer) -> nn.Init B;
  block_forward : forall `{nn.Numerics}, bool -> B -> torch.Tensor -> option torch.Tensor
}.

Module BasicBlock.
Import torch nn.

Record t : Type := mk {
  conv1 : Conv2d.t;
  bn1 : BatchNorm2d.t;
  conv2 : Conv2d.t;
  bn2 : BatchNorm2d.t;
  downsample : option (list Layer)
}.

Definition expansion : nat := 1.

(** [def __init__(self, in_channels, out_channels, stride=1, downsample=None)] *)
Definition __init__ (in_channels out_channels stride : nat)
    (downsample : option (list Layer)) : Init t :=
  conv1 <~ Conv2d.__init__ in_channels out_channels 3 stride 1 false ;;
  bn1 <~ BatchNorm2d.__init__ out_channels ;;
  conv2 <~ Conv2d.__init__ out_channels out_channels 3 1 1 false ;;
  bn2 <~ BatchNorm2d.__init__ out_channels ;;
  ret {| conv1 := conv1; bn1 := bn1; conv2 := conv2; bn2 := bn2;
         downsample := downsample |}.

Definition forward `{Numerics} (training : bool) (self : t) (x : Tensor)
    : option Tensor :=
  let identity := x in
  out <- Conv2d.forward (conv1 self) x ;;
  out <- BatchNorm2d.forward training (bn1 self) out ;;
  let out := relu out in
  out <- Conv2d.forward (conv2 self) out ;;
  out <- BatchNorm2d.forward training (bn2 self) out ;;
  identity <- match downsample self with
              | Some d => Sequential.forward (Layer_forward training) d x
              | None => Some identity
              end ;;
  out <- iadd out identity ;;
  Some (relu out).

End BasicBlock.

#[export] Instance BasicBlock_class : BlockClass BasicBlock.t := {
  expansion := BasicBlock.expansion;
  block := BasicBlock.__init__;
  block_forward := @BasicBlock.forward
}.

(** ** The network assembler *)

Module ResNet.
Import torch nn.

Section WithBlock.
Context {B : Type} `{BlockClass B}.

Record t : Type := mk {
  in_channels : nat;
  conv1 : Conv2d.t;
  bn1 : BatchNorm2d.t;
  maxpool : MaxPool2d.t;
  layer1 : list B;
  layer2 : list B;
  layer3 : list B;
  layer4 : list B;
  avgpool : AdaptiveAvgPool2d.t;
  fc : Linear.t
}.

(** [for _ in range(1, blocks): layers.append(block(self.in_channels,
    out_channels))]: the constructor runs for each index of the range. *)
Fixpoint append_blocks (indices : list nat) (in_channels out_channels : nat)
    : Init (list B) :=
  match indices with
  | [] => ret []
  | _ :: indices' =>
      b <~ block in_channels out_channels 1 None ;;
      bs <~ append_blocks indices' in_channels out_channels ;;
      ret (b :: bs)
  end.

(** [def _make_layer(self, block, out_channels, blocks, stride=1)].  The
    method reads and assigns the attribute [self.in_channels]; it is passed
    in and returned beside the layer. *)
Definition _make_layer (self_in_channels : nat) (out_channels blocks stride : nat)
    : Init (list B * nat) :=
  downsample <~
    (if negb (stride =? 1) || negb (self_in_channels =? out_channels * expansion)
     then
       c <~ Conv2d.__init__ self_in_channels (out_channels * expansion) 1 stride 0 false ;;
       b <~ BatchNorm2d.__init__ (out_channels * expansion) ;;
       ret (Some [Conv c; Norm b])
     else ret None) ;;
  first <~ block self_in_channels out_channels stride downsample ;;
  let self_in_channels := out_channels * expansion in
  rest <~ append_blocks (seq 1 (blocks - 1)) self_in_channels out_channels ;;
  ret (first :: rest, self_in_channels).

(** [def __init__(self, block, layers, num_classes=10)].  [layers[i]] raises
    when the list is too short. *)
Definition __init__ (layers : list nat) (num_classes : nat) : option (Init t) :=
  n0 <- nth_error layers 0 ;;
  n1 <- nth_error layers 1 ;;
  n2 <- nth_error layers 2 ;;
  n3 <- nth_error layers 3 ;;
  Some (
    let in_channels := 64 in
    conv1 <~ Conv2d.__init__ 3 64 7 2 3 false ;;
    bn1 <~ BatchNorm2d.__init__ 64 ;;
    let maxpool := MaxPool2d.__init__ 3 2 1 in
    '(layer1, in_channels) <~ _make_layer in_channels 64 n0 1 ;;
    '(layer2, in_channels) <~ _make_layer in_channels 128 n1 2 ;;
    '(layer3, in_channels) <~ _make_layer in_channels 256 n2 2 ;;
    '(layer4, in_channels) <~ _make_layer in_channels 512 n3 2 ;;
    let avgpool := AdaptiveAvgPool2d.__init__ (1, 1) in
    fc <~ Linear.__init__ (512 * expansion) num_classes ;;
    ret {| in_channels := in_channels; conv1 := conv1; bn1 := bn1;
           maxpool := maxpool; layer1 := layer1; layer2 := layer2;
           layer3 := layer3; layer4 := layer4; avgpool := avgpool; fc := fc |}).

Definition forward `{Numerics} (training : bool) (self : t) (x : Tensor)
    : option Tensor :=
  x <- Conv2d.forward (conv1 self) x ;;
  x <- BatchNorm2d.forward training (bn1 self) x ;;
  let x := relu x in
  x <- MaxPool2d.forward (maxpool self) x ;;

  x <- Sequential.forward (block_forward training) (layer1 self) x ;;
  x <- Sequential.forward (block_forward training) (layer2 self) x ;;
  x <- Sequential.forward (block_forward training) (layer3 self) x ;;
  x <- Sequential.forward (block_forward training) (layer4 self) x ;;

  x <- AdaptiveAvgPool2d.forward (avgpool self) x ;;
  x <- flatten1 x ;;
  x <- Linear.forward (fc self) x ;;

  Some x.

End WithBlock.

Arguments t B : clear implicits.

End ResNet.

(** [def resnet18(): return ResNet(BasicBlock, [2, 2, 2, 2])], with the
    default [num_classes=10]. *)
Definition resnet18 : option (nn.Init (ResNet.t BasicBlock.t)) :=
  ResNet.__init__ [2; 2; 2; 2] 10.

(* ================================================================== *)
(** * The epoch functions *)
(* ================================================================== *)

(** The objects [train_one_epoch] and [validate] are handed: the model, the
    loss function, the optimizer and the accuracy metric.  The functions only
    call them, so they are an interface here.

    - the model has learnable parameters, other state (running statistics)
      and a mode; called in training mode it may update its other state,
      called in inference mode it only computes;
    - [gradient mode p b X y] is the gradient with respect to the parameters
      of [criterion(model(X), y)], which [loss.backward()] adds to the stored
      gradients;
    - the optimizer's [step] reads the stored gradients and moves the
      parameters;
    - the metric is reset, updated with predictions and labels, and read. *)
Class Collaborators : Type := {
  Params : Type;
  Buffers : Type;
  Grads : Type;
  OptState : Type;
  MetricState : Type;
  forward_training : Params -> Buffers -> torch.Tensor
                     -> option (torch.Tensor * Buffers);
  forward_inference : Params -> Buffers -> torch.Tensor -> option torch.Tensor;
  criterion : torch.Tensor -> torch.LongTensor -> option Q;
  gradient : bool -> Params -> Buffers -> torch.Tensor -> torch.LongTensor -> Grads;
  grad_add : Grads -> Grads -> Grads;
  optimizer_step : OptState -> Params -> option Grads -> OptState * Params;
  metric_reset : MetricState -> MetricState;
  metric_update : MetricState -> torch.LongTensor -> torch.LongTensor
                  -> option MetricState;
  metric_compute : MetricState -> Q
}.

(** The calls made on the collaborators, in the order they are made. *)
Inductive Call : Type :=
| ModelTrain                       (* model.train() *)
| ModelEval                        (* model.eval() *)
| MetricReset                      (* accuracy_metric.reset() *)
| Tqdm (desc : string)             (* tqdm(dataloader, desc=..., leave=False) *)
| NoGradEnter                      (* with torch.no_grad(): *)
| NoGradExit
| ModelCall                        (* model(X_batch) *)
| CriterionCall                    (* criterion(outputs, y_batch) *)
| ZeroGrad                         (* optimizer.zero_grad() *)
| Backward                         (* loss.backward() *)
| OptimizerStep                    (* optimizer.step() *)
| MeterUpdate (value : Q) (n : Z)  (* loss_meter.update(loss.item(), X_batch.size(0)) *)
| Argmax                           (* outputs.argmax(dim=1) *)
| MetricUpdate                     (* accuracy_metric.update(preds, y_batch) *)
| SetPostfix.                      (* progress_bar.set_postfix(...) *)

Module Fmt.

Definition str (n : nat) : string := NilEmpty.string_of_uint (Nat.to_uint n).

Definition strN (n : N) : string := NilEmpty.string_of_uint (N.to_uint n).

(** Rounding to the nearest integer, ties to the even one. *)
Definition round_half_even (q : Q) : Z :=
  let f := Qfloor q in
  match ((q - inject_Z f) ?= 1 # 2)%Q with
  | Lt => f
  | Gt => (f + 1)%Z
  | Eq => if Z.even f then f else (f + 1)%Z
  end.

Definition digit (n : N) : string := strN (n mod 10).

(** [f"{q:.4f}"] *)
Definition format_4f (q : Q) : string :=
  let n := Z.to_N (round_half_even (Qabs q * 10000)) in
  ((if Qle_bool 0 q then "" else "-")
   ++ strN (n / 10000) ++ "."
   ++ digit (n / 1000) ++ digit (n / 100) ++ digit (n / 10) ++ digit n)%string.

End Fmt.

Module Runner.
Import Scalar torch.

Section WithCollaborators.
Context `{Collaborators}.

(** The model object: parameters, other state, the [.grad] of the parameters
    ([None] after [zero_grad], which releases them) and the mode. *)
Record Model : Type := mkModel {
  params : Params;
  buffers : Buffers;
  grads : option Grads;
  training : bool
}.

Definition Batch : Type := (Tensor * LongTensor)%type.

(** [model.train()] and [model.eval()] *)
Definition train (m : Model) : Model :=
  {| params := params m; buffers := buffers m; grads := grads m; training := true |}.

Definition eval (m : Model) : Model :=
  {| params := params m; buffers := buffers m; grads := grads m; training := false |}.

(** [model(X)] in the model's current mode. *)
Definition call (m : Model) (X : Tensor) : option (Tensor * Model) :=
  if training m then
    '(outputs, b) <- forward_training (params m) (buffers m) X ;;
    Some (outputs, {| params := params m; buffers := b; grads := grads m;
                      training := training m |})
  else
    outputs <- forward_inference (params m) (buffers m) X ;;
    Some (outputs, m).

(** [optimizer.zero_grad()] *)
Definition zero_grad (m : Model) : Model :=
  {| params := params m; buffers := buffers m; grads := None; training := training m |}.

(** [loss.backward()], for a loss whose gradient is [g]: gradients
    accumulate into what is stored. *)
Definition backward (m : Model) (g : Grads) : Model :=
  {| params := params m; buffers := buffers m;
     grads := Some (match grads m with Some g0 => grad_add g0 g | None => g end);
     training := training m |}.

(** [optimizer.step()] *)
Definition step (o : OptState) (m : Model) : OptState * Model :=
  let (o', p') := optimizer_step o (params m) (grads m) in
  (o', {| params := p'; buffers := buffers m; grads := grads m;
          training := training m |}).

(** What a training pass carries from batch to batch. *)
Record TrainState : Type := mkTrain {
  t_model : Model;
  t_optimizer : OptState;
  t_metric : MetricState;
  t_meter : AverageMeter.t;
  t_calls : list Call
}.

(** The body of the loop of [train_one_epoch]. *)
Definition train_batch (s : TrainState) (batch : Batch) : option TrainState :=
  let '(X_batch, y_batch) := batch in
  let before := t_model s in
  '(outputs, model) <- call (t_model s) X_batch ;;
  loss <- criterion outputs y_batch ;;
  let loss_grad := gradient (training before) (params before) (buffers before)
                            X_batch y_batch in
  let model := zero_grad model in
  let model := backward model loss_grad in
  let '(optimizer, model) := step (t_optimizer s) model in
  n <- size0 X_batch ;;
  let loss_meter := AverageMeter.update (t_meter s) loss (Z.of_nat n) in
  preds <- argmax1 outputs ;;
  metric <- metric_update (t_metric s) preds y_batch ;;
  Some {| t_model := model; t_optimizer := optimizer; t_metric := metric;
          t_meter := loss_meter;
          t_calls := t_calls s ++
            [ModelCall; CriterionCall; ZeroGrad; Backward; OptimizerStep;
             MeterUpdate loss (Z.of_nat n); Argmax; MetricUpdate; SetPostfix] |}.

Definition for_each {S : Type} (body : S -> Batch -> option S)
    (dataloader : list Batch) (s : S) : option S :=
  fold_left (fun acc batch => s' <- acc ;; body s' batch) dataloader (Some s).

(** [def train_one_epoch(model, dataloader, criterion, optimizer, device,
    epoch, accuracy_metric)].  The result is the returned pair and the
    objects as the call leaves them. *)
Definition train_one_epoch (model : Model) (dataloader : list Batch)
    (optimizer : OptState) (epoch : nat) (accuracy_metric : MetricState)
    : option ((Q * Q) * TrainState) :=
  let model := train model in
  let loss_meter := AverageMeter.__init__ in
  let accuracy_metric := metric_reset accuracy_metric in
  let desc := ("Epoch " ++ Fmt.str (epoch + 1) ++ " [Training]")%string in
  s <- for_each train_batch dataloader
         {| t_model := model; t_optimizer := optimizer;
            t_metric := accuracy_metric; t_meter := loss_meter;
            t_calls := [ModelTrain; MetricReset; Tqdm desc] |} ;;
  let avg_loss := AverageMeter.avg (t_meter s) in
  let avg_accuracy := metric_compute (t_metric s) in
  Some ((avg_loss, avg_accuracy), s).

(** [validate] is not given the optimizer. *)
Record EvalState : Type := mkEval {
  e_model : Model;
  e_metric : MetricState;
  e_meter : AverageMeter.t;
  e_calls : list Call
}.

Definition validate_batch (s : EvalState) (batch : Batch) : option EvalState :=
  let '(X_batch, y_batch) := batch in
  '(outputs, model) <- call (e_model s) X_batch ;;
  loss <- criterion outputs y_batch ;;
  n <- size0 X_batch ;;
  let loss_meter := AverageMeter.update (e_meter s) loss (Z.of_nat n) in
  preds <- argmax1 outputs ;;
  metric <- metric_update (e_metric s) preds y_batch ;;
  Some {| e_model := model; e_metric := metric; e_meter := loss_meter;
          e_calls := e_calls s ++
            [ModelCall; CriterionCall; MeterUpdate loss (Z.of_nat n); Argmax;
             MetricUpdate; SetPostfix] |}.

(** [def validate(model, dataloader, criterion, device, epoch,
    accuracy_metric)] *)
Definition validate (model : Model) (dataloader : list Batch) (epoch : nat)
    (accuracy_metric : MetricState) : option ((Q * Q) * EvalState) :=
  let model := eval model in
  let loss_meter := AverageMeter.__init__ in
  let accuracy_metric := metric_reset accuracy_metric in
  let desc := ("Epoch " ++ Fmt.str (epoch + 1) ++ " [Validation]")%string in
  s <- for_each validate_batch dataloader
         {| e_model := model; e_metric := accuracy_metric; e_meter := loss_meter;
            e_calls := [ModelEval; MetricReset; Tqdm desc; NoGradEnter] |} ;;
  let s := {| e_model := e_model s; e_metric := e_metric s; e_meter := e_meter s;
              e_calls := e_calls s ++ [NoGradExit] |} in
  let avg_loss := AverageMeter.avg (e_meter s) in
  let avg_accuracy := metric_compute (e_metric s) in
  Some ((avg_loss, avg_accuracy), s).

End WithCollaborators.

End Runner.

(* ================================================================== *)
(** * The training script *)
(* ================================================================== *)

(** What the script does that can be observed from outside, in order: the
    two passes of an epoch (with the calls each made), the scalars given to
    the TensorBoard writer, the lines printed, and the checkpoint writes.
    The epoch on [TorchSave] is the loop variable at the time of the call. *)
Inductive Event : Type :=
| TrainPass (epoch : nat) (calls : list Call)
| ValPass (epoch : nat) (calls : list Call)
| AddScalar (tag : string) (value : Q) (global_step : nat)
| Print (line : string)
| TorchSave (epoch : nat) (path : string)
| WriterClose.

Module Driver.
Import Scalar torch.

(** [f"Epoch [{epoch+1}/{num_epochs}], Train Loss: {train_loss:.4f}, Train
    Accuracy: {train_acc:.4f}, Val Loss: {val_loss:.4f}, Val Accuracy:
    {val_acc:.4f}"] *)
Definition summary_line (epoch num_epochs : nat)
    (train_loss train_acc val_loss val_acc : Q) : string :=
  ("Epoch [" ++ Fmt.str (epoch + 1) ++ "/" ++ Fmt.str num_epochs
   ++ "], Train Loss: " ++ Fmt.format_4f train_loss
   ++ ", Train Accuracy: " ++ Fmt.format_4f train_acc
   ++ ", Val Loss: " ++ Fmt.format_4f val_loss
   ++ ", Val Accuracy: " ++ Fmt.format_4f val_acc)%string.

(** [f"Best model saved at epoch {epoch+1} with validation accuracy:
    {best_val_acc:.4f}"] *)
Definition best_line (epoch : nat) (best_val_acc : Q) : string :=
  ("Best model saved at epoch " ++ Fmt.str (epoch + 1)
   ++ " with validation accuracy: " ++ Fmt.format_4f best_val_acc)%string.

Section WithCollaborators.
Context `{Collaborators}.

(** [train_loader] shuffles and augments, so every pass over it yields its
    own batches: it is indexed by the epoch.  [val_loader] yields the same
    batches every time. *)
Variable train_loader : nat -> list Runner.Batch.
Variable val_loader : list Runner.Batch.

(** The variables of the script and the file it writes. *)
Record World : Type := mkWorld {
  model : Runner.Model;
  optimizer : OptState;
  train_accuracy : MetricState;
  val_accuracy : MetricState;
  best_val_acc : Q;
  best_model_pth : option (Params * Buffers);
  events : list Event
}.

(** [model.state_dict()]: parameters and persistent buffers. *)
Definition state_dict (m : Runner.Model) : Params * Buffers :=
  (Runner.params m, Runner.buffers m).

(** The body of [for epoch in range(num_epochs)]. *)
Definition epoch_body (num_epochs : nat) (w : World) (epoch : nat) : option World :=
  '((train_loss, train_acc), ts) <-
     Runner.train_one_epoch (model w) (train_loader epoch) (optimizer w) epoch
                            (train_accuracy w) ;;
  '((val_loss, val_acc), vs) <-
     Runner.validate (Runner.t_model ts) val_loader epoch (val_accuracy w) ;;
  let logged :=
    events w ++
    [TrainPass epoch (Runner.t_calls ts);
     ValPass epoch (Runner.e_calls vs);
     AddScalar "Loss/Train" train_loss epoch;
     AddScalar "Accuracy/Train" train_acc epoch;
     AddScalar "Loss/Validation" val_loss epoch;
     AddScalar "Accuracy/Validation" val_acc epoch;
     Print (summary_line epoch num_epochs train_loss train_acc val_loss val_acc)] in
  if Qgtb val_acc (best_val_acc w) then
    let best_val_acc := val_acc in
    Some {| model := Runner.e_model vs;
            optimizer := Runner.t_optimizer ts;
            train_accuracy := Runner.t_metric ts;
            val_accuracy := Runner.e_metric vs;
            best_val_acc := best_val_acc;
            best_model_pth := Some (state_dict (Runner.e_model vs));
            events := logged ++ [TorchSave epoch "best_model.pth";
                                 Print (best_line epoch best_val_acc)] |}
  else
    Some {| model := Runner.e_model vs;
            optimizer := Runner.t_optimizer ts;
            train_accuracy := Runner.t_metric ts;
            val_accuracy := Runner.e_metric vs;
            best_val_acc := best_val_acc w;
            best_model_pth := best_model_pth w;
            events := logged |}.

(** The loop over [range(num_epochs)]. *)
Definition epochs (num_epochs : nat) (w : World) : option World :=
  fold_left (fun acc epoch => w' <- acc ;; epoch_body num_epochs w' epoch)
            (seq 0 num_epochs) (Some w).

(** [writer.close()] *)
Definition close_writer (w : World) : World :=
  {| model := model w; optimizer := optimizer w;
     train_accuracy := train_accuracy w; val_accuracy := val_accuracy w;
     best_val_acc := best_val_acc w; best_model_pth := best_model_pth w;
     events := events w ++ [WriterClose] |}.

(** The training cell: [writer = SummaryWriter()], [best_val_acc = 0.0], the
    loop, [writer.close()].  [disk] is what [best_model.pth] holds before the
    cell runs, if the file exists. *)
Definition training_loop (num_epochs : nat) (model : Runner.Model)
    (optimizer : OptState) (train_accuracy val_accuracy : MetricState)
    (disk : option (Params * Buffers)) : option World :=
  w <- epochs num_epochs
         {| model := model; optimizer := optimizer;
            train_accuracy := train_accuracy; val_accuracy := val_accuracy;
            best_val_acc := 0; best_model_pth := disk; events := [] |} ;;
  Some (close_writer w).

(** ** Reading a run *)

(** The validation accuracy of each epoch, as logged, in epoch order. *)
Definition val_accs (evs : list Event) : list Q :=
  flat_map (fun e => match e with
                     | AddScalar "Accuracy/Validation" v _ => [v]
                     | _ => []
                     end) evs.

(** The epochs at which the checkpoint was written. *)
Definition saved_epochs (evs : list Event) : list nat :=
  flat_map (fun e => match e with TorchSave epoch _ => [epoch] | _ => [] end) evs.


End WithCollaborators.

End Driver.

(* ================================================================== *)
(** * The rest of the notebooks *)
(* ================================================================== *)

(** ** [nn.AvgPool2d] *)

Module AvgPool2d.
Import Scalar torch nn.

Record t : Type := mk { kernel_size : nat; stride : nat; padding : nat }.

(** [nn.AvgPool2d(kernel_size, stride, padding=0)] has no parameters. *)
Definition __init__ (kernel_size stride padding : nat) : t :=
  {| kernel_size := kernel_size; stride := stride; padding := padding |}.

(** The library checks the window of an average pooling as it checks that
    of a max pooling. *)
Definition forward_shape (self : t) (s : list nat) : option (list nat) :=
  '(n, c, h, w) <- as_batch s ;;
  if (kernel_size self =? 0) || (kernel_size self / 2 <? padding self)
     || (c =? 0) || (h =? 0) || (w =? 0) then None else
  h' <- window_out h (kernel_size self) (stride self) (padding self) ;;
  w' <- window_out w (kernel_size self) (stride self) (padding self) ;;
  Some (like_input s c h' w').

(** Output element [(n, c, i, j)]: the sum of the input elements under the
    window over the size of the window; padding positions count as zeros
    ([count_include_pad=True]). *)
Definition output_at (self : t) (C H W : nat) (d : list Q) (n c i j : nat) : Q :=
  let k := kernel_size self in
  let p := padding self in
  let window :=
    flat_map (fun a =>
      flat_map (fun b =>
        let r := i * stride self + a in
        let q := j * stride self + b in
        if (p <=? r) && (r <? p + H) && (p <=? q) && (q <? p + W)
        then [at_ d (pos4 C H W n c (r - p) (q - p))]
        else [])
        (seq 0 k))
      (seq 0 k) in
  (Qsum window / inject_Z (Z.of_nat (k * k)))%Q.

Definition forward (self : t) (x : Tensor) : option Tensor :=
  s' <- forward_shape self (shape x) ;;
  '(n, c, h, w) <- as_batch (shape x) ;;
  '(_, _, h', w') <- as_batch s' ;;
  Some {| shape := s';
          data := tabulate4 n c h' w' (output_at self c h w (data x)) |}.

End AvgPool2d.

(** ** [CNN_BatchNorm] *)

Module CNN_BatchNorm.
Import torch nn.

Record t : Type := mk {
  conv1 : Conv2d.t;
  bn1 : BatchNorm2d.t;
  conv2 : Conv2d.t;
  bn2 : BatchNorm2d.t;
  maxpool : MaxPool2d.t;
  avgpool : AvgPool2d.t;
  fc1 : Linear.t;
  fc2 : Linear.t
}.

Definition __init__ (num_classes : nat) : Init t :=
  conv1 <~ Conv2d.__init__ 3 32 3 1 1 true ;;
  bn1 <~ BatchNorm2d.__init__ 32 ;;
  conv2 <~ Conv2d.__init__ 32 64 3 1 1 true ;;
  bn2 <~ BatchNorm2d.__init__ 64 ;;
  let maxpool := MaxPool2d.__init__ 2 2 0 in
  let avgpool := AvgPool2d.__init__ 2 2 0 in
  fc1 <~ Linear.__init__ (64 * 4 * 4) 128 ;;
  fc2 <~ Linear.__init__ 128 num_classes ;;
  ret {| conv1 := conv1; bn1 := bn1; conv2 := conv2; bn2 := bn2;
         maxpool := maxpool; avgpool := avgpool; fc1 := fc1; fc2 := fc2 |}.

Definition forward `{Numerics} (training : bool) (self : t) (x : Tensor)
    : option Tensor :=
  x <- Conv2d.forward (conv1 self) x ;;
  x <- BatchNorm2d.forward training (bn1 self) x ;;
  x <- MaxPool2d.forward (maxpool self) (relu x) ;;
  x <- Conv2d.forward (conv2 self) x ;;
  x <- BatchNorm2d.forward training (bn2 self) x ;;
  x <- AvgPool2d.forward (avgpool self) (relu x) ;;
  x <- view_rows (64 * 4 * 4) x ;;
  x <- Linear.forward (fc1 self) x ;;
  let x := relu x in
  x <- Linear.forward (fc2 self) x ;;
  Some x.

End CNN_BatchNorm.

(** ** [load_resnet18] *)

(** [models.resnet18(weights='IMAGENET1K_V1')] comes from the model zoo: it
    is a parameter here.  The zoo's class has the attributes and the
    [forward] of the [ResNet] of the second notebook, which copies it. *)
Definition load_resnet18 (pretrained : ResNet.t BasicBlock.t) (num_classes : nat)
    : nn.Init (ResNet.t BasicBlock.t) :=
  let model := pretrained in
  fc <~ Linear.__init__ (Linear.in_features (ResNet.fc model)) num_classes ;;
  nn.ret {| ResNet.in_channels := ResNet.in_channels model;
            ResNet.conv1 := ResNet.conv1 model;
            ResNet.bn1 := ResNet.bn1 model;
            ResNet.maxpool := ResNet.maxpool model;
            ResNet.layer1 := ResNet.layer1 model;
            ResNet.layer2 := ResNet.layer2 model;
            ResNet.layer3 := ResNet.layer3 model;
            ResNet.layer4 := ResNet.layer4 model;
            ResNet.avgpool := ResNet.avgpool model;
            ResNet.fc := fc |}.

(** ** The cell that chooses the model *)

Module Choice.
Import torch nn.

Inductive Net : Type :=
| Simple (m : SimpleCNN.t)
| SimpleWithPrints (m : SimpleCNN_prints.t)
| Improved (m : CNN_BatchNorm.t)
| Pretrained (m : ResNet.t BasicBlock.t).

(** A call [C(keyword=value)] of a class whose constructor has the single
    parameter [param]: the interpreter raises [TypeError] on a keyword that
    is not the name of a parameter. *)
Definition call_with_keyword {A : Type} (param : string) (init : nat -> A)
    (keyword : string) (value : nat) : option A :=
  if String.eqb keyword param then Some (init value) else None.

(** The two classes that the first notebook binds to the name [SimpleCNN],
    one after the other; the parameter of the second is spelt
    [num_classses]. *)
Definition SimpleCNN_first : string -> nat -> option (Init Net) :=
  call_with_keyword "num_classes"%string
    (fun n => m <~ SimpleCNN.__init__ n ;; ret (Simple m)).

Definition SimpleCNN_redefined : string -> nat -> option (Init Net) :=
  call_with_keyword "num_classses"%string
    (fun n => m <~ SimpleCNN_prints.__init__ n ;; ret (SimpleWithPrints m)).

Definition CNN_BatchNorm_class : string -> nat -> option (Init Net) :=
  call_with_keyword "num_classes"%string
    (fun n => m <~ CNN_BatchNorm.__init__ n ;; ret (Improved m)).

Definition load_resnet18_function (pretrained : ResNet.t BasicBlock.t)
    : string -> nat -> option (Init Net) :=
  call_with_keyword "num_classes"%string
    (fun n => m <~ load_resnet18 pretrained n ;; ret (Pretrained m)).

(** The [if model_type == ...] chain of the first notebook; [SimpleCNN] is
    the class the name is bound to when the cell runs.  An unknown
    [model_type] raises [ValueError].  This is the construction of the
    model only: the cell goes on to move it to the device and to print its
    summary. *)
Definition choose (SimpleCNN : string -> nat -> option (Init Net))
    (pretrained : ResNet.t BasicBlock.t) (model_type : string) (num_classes : nat)
    : option (Init Net) :=
  if String.eqb model_type "simple"%string then
    SimpleCNN "num_classes"%string num_classes
  else if String.eqb model_type "improved_cnn"%string then
    CNN_BatchNorm_class "num_classes"%string num_classes
  else if String.eqb model_type "resnet"%string then
    load_resnet18_function pretrained "num_classes"%string num_classes
  else None.

(** The chain of [02_CIFAR.ipynb]: everything but ["custom"%string] loads the
    pretrained network. *)
Definition choose_02 (SimpleCNN : string -> nat -> option (Init Net))
    (pretrained : ResNet.t BasicBlock.t) (model_type : string) (num_classes : nat)
    : option (Init Net) :=
  if String.eqb model_type "custom"%string then
    SimpleCNN "num_classes"%string num_classes
  else
    load_resnet18_function pretrained "num_classes"%string num_classes.

End Choice.

(** ** Pictures: [normalize_image], [plot_images] *)

Module Visualize.
Import Scalar torch.

Definition lesser (a b : Q) : Q := if Qle_bool a b then a else b.
Definition greater (a b : Q) : Q := if Qle_bool a b then b else a.

(** [image.min()] and [image.max()] raise on a tensor without elements. *)
Definition tensor_min (t : Tensor) : option Q :=
  match data t with
  | [] => None
  | x :: l => Some (fold_left lesser l x)
  end.

Definition tensor_max (t : Tensor) : option Q :=
  match data t with
  | [] => None
  | x :: l => Some (fold_left greater l x)
  end.

(** [clamp_(min=lo, max=hi)] on one element: [min(max(x, lo), hi)]. *)
Definition clamp (lo hi x : Q) : Q := lesser (greater x lo) hi.

(** [def normalize_image(image)].  The three methods write into [image];
    the result is the content of [image] after the call, which is also what
    the function returns. *)
Definition normalize_image (image : Tensor) : option Tensor :=
  image_min <- tensor_min image ;;
  image_max <- tensor_max image ;;
  let image := {| shape := shape image;
                  data := map (clamp image_min image_max) (data image) |} in
  let image := {| shape := shape image;
                  data := map (fun x => x + - image_min)%Q (data image) |} in
  let image := {| shape := shape image;
                  data := map (fun x => x / (image_max - image_min + (1 # 100000)))%Q
                              (data image) |} in
  Some image.










End Visualize.

(** ** The input pipeline of the validation data *)

Module Transforms.
Import Scalar torch.






End Transforms.

(** ** [show_sample_predictions] *)

Module Predictions.
Import Scalar torch Runner Visualize.


Section WithCollaborators.
Context `{Collaborators}.



End WithCollaborators.

End Predictions.

(** ** The training and evaluation cells of the second notebook *)

Module ResNetScript.
Import Scalar torch Runner.


(** [f'Epoch [{epoch + 1}/{num_epochs}], Loss: {running_loss /
    len(trainloader):.4f}'] *)
Definition loss_line (epoch num_epochs : nat) (mean_loss : Q) : string :=
  ("Epoch [" ++ Fmt.str (epoch + 1) ++ "/" ++ Fmt.str num_epochs
   ++ "], Loss: " ++ Fmt.format_4f mean_loss)%string.






Section WithCollaborators.
Context `{Collaborators}.

(** The variables of the training cell. *)
Record Loop : Type := mkLoop {
  l_model : Model;
  l_optimizer : OptState;
  l_running_loss : Q;
  l_calls : list Call
}.

(** The body of [for inputs, labels in trainloader]. *)
Definition train_step (s : Loop) (batch : Batch) : option Loop :=
  let '(inputs, labels) := batch in
  let model := zero_grad (l_model s) in
  let before := model in
  '(outputs, model) <- call model inputs ;;
  loss <- criterion outputs labels ;;
  let loss_grad := gradient (training before) (params before) (buffers before)
                            inputs labels in
  let model := backward model loss_grad in
  let '(optimizer, model) := step (l_optimizer s) model in
  Some {| l_model := model; l_optimizer := optimizer;
          l_running_loss := (l_running_loss s + loss)%Q;
          l_calls := l_calls s ++
            [ZeroGrad; ModelCall; CriterionCall; Backward; OptimizerStep] |}.

Variable trainloader : nat -> list Batch.

(** The state of the script between epochs. *)
Record Script : Type := mkScript {
  s_model : Model;
  s_optimizer : OptState;
  s_events : list Event
}.

(** The body of [for epoch in range(num_epochs)]; the division by
    [len(trainloader)] raises [ZeroDivisionError] on a loader without
    batches. *)
Definition train_epoch (num_epochs : nat) (w : Script) (epoch : nat)
    : option Script :=
  let model := train (s_model w) in
  let running_loss := 0%Q in
  s <- for_each train_step (trainloader epoch)
         {| l_model := model; l_optimizer := s_optimizer w;
            l_running_loss := running_loss; l_calls := [ModelTrain] |} ;;
  if length (trainloader epoch) =? 0 then None
  else
    let mean_loss :=
      (l_running_loss s / inject_Z (Z.of_nat (length (trainloader epoch))))%Q in
    Some {| s_model := l_model s; s_optimizer := l_optimizer s;
            s_events := s_events w ++
              [TrainPass epoch (l_calls s);
               Print (loss_line epoch num_epochs mean_loss)] |}.

Definition train_cell (num_epochs : nat) (model : Model) (optimizer : OptState)
    : option Script :=
  fold_left (fun acc epoch => w <- acc ;; train_epoch num_epochs w epoch)
            (seq 0 num_epochs)
            (Some {| s_model := model; s_optimizer := optimizer; s_events := [] |}).




End WithCollaborators.

End ResNetScript.

(* ================================================================== *)
(** * Properties *)
(* ================================================================== *)

Module ScalarFacts.
Import Scalar.

Lemma Qgtb_true_iff (a b : Q) : Qgtb a b = true <-> (b < a)%Q.
Proof.
  unfold Qgtb. rewrite negb_true_iff.
  split; intro Hab.
  - apply Qnot_le_lt. intro Hle. apply Qle_bool_iff in Hle. congruence.
  - destruct (Qle_bool a b) eqn:E; [|reflexivity].
    apply Qle_bool_iff in E. exfalso. apply (Qlt_not_le _ _ Hab E).
Qed.

Lemma Qgtb_false_iff (a b : Q) : Qgtb a b = false <-> (a <= b)%Q.
Proof.
  unfold Qgtb. rewrite negb_false_iff. apply Qle_bool_iff.
Qed.

Lemma Qgtb_compat (a a' b b' : Q) :
  (a == a')%Q -> (b == b')%Q -> Qgtb a b = Qgtb a' b'.
Proof.
  intros Ha Hb.
  destruct (Qgtb a b) eqn:E1, (Qgtb a' b') eqn:E2; try reflexivity.
  - apply Qgtb_true_iff in E1. apply Qgtb_false_iff in E2.
    rewrite Ha, Hb in E1. exfalso. apply (Qlt_not_le _ _ E1 E2).
  - apply Qgtb_false_iff in E1. apply Qgtb_true_iff in E2.
    rewrite Ha, Hb in E1. exfalso. apply (Qlt_not_le _ _ E2 E1).
Qed.

End ScalarFacts.

(** ** The running average *)

Module AverageMeterFacts.
Import Scalar AverageMeter.









End AverageMeterFacts.

(** ** The best-checkpoint rule, as a function of the validation accuracies *)

Module Checkpoint.
Import Scalar ScalarFacts.

(** The decisions of the [if val_acc > best_val_acc] of the script over the
    validation accuracies [vt] of the epochs [epoch, epoch + 1, ...],
    starting from [best]: the epochs that save, and the final best. *)
Fixpoint decisions (best : Q) (epoch : nat) (vt : list Q) : list nat * Q :=
  match vt with
  | [] => ([], best)
  | v :: vt' =>
      if Qgtb v best
      then let (saved, b) := decisions v (S epoch) vt' in (epoch :: saved, b)
      else decisions best (S epoch) vt'
  end.

Lemma decisions_cons_gt (best v : Q) (epoch : nat) (vt : list Q) :
  Qgtb v best = true ->
  decisions best epoch (v :: vt)
  = (epoch :: fst (decisions v (S epoch) vt), snd (decisions v (S epoch) vt)).
Proof.
  intro E. simpl. rewrite E. destruct (decisions v (S epoch) vt). reflexivity.
Qed.

Lemma decisions_cons_le (best v : Q) (epoch : nat) (vt : list Q) :
  Qgtb v best = false ->
  decisions best epoch (v :: vt) = decisions best (S epoch) vt.
Proof. intro E. simpl. rewrite E. reflexivity. Qed.

(** An epoch saves exactly when its accuracy exceeds the starting best and
    the accuracy of every epoch before it. *)
Lemma saved_iff (vt : list Q) :
  forall (best : Q) (a e : nat),
    In e (fst (decisions best a vt)) <->
    a <= e < a + length vt
    /\ (best < nth (e - a) vt 0)%Q
    /\ (forall e', a <= e' < e -> (nth (e' - a) vt 0 < nth (e - a) vt 0)%Q).
Proof.
  induction vt as [|v vt IH]; intros best a e.
  - simpl. split; [tauto|]. intros [Hr _]. lia.
  - destruct (Qgtb v best) eqn:E.
    + rewrite (decisions_cons_gt _ _ _ _ E). simpl fst.
      apply Qgtb_true_iff in E.
      split.
      * intros [<-|Hin].
        -- split; [simpl; lia|]. rewrite Nat.sub_diag. simpl. split; [exact E|].
           intros e' He'. lia.
        -- apply IH in Hin. destruct Hin as (Hr & Hv & Hall).
           split; [simpl; lia|].
           replace (e - a) with (S (e - S a)) by lia. simpl.
           split; [eapply Qlt_trans; eassumption|].
           intros e' He'.
           destruct (Nat.eq_dec e' a) as [->|Hne].
           ++ rewrite Nat.sub_diag. exact Hv.
           ++ replace (e' - a) with (S (e' - S a)) by lia.
              apply Hall. lia.
      * intros (Hr & Hv & Hall).
        destruct (Nat.eq_dec e a) as [->|Hne]; [left; reflexivity|].
        right. apply IH. simpl in Hr.
        split; [lia|].
        replace (e - a) with (S (e - S a)) in * by lia. simpl in Hv.
        split.
        -- specialize (Hall a ltac:(lia)). rewrite Nat.sub_diag in Hall.
           exact Hall.
        -- intros e' He'. specialize (Hall e' ltac:(lia)).
           replace (e' - a) with (S (e' - S a)) in Hall by lia.
           exact Hall.
    + rewrite (decisions_cons_le _ _ _ _ E).
      apply Qgtb_false_iff in E.
      rewrite IH. split.
      * intros (Hr & Hv & Hall).
        split; [simpl; lia|].
        replace (e - a) with (S (e - S a)) by lia. simpl.
        split; [exact Hv|].
        intros e' He'.
        destruct (Nat.eq_dec e' a) as [->|Hne].
        -- rewrite Nat.sub_diag. eapply Qle_lt_trans; eassumption.
        -- replace (e' - a) with (S (e' - S a)) by lia. apply Hall. lia.
      * intros (Hr & Hv & Hall). simpl in Hr.
        destruct (Nat.eq_dec e a) as [->|Hne].
        -- rewrite Nat.sub_diag in Hv. simpl in Hv.
           exfalso. apply (Qlt_not_le _ _ Hv E).
        -- split; [lia|].
           replace (e - a) with (S (e - S a)) in * by lia. simpl in Hv.
           split; [exact Hv|].
           intros e' He'. specialize (Hall e' ltac:(lia)).
           replace (e' - a) with (S (e' - S a)) in Hall by lia.
           exact Hall.
Qed.

(** Nothing is saved, and the best stays, when no accuracy exceeds it. *)
Lemma decisions_none (vt : list Q) :
  forall (best : Q) (a : nat),
    (forall v, In v vt -> (v <= best)%Q) -> decisions best a vt = ([], best).
Proof.
  induction vt as [|v vt IH]; intros best a Hall; [reflexivity|].
  rewrite decisions_cons_le.
  - apply IH. intros v' Hv'. apply Hall. right. exact Hv'.
  - apply Qgtb_false_iff. apply Hall. left. reflexivity.
Qed.

(** The decisions only depend on the values of the accuracies. *)
Lemma decisions_compat (vt vt' : list Q) :
  Forall2 Qeq vt vt' ->
  forall (best best' : Q) (a : nat),
    (best == best')%Q ->
    fst (decisions best a vt) = fst (decisions best' a vt')
    /\ (snd (decisions best a vt) == snd (decisions best' a vt'))%Q.
Proof.
  induction 1 as [|v v' vt vt' Hv _ IH]; intros best best' a Hb.
  - simpl. split; [reflexivity|exact Hb].
  - destruct (Qgtb v best) eqn:E.
    + assert (E' : Qgtb v' best' = true)
        by (rewrite <- (Qgtb_compat _ _ _ _ Hv Hb); exact E).
      rewrite (decisions_cons_gt _ _ _ _ E), (decisions_cons_gt _ _ _ _ E').
      simpl. destruct (IH v v' (S a) Hv) as [-> Hs]. split; [reflexivity|exact Hs].
    + assert (E' : Qgtb v' best' = false)
        by (rewrite <- (Qgtb_compat _ _ _ _ Hv Hb); exact E).
      rewrite (decisions_cons_le _ _ _ _ E), (decisions_cons_le _ _ _ _ E').
      apply IH. exact Hb.
Qed.

(** Decisions over a run of epochs followed by one more epoch. *)
Lemma decisions_snoc (vt : list Q) (v : Q) :
  forall (best : Q) (a : nat),
    decisions best a (vt ++ [v])
    = (fst (decisions best a vt)
         ++ (if Qgtb v (snd (decisions best a vt)) then [a + length vt] else []),
       if Qgtb v (snd (decisions best a vt)) then v
       else snd (decisions best a vt)).
Proof.
  induction vt as [|u vt IH]; intros best a.
  - simpl. rewrite Nat.add_0_r. destruct (Qgtb v best); reflexivity.
  - destruct (Qgtb u best) eqn:E.
    + rewrite <- app_comm_cons.
      rewrite (decisions_cons_gt _ _ _ _ E), (decisions_cons_gt _ _ _ _ E).
      rewrite IH. simpl. rewrite ?Nat.add_succ_r. reflexivity.
    + rewrite <- app_comm_cons.
      rewrite (decisions_cons_le _ _ _ _ E), (decisions_cons_le _ _ _ _ E).
      rewrite IH. simpl. rewrite ?Nat.add_succ_r. reflexivity.
Qed.

End Checkpoint.

(** ** Loops that may raise *)

Module LoopFacts.

Section Fold.
Context {S X : Type} (body : S -> X -> option S).

Let stepf := fun (acc : option S) (x : X) => s' <- acc ;; body s' x.

Lemma fold_None (l : list X) : fold_left stepf l None = None.
Proof. induction l as [|x l IH]; [reflexivity|exact IH]. Qed.

(** A loop that returns ran its first iteration, and the rest from there. *)
Lemma fold_cons_Some (x : X) (l : list X) (s s' : S) :
  fold_left stepf (x :: l) (Some s) = Some s' ->
  exists s1, body s x = Some s1 /\ fold_left stepf l (Some s1) = Some s'.
Proof.
  simpl. destruct (body s x) as [s1|] eqn:E.
  - intro Hf. exists s1. split; [reflexivity|exact Hf].
  - rewrite fold_None. discriminate.
Qed.

(** A loop whose body never raises on the elements it visits returns. *)
Lemma fold_total (l : list X) :
  (forall s x, In x l -> body s x <> None) ->
  forall s, exists s', fold_left stepf l (Some s) = Some s'.
Proof.
  induction l as [|x l IH]; intros Hbody s.
  - exists s. reflexivity.
  - simpl. destruct (body s x) as [s1|] eqn:E.
    + apply IH. intros s2 y Hy. apply Hbody. right. exact Hy.
    + exfalso. apply (Hbody s x); [left; reflexivity|exact E].
Qed.

(** A property that holds at the start and that every iteration preserves
    holds when the loop returns. *)
Lemma fold_invariant (P : S -> Prop) (l : list X) :
  (forall s x s', In x l -> P s -> body s x = Some s' -> P s') ->
  forall s s', P s -> fold_left stepf l (Some s) = Some s' -> P s'.
Proof.
  induction l as [|x l IH]; intros Hstep s s' Hs Hf.
  - simpl in Hf. injection Hf as <-. exact Hs.
  - apply fold_cons_Some in Hf. destruct Hf as (s1 & E & Hf).
    apply (IH (fun s2 y s3 Hy => Hstep s2 y s3 (or_intror Hy)) s1 s');
      [|exact Hf].
    apply (Hstep s x s1); [left; reflexivity|exact Hs|exact E].
Qed.

End Fold.

End LoopFacts.

(** ** A small set of collaborators to run the epoch functions on *)

(** The model has one parameter, the number of optimizer steps taken so far.
    In training mode it returns its input as the class scores.  In inference
    mode it scores two classes for every row of the batch and prefers class 0
    on the first [k] rows, where [k] is read from a schedule at the position
    given by the parameter.  Every gradient is 1 and the optimizer adds the
    stored gradient to the parameter.  The metric counts correct predictions
    and predictions, as the micro-averaged multiclass accuracy does. *)
Module Toy.
Import torch.

Definition scores (k n : nat) : list Q :=
  flat_map (fun i => if i <? k then [1%Q; 0%Q] else [0%Q; 1%Q]) (seq 0 n).

Definition agreements (preds target : list Z) : nat :=
  length (filter (fun pt => Z.eqb (fst pt) (snd pt)) (combine preds target)).

#[export] Instance collaborators (schedule : list nat) : Collaborators := {
  Params := nat;
  Buffers := unit;
  Grads := nat;
  OptState := nat;
  MetricState := nat * nat;
  forward_training := fun _ b X => Some (X, b);
  forward_inference := fun p _ X =>
    n <- size0 X ;;
    Some {| shape := [n; 2]; data := scores (nth (p - 1) schedule 0) n |};
  criterion := fun outputs _ => Some (1 # 2)%Q;
  gradient := fun _ _ _ _ _ => 1;
  grad_add := Nat.add;
  optimizer_step := fun o p g =>
    (S o, p + match g with Some g => g | None => 0 end);
  metric_reset := fun _ => (0, 0);
  metric_update := fun m preds target =>
    if length (ldata preds) =? length (ldata target)
    then Some (fst m + agreements (ldata preds) (ldata target),
               snd m + length (ldata target))
    else None;
  metric_compute := fun m =>
    if snd m =? 0 then 0%Q
    else (inject_Z (Z.of_nat (fst m)) / inject_Z (Z.of_nat (snd m)))%Q
}.

(** A fresh model and optimizer. *)
Definition model (schedule : list nat) : @Runner.Model (collaborators schedule) :=
  @Runner.mkModel (collaborators schedule) 0 tt None true.

(** One training batch of two rows per epoch, one validation batch of twenty
    rows whose labels are all class 0. *)
Definition train_batch_ : Tensor * LongTensor :=
  ({| shape := [2; 2]; data := [1; 0; 0; 1]%Q |},
   {| lshape := [2]; ldata := [0; 1]%Z |}).

Definition train_loader (epoch : nat) : list (Tensor * LongTensor) := [train_batch_].

Definition val_loader : list (Tensor * LongTensor) :=
  [({| shape := [20; 2]; data := repeat 0%Q 40 |},
    {| lshape := [20]; ldata := repeat 0%Z 20 |})].

End Toy.

(** ** The epoch functions *)

Module RunnerFacts.
Import Scalar torch Runner LoopFacts.

(** The calls one batch of a training pass makes. *)
Definition train_batch_calls (feed : Q * Z) : list Call :=
  [ModelCall; CriterionCall; ZeroGrad; Backward; OptimizerStep;
   MeterUpdate (fst feed) (snd feed); Argmax; MetricUpdate; SetPostfix].

(** The calls one batch of a validation pass makes. *)
Definition validate_batch_calls (feed : Q * Z) : list Call :=
  [ModelCall; CriterionCall; MeterUpdate (fst feed) (snd feed); Argmax;
   MetricUpdate; SetPostfix].

(** A call that computes gradients, changes them or changes parameters. *)
Definition touches_parameters (c : Call) : bool :=
  match c with
  | ZeroGrad | Backward | OptimizerStep | ModelTrain => true
  | _ => false
  end.

Section WithCollaborators.
Context `{Collaborators}.

Lemma for_each_cons {S : Type} (body : S -> Batch -> option S)
    (b : Batch) (l : list Batch) (s s' : S) :
  for_each body (b :: l) s = Some s' ->
  exists s1, body s b = Some s1 /\ for_each body l s1 = Some s'.
Proof. unfold for_each. apply fold_cons_Some. Qed.

Lemma for_each_total {S : Type} (body : S -> Batch -> option S) (l : list Batch) :
  (forall s b, In b l -> body s b <> None) ->
  forall s, exists s', for_each body l s = Some s'.
Proof. unfold for_each. apply fold_total. Qed.

Lemma for_each_invariant {S : Type} (body : S -> Batch -> option S)
    (P : S -> Prop) (l : list Batch) :
  (forall s b s', In b l -> P s -> body s b = Some s' -> P s') ->
  forall s s', P s -> for_each body l s = Some s' -> P s'.
Proof. unfold for_each. apply fold_invariant. Qed.

(** One iteration of the training loop, step by step. *)
Definition train_batch_steps (s : TrainState) (batch : Batch) (s' : TrainState)
    : Prop :=
  exists outputs m1 loss n preds metric',
    call (t_model s) (fst batch) = Some (outputs, m1)
    /\ criterion outputs (snd batch) = Some loss
    /\ (t_optimizer s', t_model s')
       = step (t_optimizer s)
           (backward (zero_grad m1)
              (gradient (training (t_model s)) (params (t_model s))
                        (buffers (t_model s)) (fst batch) (snd batch)))
    /\ size0 (fst batch) = Some n
    /\ t_meter s' = AverageMeter.update (t_meter s) loss (Z.of_nat n)
    /\ argmax1 outputs = Some preds
    /\ metric_update (t_metric s) preds (snd batch) = Some metric'
    /\ t_metric s' = metric'
    /\ t_calls s' = t_calls s ++ train_batch_calls (loss, Z.of_nat n).

Lemma train_batch_spec (s : TrainState) (batch : Batch) (s' : TrainState) :
  train_batch s batch = Some s' -> train_batch_steps s batch s'.
Proof.
  destruct batch as [X y]. unfold train_batch, train_batch_steps. simpl.
  destruct (call (t_model s) X) as [[outputs m1]|] eqn:Ecall; [|discriminate].
  destruct (criterion outputs y) as [loss|] eqn:Ecrit; [|discriminate].
  destruct (step (t_optimizer s) _) as [o m2] eqn:Estep.
  destruct (size0 X) as [n|] eqn:En; [|discriminate].
  destruct (argmax1 outputs) as [preds|] eqn:Earg; [|discriminate].
  destruct (metric_update (t_metric s) preds y) as [metric'|] eqn:Emet;
    [|discriminate].
  intro E. injection E as <-. simpl.
  exists outputs, m1, loss, n, preds, metric'.
  repeat split; auto.
Qed.

(** What a training pass has accumulated after any number of batches: the
    calls are the opening calls followed by one block per batch, and the
    meter holds the updates of those blocks. *)
Definition train_progress (opening : list Call) (s : TrainState) : Prop :=
  exists feeds : list (Q * Z),
    t_calls s = opening ++ flat_map train_batch_calls feeds
    /\ t_meter s = AverageMeter.updates AverageMeter.__init__ feeds.

Lemma updates_snoc (m : AverageMeter.t) (feeds : list (Q * Z)) (f : Q * Z) :
  AverageMeter.updates m (feeds ++ [f])
  = AverageMeter.update (AverageMeter.updates m feeds) (fst f) (snd f).
Proof. unfold AverageMeter.updates. rewrite fold_left_app. reflexivity. Qed.

Lemma train_progress_step (opening : list Call) (s s' : TrainState) (b : Batch) :
  train_progress opening s -> train_batch s b = Some s' ->
  train_progress opening s'.
Proof.
  intros (feeds & Hc & Hm) Hb.
  apply train_batch_spec in Hb.
  destruct Hb as (outputs & m1 & loss & n & preds & metric' & _ & _ & _ & _
                  & Hmeter & _ & _ & _ & Hcalls).
  exists (feeds ++ [(loss, Z.of_nat n)]). split.
  - rewrite Hcalls, Hc, flat_map_app, <- app_assoc. simpl.
    rewrite ?app_nil_r. reflexivity.
  - rewrite Hmeter, Hm, updates_snoc. reflexivity.
Qed.

Lemma length_feeds_train (feeds : list (Q * Z)) :
  length (flat_map train_batch_calls feeds) = 9 * length feeds.
Proof.
  induction feeds as [|f feeds IH]; [reflexivity|].
  simpl. rewrite IH. lia.
Qed.

(** The number of calls grows by nine with every batch. *)
Lemma train_calls_length (l : list Batch) :
  forall s s', for_each train_batch l s = Some s' ->
               length (t_calls s') = length (t_calls s) + 9 * length l.
Proof.
  induction l as [|b l IH]; intros s s' Hf.
  - unfold for_each in Hf. simpl in Hf. injection Hf as <-. simpl. lia.
  - apply for_each_cons in Hf. destruct Hf as (s1 & Hb & Hf).
    apply IH in Hf. rewrite Hf.
    apply train_batch_spec in Hb.
    destruct Hb as (? & ? & ? & ? & ? & ? & _ & _ & _ & _ & _ & _ & _ & _ & Hc).
    rewrite Hc, length_app. simpl. lia.
Qed.

(** A training pass returns whenever none of its batches raises. *)
Lemma train_one_epoch_returns (model : Model) (dataloader : list Batch)
    (optimizer : OptState) (epoch : nat) (accuracy_metric : MetricState) :
  (forall s batch, In batch dataloader -> train_batch s batch <> None) ->
  exists r s,
    train_one_epoch model dataloader optimizer epoch accuracy_metric = Some (r, s).
Proof.
  intro Hok. unfold train_one_epoch.
  match goal with
  | |- context [for_each train_batch dataloader ?st] => set (start := st)
  end.
  destruct (for_each_total train_batch dataloader Hok start) as [s1 Hs1].
  rewrite Hs1. eexists _, _. reflexivity.
Qed.

(** C2, as amended.  For every batch of the stream, in this order: the
    model is called, the loss is computed, the stored gradients are reset,
    the gradients of the loss are propagated, and the optimizer updates the
    parameters from them; then the loss value and the batch size are fed to
    the loss meter, the predictions are the arg-max over the class dimension
    and update the accuracy metric together with the labels.  The pass
    returns the meter's average and the metric's value, and it returns
    whenever no batch raises. *)
Theorem train_one_epoch_steps (model : Model) (dataloader : list Batch)
    (optimizer : OptState) (epoch : nat) (accuracy_metric : MetricState) :
  let opening := [ModelTrain; MetricReset;
                  Tqdm ("Epoch " ++ Fmt.str (epoch + 1) ++ " [Training]")] in
  let start := {| t_model := train model; t_optimizer := optimizer;
                  t_metric := metric_reset accuracy_metric;
                  t_meter := AverageMeter.__init__; t_calls := opening |} in
  (forall s batch s', train_batch s batch = Some s' -> train_batch_steps s batch s')
  /\ (forall r s,
        train_one_epoch model dataloader optimizer epoch accuracy_metric
        = Some (r, s) ->
        for_each train_batch dataloader start = Some s
        /\ r = (AverageMeter.avg (t_meter s), metric_compute (t_metric s))
        /\ exists feeds : list (Q * Z),
             length feeds = length dataloader
             /\ t_calls s = opening ++ flat_map train_batch_calls feeds
             /\ t_meter s = AverageMeter.updates AverageMeter.__init__ feeds)
  /\ ((forall s batch, In batch dataloader -> train_batch s batch <> None) ->
      exists r s,
        train_one_epoch model dataloader optimizer epoch accuracy_metric
        = Some (r, s)).
Proof.
  intros opening start. split; [|split].
  - exact train_batch_spec.
  - intros r s Hrun. unfold train_one_epoch in Hrun. fold opening start in Hrun.
    destruct (for_each train_batch dataloader start) as [s1|] eqn:Hloop;
      [|discriminate].
    injection Hrun as <- <-.
    split; [reflexivity|]. split; [reflexivity|].
    assert (Hp : train_progress opening s1).
    { apply (for_each_invariant train_batch (train_progress opening) dataloader)
        with (s := start).
      - intros s x s' _ Hs Hb. exact (train_progress_step _ _ _ _ Hs Hb).
      - exists []. split; [simpl; rewrite ?app_nil_r; reflexivity|reflexivity].
      - exact Hloop. }
    destruct Hp as (feeds & Hc & Hm).
    exists feeds. split; [|split; assumption].
    pose proof (train_calls_length _ _ _ Hloop) as Hlen.
    rewrite Hc, length_app, length_feeds_train in Hlen. simpl in Hlen. lia.
  - apply train_one_epoch_returns.
Qed.

(** *** Validation *)

Lemma call_inference (m : Model) (X : Tensor) (outputs : Tensor) (m' : Model) :
  training m = false -> call m X = Some (outputs, m') ->
  m' = m /\ forward_inference (params m) (buffers m) X = Some outputs.
Proof.
  intros Hmode. unfold call. rewrite Hmode.
  destruct (forward_inference (params m) (buffers m) X) as [o|]; [|discriminate].
  intro E. injection E as <- <-. split; reflexivity.
Qed.

(** One iteration of the validation loop, for a model in inference mode. *)
Definition validate_batch_steps (s : EvalState) (batch : Batch) (s' : EvalState)
    : Prop :=
  exists outputs loss n preds,
    forward_inference (params (e_model s)) (buffers (e_model s)) (fst batch)
    = Some outputs
    /\ criterion outputs (snd batch) = Some loss
    /\ size0 (fst batch) = Some n
    /\ argmax1 outputs = Some preds
    /\ metric_update (e_metric s) preds (snd batch) = Some (e_metric s')
    /\ e_meter s' = AverageMeter.update (e_meter s) loss (Z.of_nat n)
    /\ e_model s' = e_model s
    /\ e_calls s' = e_calls s ++ validate_batch_calls (loss, Z.of_nat n).

Lemma validate_batch_spec (s : EvalState) (batch : Batch) (s' : EvalState) :
  training (e_model s) = false ->
  validate_batch s batch = Some s' -> validate_batch_steps s batch s'.
Proof.
  intro Hmode. destruct batch as [X y]. unfold validate_batch, validate_batch_steps.
  simpl.
  destruct (call (e_model s) X) as [[outputs m1]|] eqn:Ecall; [|discriminate].
  destruct (call_inference _ _ _ _ Hmode Ecall) as [-> Hfwd].
  destruct (criterion outputs y) as [loss|] eqn:Ecrit; [|discriminate].
  destruct (size0 X) as [n|] eqn:En; [|discriminate].
  destruct (argmax1 outputs) as [preds|] eqn:Earg; [|discriminate].
  destruct (metric_update (e_metric s) preds y) as [metric'|] eqn:Emet;
    [|discriminate].
  intro E. injection E as <-. simpl.
  exists outputs, loss, n, preds. repeat split; auto.
Qed.

(** Two states of a validation pass that agree on everything but the record
    of calls. *)
Definition same_objects (s1 s2 : EvalState) : Prop :=
  e_model s1 = e_model s2 /\ e_metric s1 = e_metric s2 /\ e_meter s1 = e_meter s2.

Lemma validate_batch_same_objects (s1 s2 s1' : EvalState) (b : Batch) :
  same_objects s1 s2 -> validate_batch s1 b = Some s1' ->
  exists s2', validate_batch s2 b = Some s2' /\ same_objects s1' s2'.
Proof.
  intros (Hm & Hmet & Hmeter). destruct b as [X y]. unfold validate_batch.
  rewrite <- Hm, <- Hmet, <- Hmeter.
  destruct (call (e_model s1) X) as [[outputs m1]|]; [|discriminate].
  destruct (criterion outputs y) as [loss|]; [|discriminate].
  destruct (size0 X) as [n|]; [|discriminate].
  destruct (argmax1 outputs) as [preds|]; [|discriminate].
  destruct (metric_update (e_metric s1) preds y) as [metric'|]; [|discriminate].
  intro E. injection E as <-.
  eexists. split; [reflexivity|]. repeat split.
Qed.

Lemma for_each_same_objects (l : list Batch) :
  forall s1 s2 s1',
    same_objects s1 s2 -> for_each validate_batch l s1 = Some s1' ->
    exists s2', for_each validate_batch l s2 = Some s2' /\ same_objects s1' s2'.
Proof.
  induction l as [|b l IH]; intros s1 s2 s1' Hsame Hf.
  - unfold for_each in *. simpl in *. injection Hf as <-.
    exists s2. split; [reflexivity|exact Hsame].
  - apply for_each_cons in Hf. destruct Hf as (s1m & Hb & Hf).
    destruct (validate_batch_same_objects _ _ _ _ Hsame Hb) as (s2m & Hb2 & Hsame').
    destruct (IH _ _ _ Hsame' Hf) as (s2' & Hf2 & Hsame'').
    exists s2'. split; [|exact Hsame''].
    unfold for_each in *. simpl. rewrite Hb2. exact Hf2.
Qed.

(** What a validation pass keeps true from batch to batch: the model is the
    one it started with, no call so far touches gradients or parameters, and
    resetting the metric gives what resetting it at the start gave. *)
Definition validate_invariant (m0 : Model) (reset0 : MetricState) (s : EvalState)
    : Prop :=
  e_model s = m0
  /\ Forall (fun c => touches_parameters c = false) (e_calls s)
  /\ metric_reset (e_metric s) = reset0.

Lemma validate_invariant_step (m0 : Model) (reset0 : MetricState)
    (s s' : EvalState) (b : Batch) :
  training m0 = false ->
  (forall m p y m', metric_update m p y = Some m' -> metric_reset m' = metric_reset m) ->
  validate_invariant m0 reset0 s -> validate_batch s b = Some s' ->
  validate_invariant m0 reset0 s'.
Proof.
  intros Hmode Hlaw (Hm & Hc & Hr) Hb.
  apply validate_batch_spec in Hb; [|rewrite Hm; exact Hmode].
  destruct Hb as (outputs & loss & n & preds & _ & _ & _ & _ & Hmet & _
                  & Hmodel & Hcalls).
  split; [congruence|]. split.
  - rewrite Hcalls. apply Forall_app. split; [exact Hc|].
    repeat constructor.
  - rewrite (Hlaw _ _ _ _ Hmet). exact Hr.
Qed.

(** The frame part needs no law of the metric. *)
Lemma validate_frame_step (m0 : Model) (s s' : EvalState) (b : Batch) :
  training m0 = false ->
  e_model s = m0 /\ Forall (fun c => touches_parameters c = false) (e_calls s) ->
  validate_batch s b = Some s' ->
  e_model s' = m0 /\ Forall (fun c => touches_parameters c = false) (e_calls s').
Proof.
  intros Hmode (Hm & Hc) Hb.
  apply validate_batch_spec in Hb; [|rewrite Hm; exact Hmode].
  destruct Hb as (outputs & loss & n & preds & _ & _ & _ & _ & _ & _
                  & Hmodel & Hcalls).
  split; [congruence|].
  rewrite Hcalls. apply Forall_app. split; [exact Hc|]. repeat constructor.
Qed.

(** A validation pass returns whenever none of its batches raises. *)
Lemma validate_returns (model : Model) (dataloader : list Batch)
    (epoch : nat) (accuracy_metric : MetricState) :
  (forall s batch, In batch dataloader -> validate_batch s batch <> None) ->
  exists r s, validate model dataloader epoch accuracy_metric = Some (r, s).
Proof.
  intro Hok. unfold validate.
  match goal with
  | |- context [for_each validate_batch dataloader ?st] => set (start := st)
  end.
  destruct (for_each_total validate_batch dataloader Hok start) as [s1 Hs1].
  rewrite Hs1. eexists _, _. reflexivity.
Qed.

(** C7.  A validation pass that returns leaves the parameters, the other
    state and the stored gradients of the model as they were; none of its
    calls computes gradients, resets them or steps the optimizer; and
    running the pass again on the model and the metric it left returns the
    same pair, for a metric whose [reset] forgets its updates.  The pass
    returns whenever no batch raises. *)
Theorem validate_is_read_only (model : Model) (dataloader : list Batch)
    (epoch : nat) (accuracy_metric : MetricState) :
  (forall r s,
     validate model dataloader epoch accuracy_metric = Some (r, s) ->
     params (e_model s) = params model
     /\ buffers (e_model s) = buffers model
     /\ grads (e_model s) = grads model
     /\ Forall (fun c => touches_parameters c = false) (e_calls s)
     /\ ((forall m, metric_reset (metric_reset m) = metric_reset m) ->
         (forall m p y m', metric_update m p y = Some m' ->
                           metric_reset m' = metric_reset m) ->
         forall epoch',
         exists s', validate (e_model s) dataloader epoch' (e_metric s) = Some (r, s')
                    /\ params (e_model s') = params model))
  /\ ((forall s batch, In batch dataloader -> validate_batch s batch <> None) ->
      exists r s, validate model dataloader epoch accuracy_metric = Some (r, s)).
Proof.
  split.
  - intros r s Hrun. unfold validate in Hrun.
    match type of Hrun with
    | context [for_each validate_batch dataloader ?st] => set (start := st) in Hrun
    end.
    destruct (for_each validate_batch dataloader start) as [s1|] eqn:Hloop;
      [|discriminate].
    injection Hrun as <- <-. simpl.
    assert (Hframe : e_model s1 = eval model
                     /\ Forall (fun c => touches_parameters c = false) (e_calls s1)).
    { apply (for_each_invariant validate_batch
               (fun s => e_model s = eval model
                         /\ Forall (fun c => touches_parameters c = false) (e_calls s))
               dataloader) with (s := start).
      - intros s0 b s0' _ Hs Hb. exact (validate_frame_step (eval model) _ _ _ eq_refl Hs Hb).
      - split; [reflexivity|]. repeat constructor.
      - exact Hloop. }
    destruct Hframe as (Hm & Hc).
    rewrite Hm. simpl. repeat split; auto.
    + apply Forall_app. split; [exact Hc|]. repeat constructor.
    + intros Hidem Hlaw epoch'.
      assert (Hinv : validate_invariant (eval model)
                       (metric_reset accuracy_metric) s1).
      { apply (for_each_invariant validate_batch
                 (validate_invariant (eval model) (metric_reset accuracy_metric))
                 dataloader) with (s := start).
        - intros s0 b s0' _ Hs Hb.
          exact (validate_invariant_step (eval model) _ _ _ _ eq_refl Hlaw Hs Hb).
        - split; [reflexivity|]. split; [repeat constructor|]. apply Hidem.
        - exact Hloop. }
      destruct Hinv as (_ & _ & Hr).
      unfold validate.
      match goal with
      | |- context [for_each validate_batch dataloader ?st] => set (start' := st)
      end.
      assert (Hsame : same_objects start start').
      { unfold same_objects, start, start'. simpl. rewrite Hr.
        repeat split. }
      destruct (for_each_same_objects _ _ _ _ Hsame Hloop) as (s2 & Hloop2 & Hs2).
      rewrite Hloop2. destruct Hs2 as (Hm2 & Hmet2 & Hmeter2).
      eexists. split.
      * simpl. rewrite <- Hmet2, <- Hmeter2. reflexivity.
      * simpl. rewrite <- Hm2, Hm. reflexivity.
  - apply validate_returns.
Qed.

(** *** The order the specification gives *)

(** The loop body with the steps in the order the specification lists them:
    predictions, loss, gradient propagation, parameter update, and only then
    the reset of the stored gradients. *)
Definition train_batch_as_specified (s : TrainState) (batch : Batch)
    : option TrainState :=
  let '(X_batch, y_batch) := batch in
  let before := t_model s in
  '(outputs, model) <- call (t_model s) X_batch ;;
  loss <- criterion outputs y_batch ;;
  let loss_grad := gradient (training before) (params before) (buffers before)
                            X_batch y_batch in
  let model := backward model loss_grad in
  let '(optimizer, model) := step (t_optimizer s) model in
  let model := zero_grad model in
  n <- size0 X_batch ;;
  let loss_meter := AverageMeter.update (t_meter s) loss (Z.of_nat n) in
  preds <- argmax1 outputs ;;
  metric <- metric_update (t_metric s) preds y_batch ;;
  Some {| t_model := model; t_optimizer := optimizer; t_metric := metric;
          t_meter := loss_meter;
          t_calls := t_calls s ++
            [ModelCall; CriterionCall; Backward; OptimizerStep; ZeroGrad;
             MeterUpdate loss (Z.of_nat n); Argmax; MetricUpdate; SetPostfix] |}.

End WithCollaborators.

(** The amended C2 on the small collaborators: one batch of two rows. *)
Lemma train_one_epoch_steps_witness :
  exists r s,
    train_one_epoch (H := Toy.collaborators []) (Toy.model [])
                    (Toy.train_loader 0) 0 0 (0, 0) = Some (r, s)
    /\ r = (AverageMeter.avg (t_meter s), metric_compute (t_metric s))
    /\ exists feeds : list (Q * Z),
         length feeds = 1
         /\ t_calls s
            = [ModelTrain; MetricReset; Tqdm "Epoch 1 [Training]"]
              ++ flat_map train_batch_calls feeds.
Proof.
  destruct (train_one_epoch_steps (H := Toy.collaborators []) (Toy.model [])
              (Toy.train_loader 0) 0 0 (0, 0)) as (_ & Hrun & _).
  eexists _, _. split; [vm_compute; reflexivity|].
  edestruct Hrun as (_ & Hr & feeds & Hlen & Hcalls & _);
    [vm_compute; reflexivity|].
  split; [exact Hr|]. exists feeds. split; [exact Hlen|exact Hcalls].
Defined.

(** C2 as stated fails on the order of the steps.  On one batch the pass
    resets the stored gradients before it propagates the loss, and after the
    optimizer's update the gradients of the batch are still stored; in the
    order the specification gives, the reset would come last and nothing
    would be stored. *)
Lemma train_one_epoch_resets_before_backward :
  exists r s s_spec,
    train_one_epoch (H := Toy.collaborators []) (Toy.model [])
                    (Toy.train_loader 0) 0 0 (0, 0) = Some (r, s)
    /\ t_calls s
       = [ModelTrain; MetricReset; Tqdm "Epoch 1 [Training]";
          ModelCall; CriterionCall; ZeroGrad; Backward; OptimizerStep;
          MeterUpdate (1 # 2) 2; Argmax; MetricUpdate; SetPostfix]
    /\ grads (t_model s) = Some 1
    /\ for_each (train_batch_as_specified (H := Toy.collaborators []))
         (Toy.train_loader 0)
         {| t_model := train (Toy.model []); t_optimizer := 0;
            t_metric := (0, 0); t_meter := AverageMeter.__init__;
            t_calls := [ModelTrain; MetricReset; Tqdm "Epoch 1 [Training]"] |}
       = Some s_spec
    /\ grads (t_model s_spec) = None
    /\ t_calls s_spec <> t_calls s.
Proof.
  eexists _, _, _. split; [vm_compute; reflexivity|].
  split; [reflexivity|]. split; [reflexivity|].
  split; [vm_compute; reflexivity|].
  split; [reflexivity|]. simpl. discriminate.
Qed.

(** C7 on the small collaborators: twenty validation rows, of which the
    model gets six right. *)
Lemma validate_is_read_only_witness :
  exists r s s',
    validate (H := Toy.collaborators [6]) (Toy.model [6]) Toy.val_loader 0 (3, 5)
    = Some (r, s)
    /\ params (e_model s) = 0
    /\ grads (e_model s) = None
    /\ validate (H := Toy.collaborators [6]) (e_model s) Toy.val_loader 1 (e_metric s)
       = Some (r, s').
Proof.
  destruct (validate_is_read_only (H := Toy.collaborators [6]) (Toy.model [6])
              Toy.val_loader 0 (3, 5)) as (Hrun & _).
  edestruct Hrun as (Hp & _ & Hg & _ & Hagain); [vm_compute; reflexivity|].
  edestruct (Hagain ltac:(reflexivity)) with (epoch' := 1) as (s' & Hs' & _).
  { intros m p y m'. simpl. intros _. reflexivity. }
  eexists _, _, s'. split; [reflexivity|].
  split; [exact Hp|]. split; [exact Hg|]. exact Hs'.
Defined.

End RunnerFacts.

(** ** The training script *)

Module DriverFacts.
Import Scalar ScalarFacts torch Driver LoopFacts Checkpoint.

(** What one epoch adds to the record of events: the two passes, training
    first, the four scalars, the summary line and, when the epoch saves, the
    checkpoint write and its line. *)
Definition epoch_events (num_epochs epoch : nat) (train_calls val_calls : list Call)
    (train_loss train_acc val_loss val_acc : Q) (saves : bool) : list Event :=
  [TrainPass epoch train_calls;
   ValPass epoch val_calls;
   AddScalar "Loss/Train" train_loss epoch;
   AddScalar "Accuracy/Train" train_acc epoch;
   AddScalar "Loss/Validation" val_loss epoch;
   AddScalar "Accuracy/Validation" val_acc epoch;
   Print (summary_line epoch num_epochs train_loss train_acc val_loss val_acc)]
  ++ (if saves
      then [TorchSave epoch "best_model.pth"; Print (best_line epoch val_acc)]
      else []).

(** The events of one epoch, knowing only its validation accuracy and
    whether it saved. *)
Definition is_epoch (num_epochs epoch : nat) (val_acc : Q) (saves : bool)
    (evs : list Event) : Prop :=
  exists train_calls val_calls train_loss train_acc val_loss,
    evs = epoch_events num_epochs epoch train_calls val_calls
                       train_loss train_acc val_loss val_acc saves.

(** The events of consecutive epochs from [epoch] on, each saving exactly
    when its validation accuracy exceeds the best so far. *)
Inductive are_epochs (num_epochs : nat)
    : nat -> Q -> list (list Event) -> Q -> Prop :=
| epochs_done (epoch : nat) (best : Q) : are_epochs num_epochs epoch best [] best
| epochs_next (epoch : nat) (best : Q) (evs : list Event) (val_acc : Q)
    (rest : list (list Event)) (best' : Q) :
    is_epoch num_epochs epoch val_acc (Qgtb val_acc best) evs ->
    are_epochs num_epochs (S epoch)
               (if Qgtb val_acc best then val_acc else best) rest best' ->
    are_epochs num_epochs epoch best (evs :: rest) best'.

Lemma val_accs_app (l1 l2 : list Event) :
  val_accs (l1 ++ l2) = val_accs l1 ++ val_accs l2.
Proof. apply flat_map_app. Qed.

Lemma saved_epochs_app (l1 l2 : list Event) :
  saved_epochs (l1 ++ l2) = saved_epochs l1 ++ saved_epochs l2.
Proof. apply flat_map_app. Qed.


Lemma is_epoch_val_accs (N e : nat) (va : Q) (b : bool) (evs : list Event) :
  is_epoch N e va b evs -> val_accs evs = [va].
Proof.
  intros (tc & vc & tl & ta & vl & ->). destruct b; reflexivity.
Qed.

Lemma is_epoch_saved (N e : nat) (va : Q) (b : bool) (evs : list Event) :
  is_epoch N e va b evs -> saved_epochs evs = if b then [e] else [].
Proof.
  intros (tc & vc & tl & ta & vl & ->). destruct b; reflexivity.
Qed.

(** The epochs that save and the final best are those of the rule applied
    to the logged validation accuracies. *)
Lemma are_epochs_decisions (N : nat) (a : nat) (best : Q)
    (per_epoch : list (list Event)) (best' : Q) :
  are_epochs N a best per_epoch best' ->
  length (val_accs (concat per_epoch)) = length per_epoch
  /\ decisions best a (val_accs (concat per_epoch))
     = (saved_epochs (concat per_epoch), best').
Proof.
  induction 1 as [a best|a best evs va rest best' Hev _ IH].
  - split; reflexivity.
  - destruct IH as (Hlen & Hdec). simpl concat.
    rewrite val_accs_app, saved_epochs_app.
    rewrite (is_epoch_val_accs _ _ _ _ _ Hev), (is_epoch_saved _ _ _ _ _ Hev).
    split; [simpl; rewrite Hlen; reflexivity|].
    simpl app at 1. destruct (Qgtb va best) eqn:E.
    + rewrite (decisions_cons_gt _ _ _ _ E), Hdec. reflexivity.
    + rewrite (decisions_cons_le _ _ _ _ E), Hdec. reflexivity.
Qed.


Section WithCollaborators.
Context `{Collaborators}.
Variable train_loader : nat -> list Runner.Batch.
Variable val_loader : list Runner.Batch.

Local Abbreviation epoch_body := (epoch_body train_loader val_loader).
Local Abbreviation epochs := (epochs train_loader val_loader).
Local Abbreviation training_loop := (training_loop train_loader val_loader).

(** One iteration of the loop of the script. *)
Lemma epoch_body_spec (N : nat) (w : World) (e : nat) (w' : World) :
  epoch_body N w e = Some w' ->
  exists va evs,
    is_epoch N e va (Qgtb va (best_val_acc w)) evs
    /\ events w' = events w ++ evs
    /\ best_val_acc w' = (if Qgtb va (best_val_acc w) then va else best_val_acc w)
    /\ (Qgtb va (best_val_acc w) = false -> best_model_pth w' = best_model_pth w).
Proof.
  unfold Driver.epoch_body.
  destruct (Runner.train_one_epoch _ _ _ _ _) as [[[tl ta] ts]|]; [|discriminate].
  destruct (Runner.validate _ _ _ _) as [[[vl va] vs]|]; [|discriminate].
  destruct (Qgtb va (best_val_acc w)) eqn:E; intro Hw; injection Hw as <-; simpl.
  - exists va, (epoch_events N e (Runner.t_calls ts) (Runner.e_calls vs)
                             tl ta vl va true).
    rewrite E. split; [eexists _, _, _, _, _; reflexivity|].
    split; [unfold epoch_events; rewrite <- app_assoc; reflexivity|].
    split; [reflexivity|discriminate].
  - exists va, (epoch_events N e (Runner.t_calls ts) (Runner.e_calls vs)
                             tl ta vl va false).
    rewrite E. split; [eexists _, _, _, _, _; reflexivity|].
    split; [unfold epoch_events; rewrite app_nil_r; reflexivity|].
    split; reflexivity.
Qed.

(** The loop from epoch [a] on, for [n] epochs. *)
Lemma epochs_from (N n : nat) :
  forall (a : nat) (w w' : World),
    fold_left (fun acc epoch => w1 <- acc ;; epoch_body N w1 epoch)
              (seq a n) (Some w) = Some w' ->
    exists per_epoch,
      length per_epoch = n
      /\ events w' = events w ++ concat per_epoch
      /\ are_epochs N a (best_val_acc w) per_epoch (best_val_acc w')
      /\ (saved_epochs (concat per_epoch) = [] ->
          best_model_pth w' = best_model_pth w).
Proof.
  induction n as [|n IH]; intros a w w' Hf.
  - simpl in Hf. injection Hf as <-. exists []. simpl.
    rewrite app_nil_r. repeat split. constructor.
  - simpl seq in Hf.
    apply (fold_cons_Some (fun w1 epoch => epoch_body N w1 epoch)) in Hf.
    destruct Hf as (w1 & Hbody & Hf).
    apply epoch_body_spec in Hbody.
    destruct Hbody as (va & evs & Hshape & Hev & Hbest & Hfile).
    apply IH in Hf. destruct Hf as (rest & Hlen & Hev' & Hrest & Hfile').
    exists (evs :: rest). simpl. split; [lia|].
    split; [rewrite Hev', Hev, <- app_assoc; reflexivity|].
    split.
    + econstructor; [exact Hshape|]. rewrite <- Hbest. exact Hrest.
    + rewrite saved_epochs_app, (is_epoch_saved _ _ _ _ _ Hshape).
      intro Hnone. apply app_eq_nil in Hnone. destruct Hnone as (Hn1 & Hn2).
      rewrite (Hfile' Hn2). apply Hfile.
      destruct (Qgtb va (best_val_acc w)); [discriminate|reflexivity].
Qed.

(** The whole cell. *)
Lemma training_loop_spec (N : nat) (model : Runner.Model) (optimizer : OptState)
    (train_accuracy val_accuracy : MetricState) (disk : option (Params * Buffers))
    (w : World) :
  training_loop N model optimizer train_accuracy val_accuracy disk = Some w ->
  exists per_epoch,
    length per_epoch = N
    /\ events w = concat per_epoch ++ [WriterClose]
    /\ are_epochs N 0 0%Q per_epoch (best_val_acc w)
    /\ (saved_epochs (concat per_epoch) = [] -> best_model_pth w = disk).
Proof.
  unfold Driver.training_loop, Driver.epochs.
  match goal with
  | |- context [fold_left _ _ (Some ?st)] => set (w0 := st)
  end.
  destruct (fold_left _ (seq 0 N) (Some w0)) as [w1|] eqn:Hloop; [|discriminate].
  intro E. injection E as <-.
  apply epochs_from in Hloop.
  destruct Hloop as (per_epoch & Hlen & Hev & Hok & Hfile).
  exists per_epoch. simpl. rewrite Hev. simpl. auto.
Qed.

(** The logged validation accuracies and the saving epochs of a finished
    run are those of its epochs; closing the writer adds none. *)
Lemma run_decisions (N : nat) (per_epoch : list (list Event)) (best' : Q)
    (evs : list Event) :
  length per_epoch = N ->
  evs = concat per_epoch ++ [WriterClose] ->
  are_epochs N 0 0%Q per_epoch best' ->
  length (val_accs evs) = N
  /\ decisions 0%Q 0 (val_accs evs) = (saved_epochs evs, best').
Proof.
  intros Hlen -> Hok.
  destruct (are_epochs_decisions _ _ _ _ _ Hok) as (Hl & Hd).
  rewrite val_accs_app, saved_epochs_app. simpl. rewrite !app_nil_r.
  split; [congruence|exact Hd].
Qed.

(** C1, as amended.  The checkpoint is written at an epoch if and only if
    the validation accuracy of that epoch strictly exceeds [0.0], the
    initial best, and the validation accuracy of every earlier epoch; a tie
    with an earlier epoch never writes.  For the validation accuracies
    [0.1, 0.05, 0.3, 0.2] the checkpoint is written exactly at epochs 0 and
    2 and the final [best_val_acc] is [0.3]. *)
Theorem checkpoint_iff_strict_improvement (N : nat) (model : Runner.Model)
    (optimizer : OptState) (train_accuracy val_accuracy : MetricState)
    (disk : option (Params * Buffers)) (w : World) :
  training_loop N model optimizer train_accuracy val_accuracy disk = Some w ->
  let vt := val_accs (events w) in
  let saved := saved_epochs (events w) in
  length vt = N
  /\ (forall e, In e saved <->
                e < N /\ (0 < nth e vt 0)%Q
                /\ forall e', e' < e -> (nth e' vt 0 < nth e vt 0)%Q)
  /\ (forall e e', e' < e -> (nth e vt 0 == nth e' vt 0)%Q -> ~ In e saved)
  /\ (Forall2 Qeq vt [1 # 10; 5 # 100; 3 # 10; 2 # 10]%Q ->
      saved = [0; 2] /\ (best_val_acc w == 3 # 10)%Q).
Proof.
  intros Hrun vt saved.
  apply training_loop_spec in Hrun.
  destruct Hrun as (per_epoch & Hlen & Hev & Hok & _).
  destruct (run_decisions _ _ _ _ Hlen Hev Hok) as (Hl & Hd).
  fold vt saved in Hl, Hd.
  assert (Hiff : forall e, In e saved <->
                   e < N /\ (0 < nth e vt 0)%Q
                   /\ forall e', e' < e -> (nth e' vt 0 < nth e vt 0)%Q).
  { intro e. pose proof (saved_iff vt 0%Q 0 e) as Hs.
    rewrite Hd in Hs. simpl fst in Hs. rewrite Nat.sub_0_r, Hl in Hs.
    rewrite Hs. split.
    - intros (Hr & Hv & Hall). split; [lia|]. split; [exact Hv|].
      intros e' He'. specialize (Hall e' ltac:(lia)).
      rewrite Nat.sub_0_r in Hall. exact Hall.
    - intros (Hr & Hv & Hall). split; [lia|]. split; [exact Hv|].
      intros e' He'. rewrite Nat.sub_0_r. apply Hall. lia. }
  split; [exact Hl|]. split; [exact Hiff|]. split.
  - intros e e' Hlt Htie Hin. apply Hiff in Hin.
    destruct Hin as (_ & _ & Hall). specialize (Hall e' Hlt).
    rewrite Htie in Hall. exact (Qlt_irrefl _ Hall).
  - intro Htrace.
    destruct (decisions_compat _ _ Htrace 0%Q 0%Q 0 (Qeq_refl _)) as (Hf & Hs).
    rewrite Hd in Hf, Hs. simpl fst in Hf. simpl snd in Hs.
    split; [rewrite Hf; reflexivity|]. rewrite Hs. vm_compute. reflexivity.
Qed.

(** C9.  [best_val_acc] starts at [0.0]: an epoch that writes the
    checkpoint has a validation accuracy above zero, and a run whose every
    validation accuracy is zero writes no checkpoint, leaves the file as it
    was and ends with [best_val_acc = 0.0]. *)
Theorem no_checkpoint_without_positive_accuracy (N : nat) (model : Runner.Model)
    (optimizer : OptState) (train_accuracy val_accuracy : MetricState)
    (disk : option (Params * Buffers)) (w : World) :
  training_loop N model optimizer train_accuracy val_accuracy disk = Some w ->
  (forall e, In e (saved_epochs (events w)) ->
             (0 < nth e (val_accs (events w)) 0)%Q)
  /\ ((forall v, In v (val_accs (events w)) -> (v == 0)%Q) ->
      saved_epochs (events w) = []
      /\ best_val_acc w = 0%Q
      /\ best_model_pth w = disk).
Proof.
  intro Hrun.
  pose proof (training_loop_spec _ _ _ _ _ _ _ Hrun)
    as (per_epoch & Hlen & Hev & Hok & Hfile).
  destruct (run_decisions _ _ _ _ Hlen Hev Hok) as (Hl & Hd).
  split.
  - intros e Hin.
    pose proof (saved_iff (val_accs (events w)) 0%Q 0 e) as Hs.
    rewrite Hd in Hs. simpl fst in Hs. apply Hs in Hin.
    destruct Hin as (_ & Hv & _). rewrite Nat.sub_0_r in Hv. exact Hv.
  - intro Hzero.
    rewrite decisions_none in Hd.
    + injection Hd as Hsaved Hbest.
      split; [auto|]. split; [auto|].
      apply Hfile. rewrite Hev, saved_epochs_app in Hsaved.
      symmetry in Hsaved. apply app_eq_nil in Hsaved. tauto.
    + intros v Hv. rewrite (Hzero v Hv). apply Qle_refl.
Qed.






End WithCollaborators.

(** The amended C1 on the small collaborators: four epochs whose validation
    accuracies are 2/20, 1/20, 6/20 and 4/20. *)
Lemma checkpoint_iff_strict_improvement_witness :
  exists w,
    training_loop (H := Toy.collaborators [2; 1; 6; 4]) Toy.train_loader
      Toy.val_loader 4 (Toy.model [2; 1; 6; 4]) 0 (0, 0) (0, 0) None = Some w
    /\ saved_epochs (events w) = [0; 2]
    /\ (best_val_acc w == 3 # 10)%Q.
Proof.
  eexists. split; [vm_compute; reflexivity|].
  match goal with
  | |- saved_epochs (events ?w) = _ /\ _ =>
      assert (Hrun : training_loop (H := Toy.collaborators [2; 1; 6; 4])
                       Toy.train_loader Toy.val_loader 4 (Toy.model [2; 1; 6; 4])
                       0 (0, 0) (0, 0) None = Some w)
        by (vm_compute; reflexivity)
  end.
  apply (checkpoint_iff_strict_improvement _ _ _ _ _ _ _ _ _ Hrun).
  vm_compute. repeat (constructor; [reflexivity|]). constructor.
Defined.

(** C1 as stated fails at the first epoch of a run whose first validation
    accuracy is zero: the accuracy exceeds that of every earlier epoch, there
    being none, and no checkpoint is written. *)
Lemma no_checkpoint_at_first_epoch_with_zero_accuracy :
  exists w,
    training_loop (H := Toy.collaborators [0]) Toy.train_loader
      Toy.val_loader 1 (Toy.model [0]) 0 (0, 0) (0, 0) None = Some w
    /\ val_accs (events w) = [(0 # 20)%Q]
    /\ (forall e', e' < 0 ->
          (nth e' (val_accs (events w)) 0 < nth 0 (val_accs (events w)) 0)%Q)
    /\ ~ In 0 (saved_epochs (events w)).
Proof.
  eexists. split; [vm_compute; reflexivity|].
  split; [reflexivity|]. split.
  - intros e' He'. lia.
  - simpl. tauto.
Qed.

(** C9 on the small collaborators: three epochs, every validation accuracy
    zero, no file before the run and none after it. *)
Lemma no_checkpoint_without_positive_accuracy_witness :
  exists w,
    training_loop (H := Toy.collaborators [0; 0; 0]) Toy.train_loader
      Toy.val_loader 3 (Toy.model [0; 0; 0]) 0 (0, 0) (0, 0) None = Some w
    /\ saved_epochs (events w) = []
    /\ best_val_acc w = 0%Q
    /\ best_model_pth w = None.
Proof.
  eexists. split; [vm_compute; reflexivity|].
  match goal with
  | |- saved_epochs (events ?w) = _ /\ _ =>
      assert (Hrun : training_loop (H := Toy.collaborators [0; 0; 0])
                       Toy.train_loader Toy.val_loader 3 (Toy.model [0; 0; 0])
                       0 (0, 0) (0, 0) None = Some w)
        by (vm_compute; reflexivity)
  end.
  apply (no_checkpoint_without_positive_accuracy _ _ _ _ _ _ _ _ _ Hrun).
  intros v Hv. vm_compute in Hv.
  destruct Hv as [<-|[<-|[<-|[]]]]; reflexivity.
Defined.


End DriverFacts.

(** ** Shapes of the layers *)

Module LayerFacts.
Import Scalar torch nn.

(** Output length of a window that is padded by half its size, rounded
    down: it only depends on the step. *)
Definition strided (h s : nat) : nat := (h - 1) / s + 1.

Lemma window_out_padded (h s p : nat) :
  1 <= h -> 1 <= s -> window_out h (2 * p + 1) s p = Some (strided h s).
Proof.
  intros Hh Hs. unfold window_out, strided.
  destruct (Nat.eqb_spec s 0) as [E|_]; [lia|].
  destruct (Nat.ltb_spec (h + 2 * p) (2 * p + 1)) as [E|_]; [lia|].
  simpl orb. cbv iota. do 3 f_equal. lia.
Qed.

Lemma strided_pos (h s : nat) : 1 <= strided h s.
Proof. unfold strided. lia. Qed.

Lemma strided_one (h : nat) : 1 <= h -> strided h 1 = h.
Proof. intro Hh. unfold strided. rewrite Nat.div_1_r. lia. Qed.

Lemma as_batch_like_input (s : list nat) (n c0 h0 w0 c h w : nat) :
  as_batch s = Some (n, c0, h0, w0) ->
  as_batch (like_input s c h w) = Some (n, c, h, w).
Proof.
  destruct s as [|a [|b [|d [|e [|f s]]]]]; simpl; try discriminate;
    intro E; injection E as <- _ _ _; reflexivity.
Qed.

(** *** Every layer returns exactly when its shape rule accepts, with the
    shape the rule gives *)

Lemma relu_shape (x : Tensor) : shape (relu x) = shape x.
Proof. reflexivity. Qed.

Lemma conv_shape (l : Conv2d.t) (x : Tensor) :
  option_map shape (Conv2d.forward l x) = Conv2d.forward_shape l (shape x).
Proof.
  unfold Conv2d.forward.
  destruct (Conv2d.forward_shape l (shape x)) as [s'|] eqn:E; [|reflexivity].
  unfold Conv2d.forward_shape in E.
  destruct (as_batch (shape x)) as [[[[n c] h] w]|] eqn:Eb; [|discriminate].
  destruct (negb (c =? Conv2d.in_channels l)); [discriminate|].
  destruct (window_out h _ _ _) as [h'|]; [|discriminate].
  destruct (window_out w _ _ _) as [w'|]; [|discriminate].
  injection E as <-.
  rewrite (as_batch_like_input _ _ _ _ _ _ _ _ Eb). reflexivity.
Qed.

Lemma pool_shape (l : MaxPool2d.t) (x : Tensor) :
  option_map shape (MaxPool2d.forward l x) = MaxPool2d.forward_shape l (shape x).
Proof.
  unfold MaxPool2d.forward.
  destruct (MaxPool2d.forward_shape l (shape x)) as [s'|] eqn:E; [|reflexivity].
  unfold MaxPool2d.forward_shape in E.
  destruct (as_batch (shape x)) as [[[[n c] h] w]|] eqn:Eb; [|discriminate].
  destruct (_ || _); [discriminate|].
  destruct (window_out h _ _ _) as [h'|]; [|discriminate].
  destruct (window_out w _ _ _) as [w'|]; [|discriminate].
  injection E as <-.
  rewrite (as_batch_like_input _ _ _ _ _ _ _ _ Eb). reflexivity.
Qed.

Lemma avgpool_shape (l : AdaptiveAvgPool2d.t) (x : Tensor) :
  option_map shape (AdaptiveAvgPool2d.forward l x)
  = AdaptiveAvgPool2d.forward_shape l (shape x).
Proof.
  unfold AdaptiveAvgPool2d.forward.
  destruct (AdaptiveAvgPool2d.forward_shape l (shape x)) as [s'|] eqn:E;
    [|reflexivity].
  unfold AdaptiveAvgPool2d.forward_shape in E.
  destruct (as_batch (shape x)) as [[[[n c] h] w]|] eqn:Eb; [|discriminate].
  reflexivity.
Qed.

Lemma norm_shape `{Numerics} (training : bool) (l : BatchNorm2d.t) (x : Tensor) :
  option_map shape (BatchNorm2d.forward training l x)
  = BatchNorm2d.forward_shape training l (shape x).
Proof.
  unfold BatchNorm2d.forward.
  destruct (BatchNorm2d.forward_shape training l (shape x)) as [s'|] eqn:E;
    [|reflexivity].
  unfold BatchNorm2d.forward_shape in E.
  destruct (shape x) as [|a [|b [|d [|e [|f s]]]]]; try discriminate.
  destruct (negb _); [discriminate|].
  destruct (_ && _); [discriminate|].
  injection E as <-. reflexivity.
Qed.

Lemma linear_shape (l : Linear.t) (x : Tensor) :
  option_map shape (Linear.forward l x) = Linear.forward_shape l (shape x).
Proof.
  unfold Linear.forward.
  destruct (Linear.forward_shape l (shape x)); reflexivity.
Qed.

Lemma flatten1_shape_of (x : Tensor) :
  option_map shape (flatten1 x) = flatten1_shape (shape x).
Proof. unfold flatten1. destruct (flatten1_shape (shape x)); reflexivity. Qed.


Lemma iadd_shape_of (out identity : Tensor) :
  option_map shape (iadd out identity) = iadd_shape (shape out) (shape identity).
Proof.
  unfold iadd. destruct (iadd_shape (shape out) (shape identity)); reflexivity.
Qed.

(** From the shape rule to the call: a layer whose rule gives [s] returns a
    tensor of shape [s]; one whose rule refuses raises. *)
Lemma returns_with_shape (r : option Tensor) (rule : option (list nat))
    (s : list nat) :
  option_map shape r = rule -> rule = Some s ->
  exists y, r = Some y /\ shape y = s.
Proof.
  intros Hr Hs. destruct r as [y|]; simpl in Hr; [|congruence].
  exists y. split; [reflexivity|congruence].
Qed.

Lemma raises (r : option Tensor) (rule : option (list nat)) :
  option_map shape r = rule -> rule = None -> r = None.
Proof. intros Hr Hs. destruct r; simpl in Hr; congruence. Qed.

(** *** Layers on a batch of images *)

(** The hyperparameters of a convolution. *)
Definition conv_is (c : Conv2d.t) (cin cout k s p : nat) : Prop :=
  Conv2d.in_channels c = cin /\ Conv2d.out_channels c = cout
  /\ Conv2d.kernel_size c = k /\ Conv2d.stride c = s /\ Conv2d.padding c = p.

Lemma conv_init_is (cin cout k s p : nat) (b : bool) (g : Generator) :
  conv_is (fst (Conv2d.__init__ cin cout k s p b g)) cin cout k s p
  /\ (Conv2d.bias (fst (Conv2d.__init__ cin cout k s p b g)) = None <-> b = false).
Proof.
  unfold Conv2d.__init__, bind, ret, draw. destruct b; simpl.
  - repeat split; intro; discriminate.
  - repeat split; intro; reflexivity.
Qed.

Lemma norm_init_is (c : nat) (g : Generator) :
  BatchNorm2d.num_features (fst (BatchNorm2d.__init__ c g)) = c.
Proof. reflexivity. Qed.

Lemma conv_returns (c : Conv2d.t) (cin cout s p n h w : nat) (x : Tensor) :
  conv_is c cin cout (2 * p + 1) s p ->
  shape x = [n; cin; h; w] -> 1 <= h -> 1 <= w -> 1 <= s ->
  exists y, Conv2d.forward c x = Some y
            /\ shape y = [n; cout; strided h s; strided w s].
Proof.
  intros (Hin & Hout & Hk & Hs & Hp) Hx Hh Hw Hs1.
  apply (returns_with_shape _ _ _ (conv_shape c x)).
  rewrite Hx. unfold Conv2d.forward_shape. simpl as_batch. cbv iota beta.
  rewrite Hin, Nat.eqb_refl, Hk, Hs, Hp. simpl negb. cbv iota.
  rewrite !window_out_padded by assumption. rewrite Hout. reflexivity.
Qed.

Lemma norm_returns `{Numerics} (training : bool) (b : BatchNorm2d.t)
    (n c h w : nat) (x : Tensor) :
  BatchNorm2d.num_features b = c ->
  shape x = [n; c; h; w] -> (training = true -> n * h * w <> 1) ->
  exists y, BatchNorm2d.forward training b x = Some y /\ shape y = [n; c; h; w].
Proof.
  intros Hc Hx Hbatch.
  apply (returns_with_shape _ _ _ (norm_shape training b x)).
  rewrite Hx. unfold BatchNorm2d.forward_shape.
  rewrite Hc, Nat.eqb_refl. simpl negb. cbv iota.
  destruct training; [|reflexivity].
  destruct (Nat.eqb_spec (n * h * w) 1) as [E|_]; [|reflexivity].
  exfalso. apply Hbatch; [reflexivity|exact E].
Qed.

(** In training mode the layer raises on a single value per channel. *)
Lemma norm_raises `{Numerics} (b : BatchNorm2d.t) (n c h w : nat) (x : Tensor) :
  shape x = [n; c; h; w] -> n * h * w = 1 ->
  BatchNorm2d.forward true b x = None.
Proof.
  intros Hx Hone.
  apply (raises _ _ (norm_shape true b x)).
  rewrite Hx. unfold BatchNorm2d.forward_shape.
  destruct (negb _); [reflexivity|].
  rewrite Hone. reflexivity.
Qed.

Lemma dims_match_refl (s : list nat) : dims_match s s = true.
Proof.
  induction s as [|a s IH]; [reflexivity|].
  simpl. rewrite Nat.eqb_refl, IH. reflexivity.
Qed.

Lemma iadd_returns (out identity : Tensor) :
  shape identity = shape out ->
  exists y, iadd out identity = Some y /\ shape y = shape out.
Proof.
  intro Hs.
  apply (returns_with_shape _ _ _ (iadd_shape_of out identity)).
  unfold iadd_shape, broadcastable. rewrite Hs, Nat.leb_refl, Nat.sub_diag.
  simpl skipn. rewrite dims_match_refl. reflexivity.
Qed.

End LayerFacts.

(** ** The residual block *)

Module BasicBlockFacts.
Import Scalar torch nn LayerFacts.

Section WithNumerics.
Context `{Numerics}.

(** The internal transform of the block: convolution, normalisation,
    activation, convolution, normalisation. *)
Definition F (training : bool) (self : BasicBlock.t) (x : Tensor) : option Tensor :=
  out <- Conv2d.forward (BasicBlock.conv1 self) x ;;
  out <- BatchNorm2d.forward training (BasicBlock.bn1 self) out ;;
  out <- Conv2d.forward (BasicBlock.conv2 self) (relu out) ;;
  BatchNorm2d.forward training (BasicBlock.bn2 self) out.

(** The shortcut: the downsample transform when there is one, the input
    itself otherwise. *)
Definition shortcut (training : bool) (self : BasicBlock.t) (x : Tensor)
    : option Tensor :=
  match BasicBlock.downsample self with
  | Some d => Sequential.forward (Layer_forward training) d x
  | None => Some x
  end.

(** The block adds the shortcut to the internal transform and activates. *)
Lemma forward_is_residual (training : bool) (self : BasicBlock.t) (x : Tensor) :
  BasicBlock.forward training self x
  = (out <- F training self x ;;
     identity <- shortcut training self x ;;
     out <- iadd out identity ;;
     Some (relu out)).
Proof.
  unfold BasicBlock.forward, F, shortcut.
  destruct (Conv2d.forward (BasicBlock.conv1 self) x) as [o1|]; [|reflexivity].
  destruct (BatchNorm2d.forward training (BasicBlock.bn1 self) o1) as [o2|];
    [|reflexivity].
  destruct (Conv2d.forward (BasicBlock.conv2 self) (relu o2)) as [o3|];
    [|reflexivity].
  destruct (BatchNorm2d.forward training (BasicBlock.bn2 self) o3) as [o4|];
    reflexivity.
Qed.

(** A block as the assembler builds it, from [cin] to [cout] channels with
    stride [s]: two 3x3 convolutions without bias, the first with the
    stride, each followed by a normalisation of [cout] channels, and a
    shortcut that is either absent, for stride 1 and equal widths, or a 1x1
    convolution of the same stride followed by a normalisation. *)
Definition block_is (b : BasicBlock.t) (cin cout s : nat) : Prop :=
  conv_is (BasicBlock.conv1 b) cin cout 3 s 1
  /\ BatchNorm2d.num_features (BasicBlock.bn1 b) = cout
  /\ conv_is (BasicBlock.conv2 b) cout cout 3 1 1
  /\ BatchNorm2d.num_features (BasicBlock.bn2 b) = cout
  /\ match BasicBlock.downsample b with
     | None => s = 1 /\ cin = cout
     | Some d => exists c n, d = [Conv c; Norm n]
                             /\ conv_is c cin cout 1 s 0
                             /\ Conv2d.bias c = None
                             /\ BatchNorm2d.num_features n = cout
     end.

Lemma block_init_fields (cin cout s : nat) (ds : option (list Layer)) (g : Generator) :
  let b := fst (BasicBlock.__init__ cin cout s ds g) in
  conv_is (BasicBlock.conv1 b) cin cout 3 s 1
  /\ BatchNorm2d.num_features (BasicBlock.bn1 b) = cout
  /\ conv_is (BasicBlock.conv2 b) cout cout 3 1 1
  /\ BatchNorm2d.num_features (BasicBlock.bn2 b) = cout
  /\ BasicBlock.downsample b = ds.
Proof.
  unfold BasicBlock.__init__, Conv2d.__init__, BatchNorm2d.__init__, bind, ret, draw.
  simpl. repeat split.
Qed.

Lemma F_returns (training : bool) (b : BasicBlock.t) (cin cout s n h w : nat)
    (x : Tensor) :
  conv_is (BasicBlock.conv1 b) cin cout 3 s 1 ->
  BatchNorm2d.num_features (BasicBlock.bn1 b) = cout ->
  conv_is (BasicBlock.conv2 b) cout cout 3 1 1 ->
  BatchNorm2d.num_features (BasicBlock.bn2 b) = cout ->
  shape x = [n; cin; h; w] -> 1 <= h -> 1 <= w -> 1 <= s ->
  (training = true -> n * strided h s * strided w s <> 1) ->
  exists y, F training b x = Some y
            /\ shape y = [n; cout; strided h s; strided w s].
Proof.
  intros Hc1 Hb1 Hc2 Hb2 Hx Hh Hw Hs Hbatch. unfold F.
  destruct (conv_returns _ cin cout s 1 n h w x Hc1 Hx Hh Hw Hs) as (o1 & -> & H1).
  destruct (norm_returns training _ _ _ _ _ o1 Hb1 H1 Hbatch) as (o2 & -> & H2).
  destruct (conv_returns _ cout cout 1 1 n (strided h s) (strided w s) (relu o2)
              Hc2 H2 (strided_pos _ _) (strided_pos _ _) (le_n 1))
    as (o3 & -> & H3).
  rewrite !strided_one in H3 by apply strided_pos.
  exact (norm_returns training _ _ _ _ _ o3 Hb2 H3 Hbatch).
Qed.

Lemma shortcut_returns (training : bool) (b : BasicBlock.t) (cin cout s n h w : nat)
    (x : Tensor) :
  block_is b cin cout s ->
  shape x = [n; cin; h; w] -> 1 <= h -> 1 <= w -> 1 <= s ->
  (training = true -> n * strided h s * strided w s <> 1) ->
  exists y, shortcut training b x = Some y
            /\ shape y = [n; cout; strided h s; strided w s].
Proof.
  intros (_ & _ & _ & _ & Hds) Hx Hh Hw Hs Hbatch. unfold shortcut.
  destruct (BasicBlock.downsample b) as [d|].
  - destruct Hds as (c & nm & -> & Hc & _ & Hn).
    unfold Sequential.forward. simpl.
    destruct (conv_returns c cin cout s 0 n h w x Hc Hx Hh Hw Hs) as (o1 & -> & H1).
    exact (norm_returns training _ _ _ _ _ o1 Hn H1 Hbatch).
  - destruct Hds as (-> & ->). exists x. split; [reflexivity|].
    rewrite !strided_one by assumption. exact Hx.
Qed.

(** A block of the assembler maps [(N, cin, H, W)] to [(N, cout, H', W')]. *)
Lemma block_forward_returns (training : bool) (b : BasicBlock.t) (cin cout s n h w : nat)
    (x : Tensor) :
  block_is b cin cout s ->
  shape x = [n; cin; h; w] -> 1 <= h -> 1 <= w -> 1 <= s ->
  (training = true -> n * strided h s * strided w s <> 1) ->
  exists y, BasicBlock.forward training b x = Some y
            /\ shape y = [n; cout; strided h s; strided w s].
Proof.
  intros Hb Hx Hh Hw Hs Hbatch. rewrite forward_is_residual.
  pose proof Hb as (Hc1 & Hb1 & Hc2 & Hb2 & _).
  destruct (F_returns training b cin cout s n h w x Hc1 Hb1 Hc2 Hb2 Hx Hh Hw Hs Hbatch)
    as (f & -> & Hf).
  destruct (shortcut_returns training b cin cout s n h w x Hb Hx Hh Hw Hs Hbatch)
    as (i & -> & Hi).
  destruct (iadd_returns f i) as (o & -> & Ho); [congruence|].
  eexists. split; [reflexivity|]. rewrite relu_shape. congruence.
Qed.

(** In training mode a block raises when its output would hold a single
    value per channel: its first normalisation refuses. *)
Lemma block_forward_raises (b : BasicBlock.t) (cin cout s n h w : nat) (x : Tensor) :
  block_is b cin cout s ->
  shape x = [n; cin; h; w] -> 1 <= h -> 1 <= w -> 1 <= s ->
  n * strided h s * strided w s = 1 ->
  BasicBlock.forward true b x = None.
Proof.
  intros (Hc1 & _) Hx Hh Hw Hs Hone. unfold BasicBlock.forward.
  destruct (conv_returns _ cin cout s 1 n h w x Hc1 Hx Hh Hw Hs) as (o1 & -> & H1).
  rewrite (norm_raises _ _ _ _ _ o1 H1 Hone). reflexivity.
Qed.

End WithNumerics.

End BasicBlockFacts.

(** ** The network assembler *)

Module ResNetFacts.
Import Scalar torch nn LayerFacts BasicBlockFacts.

(** The assembler given [BasicBlock], the only block class of the
    notebooks. *)
Definition make_layer (self_in_channels out_channels blocks stride : nat)
    : Init (list BasicBlock.t * nat) :=
  ResNet._make_layer (B := BasicBlock.t) self_in_channels out_channels blocks stride.

(** A block after the first of its stage: stride 1, no shortcut
    transform, [w] channels in and out. *)
Definition plain_block (w : nat) (b : BasicBlock.t) : Prop :=
  block_is b w w 1 /\ BasicBlock.downsample b = None.

(** Running a constructor that first runs [m] and then [k] on its result. *)
Lemma bind_run {A B : Type} (m : Init A) (k : A -> Init B) (g : Generator) :
  bind m k g = k (fst (m g)) (snd (m g)).
Proof. unfold bind. destruct (m g). reflexivity. Qed.

Lemma append_blocks_cons (i : nat) (indices : list nat) (ic oc : nat) (g : Generator) :
  fst (ResNet.append_blocks (B := BasicBlock.t) (i :: indices) ic oc g)
  = fst (BasicBlock.__init__ ic oc 1 None g)
    :: fst (ResNet.append_blocks (B := BasicBlock.t) indices ic oc
              (snd (BasicBlock.__init__ ic oc 1 None g))).
Proof.
  simpl ResNet.append_blocks. rewrite !bind_run. reflexivity.
Qed.

Lemma append_blocks_spec (indices : list nat) (w : nat) :
  forall g,
    length (fst (ResNet.append_blocks (B := BasicBlock.t) indices w w g))
    = length indices
    /\ Forall (plain_block w)
              (fst (ResNet.append_blocks (B := BasicBlock.t) indices w w g)).
Proof.
  induction indices as [|i indices IH]; intro g.
  - split; [reflexivity|constructor].
  - rewrite append_blocks_cons.
    destruct (IH (snd (BasicBlock.__init__ w w 1 None g))) as (Hlen & Hall).
    split; [cbn [length]; f_equal; exact Hlen|].
    constructor; [|exact Hall].
    destruct (block_init_fields w w 1 None g) as (H1 & H2 & H3 & H4 & H5).
    split; [|exact H5].
    unfold block_is. rewrite H5.
    exact (conj H1 (conj H2 (conj H3 (conj H4 (conj eq_refl eq_refl))))).
Qed.

(** The shortcut transform [_make_layer] builds, when it builds one. *)
Definition make_downsample (ic oc s : nat) : Init (option (list Layer)) :=
  c <~ Conv2d.__init__ ic oc 1 s 0 false ;;
  b <~ BatchNorm2d.__init__ oc ;;
  ret (Some [Conv c; Norm b]).

Lemma make_downsample_spec (ic oc s : nat) (g : Generator) :
  exists c n, fst (make_downsample ic oc s g) = Some [Conv c; Norm n]
              /\ conv_is c ic oc 1 s 0
              /\ Conv2d.bias c = None
              /\ BatchNorm2d.num_features n = oc.
Proof.
  unfold make_downsample. rewrite !bind_run.
  destruct (conv_init_is ic oc 1 s 0 false g) as (Hc & Hb).
  eexists _, _. split; [reflexivity|]. split; [exact Hc|].
  split; [apply Hb; reflexivity|reflexivity].
Qed.

(** What [_make_layer] returns: a first block with the stride of the stage,
    from the tracked width to the width of the stage, with a shortcut
    transform exactly when the stride is not 1 or the widths differ; then
    [blocks - 1] plain blocks; and the width of the stage as the new value
    of the tracker. *)
Lemma make_layer_spec (ic oc blocks s : nat) (g : Generator) :
  exists first rest,
    fst (make_layer ic oc blocks s g) = (first :: rest, oc)
    /\ length rest = blocks - 1
    /\ block_is first ic oc s
    /\ (BasicBlock.downsample first = None <-> s = 1 /\ ic = oc)
    /\ Forall (plain_block oc) rest.
Proof.
  unfold make_layer, ResNet._make_layer.
  change (@expansion BasicBlock.t BasicBlock_class) with 1.
  rewrite !Nat.mul_1_r.
  change (@block BasicBlock.t BasicBlock_class) with BasicBlock.__init__.
  fold (make_downsample ic oc s).
  rewrite !bind_run.
  set (cond := negb (s =? 1) || negb (ic =? oc)).
  assert (Hcond : cond = false <-> s = 1 /\ ic = oc).
  { unfold cond. rewrite orb_false_iff, !negb_false_iff, !Nat.eqb_eq. tauto. }
  set (dsg := (if cond then make_downsample ic oc s else ret None) g).
  set (firstg := BasicBlock.__init__ ic oc s (fst dsg) (snd dsg)).
  destruct (append_blocks_spec (seq 1 (blocks - 1)) oc (snd firstg)) as (Hlen & Hall).
  rewrite length_seq in Hlen.
  eexists _, _. split; [reflexivity|]. split; [exact Hlen|].
  destruct (block_init_fields ic oc s (fst dsg) (snd dsg)) as (H1 & H2 & H3 & H4 & H5).
  fold firstg in H1, H2, H3, H4, H5.
  assert (Hds : match fst dsg with
                | None => s = 1 /\ ic = oc
                | Some d => exists c n, d = [Conv c; Norm n]
                                        /\ conv_is c ic oc 1 s 0
                                        /\ Conv2d.bias c = None
                                        /\ BatchNorm2d.num_features n = oc
                end /\ (fst dsg = None <-> cond = false)).
  { unfold dsg. destruct cond.
    - destruct (make_downsample_spec ic oc s g) as (c & n & -> & Hc & Hb & Hn).
      split; [|split; discriminate].
      exists c, n. auto.
    - split; [apply Hcond; reflexivity|]. simpl. tauto. }
  destruct Hds as (Hds & Hnone).
  split; [|split; [|exact Hall]].
  - unfold block_is. rewrite H5.
    exact (conj H1 (conj H2 (conj H3 (conj H4 Hds)))).
  - rewrite H5, Hnone. exact Hcond.
Qed.

(** A stage of [count] requested blocks from [ic] to [oc] channels with
    stride [s]. *)
Definition stage_is (st : list BasicBlock.t) (ic oc s count : nat) : Prop :=
  exists first rest,
    st = first :: rest
    /\ length rest = count - 1
    /\ block_is first ic oc s
    /\ (BasicBlock.downsample first = None <-> s = 1 /\ ic = oc)
    /\ Forall (plain_block oc) rest.

(** A network as [ResNet(BasicBlock, layers, num_classes)] builds it. *)
Definition assembled (net : ResNet.t BasicBlock.t) (layers : list nat)
    (num_classes : nat) : Prop :=
  conv_is (ResNet.conv1 net) 3 64 7 2 3
  /\ Conv2d.bias (ResNet.conv1 net) = None
  /\ BatchNorm2d.num_features (ResNet.bn1 net) = 64
  /\ ResNet.maxpool net = MaxPool2d.__init__ 3 2 1
  /\ stage_is (ResNet.layer1 net) 64 64 1 (nth 0 layers 0)
  /\ stage_is (ResNet.layer2 net) 64 128 2 (nth 1 layers 0)
  /\ stage_is (ResNet.layer3 net) 128 256 2 (nth 2 layers 0)
  /\ stage_is (ResNet.layer4 net) 256 512 2 (nth 3 layers 0)
  /\ ResNet.avgpool net = AdaptiveAvgPool2d.__init__ (1, 1)
  /\ Linear.in_features (ResNet.fc net) = 512
  /\ Linear.out_features (ResNet.fc net) = num_classes
  /\ ResNet.in_channels net = 512.

Lemma linear_init_is (i o : nat) (g : Generator) :
  Linear.in_features (fst (Linear.__init__ i o g)) = i
  /\ Linear.out_features (fst (Linear.__init__ i o g)) = o.
Proof. unfold Linear.__init__. rewrite !bind_run. split; reflexivity. Qed.

Lemma nth_error_nth (l : list nat) (i n : nat) :
  nth_error l i = Some n -> nth i l 0 = n.
Proof. intro E. apply nth_error_nth. exact E. Qed.

Local Opaque draw Conv2d.__init__ BasicBlock.__init__ Linear.__init__ make_layer.

Lemma init_assembled (layers : list nat) (num_classes : nat)
    (init : Init (ResNet.t BasicBlock.t)) (g : Generator) :
  ResNet.__init__ layers num_classes = Some init ->
  4 <= length layers /\ assembled (fst (init g)) layers num_classes.
Proof.
  unfold ResNet.__init__.
  destruct (nth_error layers 0) as [n0|] eqn:E0; [|discriminate].
  destruct (nth_error layers 1) as [n1|] eqn:E1; [|discriminate].
  destruct (nth_error layers 2) as [n2|] eqn:E2; [|discriminate].
  destruct (nth_error layers 3) as [n3|] eqn:E3; [|discriminate].
  intro E. injection E as <-.
  split.
  { assert (Hlt : 3 < length layers)
      by (apply nth_error_Some; rewrite E3; discriminate).
    lia. }
  change (@ResNet._make_layer BasicBlock.t BasicBlock_class) with make_layer.
  change (@expansion BasicBlock.t BasicBlock_class) with 1.
  repeat first
    [ rewrite bind_run
    | match goal with
      | |- context [fst (make_layer ?ic ?oc ?n ?s ?g0)] =>
          let first := fresh "first" in
          let rest := fresh "rest" in
          let Hst := fresh "Hstage" in
          let Eq := fresh "Elayer" in
          destruct (make_layer_spec ic oc n s g0) as (first & rest & Eq & Hst);
          rewrite Eq; cbv beta iota
      end ].
  unfold assembled, ret. cbn [fst ResNet.conv1 ResNet.bn1 ResNet.maxpool
                              ResNet.layer1 ResNet.layer2 ResNet.layer3
                              ResNet.layer4 ResNet.avgpool ResNet.fc
                              ResNet.in_channels].
  rewrite (nth_error_nth _ _ _ E0), (nth_error_nth _ _ _ E1),
          (nth_error_nth _ _ _ E2), (nth_error_nth _ _ _ E3).
  destruct (conv_init_is 3 64 7 2 3 false g) as (Hc & Hb).
  split; [exact Hc|]. split; [apply Hb; reflexivity|].
  split; [reflexivity|]. split; [reflexivity|].
  split; [eexists _, _; split; [reflexivity|eassumption]|].
  split; [eexists _, _; split; [reflexivity|eassumption]|].
  split; [eexists _, _; split; [reflexivity|eassumption]|].
  split; [eexists _, _; split; [reflexivity|eassumption]|].
  split; [reflexivity|].
  match goal with
  | |- context [Linear.__init__ ?i ?o ?g0] =>
      destruct (linear_init_is i o g0) as (Hi & Ho)
  end.
  split; [exact Hi|]. split; [exact Ho|reflexivity].
Qed.

(** *** Shapes through a stage and through the network *)

Lemma strided_le (h s : nat) : 1 <= h -> strided h s <= h.
Proof.
  intro Hh. unfold strided.
  destruct s as [|s].
  - change ((h - 1) / 0) with 0. lia.
  - assert ((h - 1) / S s <= h - 1) by (apply Nat.Div0.div_le_upper_bound; nia).
    lia.
Qed.

(** A batch that has more than one value per channel on a feature map has
    more than one on every larger feature map. *)
Lemma batch_ok_larger (training : bool) (n a b a' b' : nat) :
  (training = true -> n * a' * b' <> 1) ->
  1 <= a' -> 1 <= b' -> a' <= a -> b' <= b ->
  training = true -> n * a * b <> 1.
Proof.
  intros Hok Ha' Hb' Ha Hb Ht E. apply (Hok Ht).
  apply Nat.eq_mul_1 in E. destruct E as (E & ->).
  apply Nat.eq_mul_1 in E. destruct E as (-> & ->).
  replace a' with 1 by lia. replace b' with 1 by lia. reflexivity.
Qed.

Section WithNumerics.
Context `{Numerics}.

Definition through (training : bool) (st : list BasicBlock.t) (x : Tensor)
    : option Tensor :=
  Sequential.forward (BasicBlock.forward training) st x.

Lemma plain_blocks_return (training : bool) (w n h v : nat)
    (rest : list BasicBlock.t) :
  Forall (plain_block w) rest ->
  1 <= h -> 1 <= v -> (training = true -> n * h * v <> 1) ->
  forall x, shape x = [n; w; h; v] ->
  exists y, fold_left (fun acc m => x' <- acc ;; BasicBlock.forward training m x')
                      rest (Some x) = Some y
            /\ shape y = [n; w; h; v].
Proof.
  intros Hall Hh Hv Hbatch.
  induction Hall as [|b rest (Hb & _) _ IH]; intros x Hx.
  - exists x. split; [reflexivity|exact Hx].
  - simpl.
    destruct (block_forward_returns training b w w 1 n h v x Hb Hx Hh Hv (le_n 1))
      as (y & -> & Hy).
    + rewrite !strided_one by assumption. exact Hbatch.
    + rewrite !strided_one in Hy by assumption. apply IH. exact Hy.
Qed.

Lemma stage_returns (training : bool) (st : list BasicBlock.t)
    (ic oc s count n h w : nat) (x : Tensor) :
  stage_is st ic oc s count ->
  shape x = [n; ic; h; w] -> 1 <= h -> 1 <= w -> 1 <= s ->
  (training = true -> n * strided h s * strided w s <> 1) ->
  exists y, through training st x = Some y
            /\ shape y = [n; oc; strided h s; strided w s].
Proof.
  intros (first & rest & -> & _ & Hfirst & _ & Hrest) Hx Hh Hw Hs Hbatch.
  unfold through, Sequential.forward. simpl.
  destruct (block_forward_returns training first ic oc s n h w x Hfirst Hx Hh Hw Hs Hbatch)
    as (y & -> & Hy).
  apply (plain_blocks_return training oc n _ _ rest Hrest
           (strided_pos _ _) (strided_pos _ _) Hbatch y Hy).
Qed.

Lemma stage_raises (st : list BasicBlock.t) (ic oc s count n h w : nat) (x : Tensor) :
  stage_is st ic oc s count ->
  shape x = [n; ic; h; w] -> 1 <= h -> 1 <= w -> 1 <= s ->
  n * strided h s * strided w s = 1 ->
  through true st x = None.
Proof.
  intros (first & rest & -> & _ & Hfirst & _) Hx Hh Hw Hs Hone.
  unfold through, Sequential.forward. simpl.
  rewrite (block_forward_raises first ic oc s n h w x Hfirst Hx Hh Hw Hs Hone).
  apply LoopFacts.fold_None.
Qed.

Lemma pool_returns (n c h w : nat) (x : Tensor) :
  shape x = [n; c; h; w] -> 1 <= c -> 1 <= h -> 1 <= w ->
  exists y, MaxPool2d.forward (MaxPool2d.__init__ 3 2 1) x = Some y
            /\ shape y = [n; c; strided h 2; strided w 2].
Proof.
  intros Hx Hc Hh Hw.
  assert (Eh : window_out h 3 2 1 = Some (strided h 2))
    by (apply (window_out_padded h 2 1); lia).
  assert (Ew : window_out w 3 2 1 = Some (strided w 2))
    by (apply (window_out_padded w 2 1); lia).
  apply (returns_with_shape _ _ _ (pool_shape _ x)).
  rewrite Hx. unfold MaxPool2d.forward_shape, MaxPool2d.__init__.
  cbn [as_batch MaxPool2d.kernel_size MaxPool2d.stride MaxPool2d.padding].
  rewrite Eh, Ew.
  change (3 =? 0) with false. change (3 / 2 <? 1) with false.
  destruct (Nat.eqb_spec c 0) as [E|_]; [lia|].
  destruct (Nat.eqb_spec h 0) as [E|_]; [lia|].
  destruct (Nat.eqb_spec w 0) as [E|_]; [lia|].
  reflexivity.
Qed.

(** The height or width of the feature map after the stem's convolution,
    its pooling, and the three strided stages. *)
Definition final_size (h : nat) : nat :=
  strided (strided (strided (strided (strided h 2) 2) 2) 2) 2.

Definition head (net : ResNet.t BasicBlock.t) (x : Tensor) : option Tensor :=
  x <- AdaptiveAvgPool2d.forward (ResNet.avgpool net) x ;;
  x <- flatten1 x ;;
  Linear.forward (ResNet.fc net) x.

Lemma head_returns (net : ResNet.t BasicBlock.t) (layers : list nat)
    (num_classes n h w : nat) (x : Tensor) :
  assembled net layers num_classes ->
  shape x = [n; 512; h; w] -> 1 <= h -> 1 <= w ->
  exists y, head net x = Some y /\ shape y = [n; num_classes].
Proof.
  intros (_ & _ & _ & _ & _ & _ & _ & _ & Hpool & Hin & Hout & _) Hx Hh Hw.
  unfold head.
  destruct (returns_with_shape _ _ [n; 512; 1; 1] (avgpool_shape (ResNet.avgpool net) x))
    as (p & -> & Hp).
  { rewrite Hx, Hpool. unfold AdaptiveAvgPool2d.forward_shape. simpl as_batch.
    cbv iota beta.
    destruct (Nat.eqb_spec h 0) as [E|_]; [lia|].
    destruct (Nat.eqb_spec w 0) as [E|_]; [lia|]. reflexivity. }
  destruct (returns_with_shape _ _ [n; 512] (flatten1_shape_of p)) as (f & -> & Hf).
  { rewrite Hp. reflexivity. }
  apply (returns_with_shape _ _ _ (linear_shape (ResNet.fc net) f)).
  rewrite Hf. unfold Linear.forward_shape. simpl rev.
  rewrite Hin, Hout. reflexivity.
Qed.

(** The network is the stem, the four stages and the head. *)
Lemma forward_is_stem_stages_head (training : bool) (net : ResNet.t BasicBlock.t)
    (x : Tensor) :
  ResNet.forward training net x
  = (x <- Conv2d.forward (ResNet.conv1 net) x ;;
     x <- BatchNorm2d.forward training (ResNet.bn1 net) x ;;
     x <- MaxPool2d.forward (ResNet.maxpool net) (relu x) ;;
     x <- through training (ResNet.layer1 net) x ;;
     x <- through training (ResNet.layer2 net) x ;;
     x <- through training (ResNet.layer3 net) x ;;
     x <- through training (ResNet.layer4 net) x ;;
     head net x).
Proof.
  unfold ResNet.forward, head, through.
  change (@block_forward BasicBlock.t BasicBlock_class H training)
    with (BasicBlock.forward training).
  repeat match goal with
  | |- (x <- ?m ;; _) = (y <- ?m ;; _) => destruct m; [|reflexivity]
  end.
  destruct (Linear.forward (ResNet.fc net) _); reflexivity.
Qed.

(** An assembled network maps a batch of [n] three-channel images of any
    size to [n] rows of [num_classes] scores; in training mode, provided the
    last feature map holds more than one value per channel. *)
Lemma network_forward_returns (training : bool) (net : ResNet.t BasicBlock.t)
    (layers : list nat) (num_classes n h w : nat) (x : Tensor) :
  assembled net layers num_classes ->
  shape x = [n; 3; h; w] -> 1 <= h -> 1 <= w ->
  (training = true -> n * final_size h * final_size w <> 1) ->
  exists y, ResNet.forward training net x = Some y /\ shape y = [n; num_classes].
Proof.
  intros Hnet Hx Hh Hw Hbatch.
  pose proof Hnet as (Hc1 & _ & Hb1 & Hmp & Hl1 & Hl2 & Hl3 & Hl4 & _).
  rewrite forward_is_stem_stages_head.
  set (h1 := strided h 2) in *. set (w1 := strided w 2) in *.
  set (h2 := strided h1 2). set (w2 := strided w1 2).
  set (h3 := strided h2 2). set (w3 := strided w2 2).
  set (h4 := strided h3 2). set (w4 := strided w3 2).
  assert (Hle : forall a, strided a 2 <= a \/ a = 0).
  { intro a. destruct a; [right; reflexivity|left; apply strided_le; lia]. }
  assert (P1 : 1 <= h1 /\ 1 <= w1) by (split; apply strided_pos).
  assert (P2 : 1 <= h2 /\ 1 <= w2) by (split; apply strided_pos).
  assert (P3 : 1 <= h3 /\ 1 <= w3) by (split; apply strided_pos).
  assert (P4 : 1 <= h4 /\ 1 <= w4) by (split; apply strided_pos).
  assert (P5 : 1 <= strided h4 2 /\ 1 <= strided w4 2) by (split; apply strided_pos).
  assert (L54 : strided h4 2 <= h4 /\ strided w4 2 <= w4)
    by (split; apply strided_le; tauto).
  assert (L43 : h4 <= h3 /\ w4 <= w3) by (split; apply strided_le; tauto).
  assert (L32 : h3 <= h2 /\ w3 <= w2) by (split; apply strided_le; tauto).
  assert (L21 : h2 <= h1 /\ w2 <= w1) by (split; apply strided_le; tauto).
  assert (B5 : training = true -> n * strided h4 2 * strided w4 2 <> 1)
    by exact Hbatch.
  assert (B4 : training = true -> n * h4 * w4 <> 1).
  { apply (batch_ok_larger training n _ _ _ _ B5); tauto. }
  assert (B3 : training = true -> n * h3 * w3 <> 1).
  { apply (batch_ok_larger training n _ _ _ _ B4); tauto. }
  assert (B2 : training = true -> n * h2 * w2 <> 1).
  { apply (batch_ok_larger training n _ _ _ _ B3); tauto. }
  assert (B1 : training = true -> n * h1 * w1 <> 1).
  { apply (batch_ok_larger training n _ _ _ _ B2); tauto. }
  destruct (conv_returns _ 3 64 2 3 n h w x Hc1 Hx Hh Hw (le_S _ _ (le_n 1)))
    as (x1 & -> & H1).
  destruct (norm_returns training _ _ _ _ _ x1 Hb1 H1 B1) as (x2 & -> & H2).
  rewrite Hmp.
  destruct (pool_returns n 64 h1 w1 (relu x2) H2 ltac:(lia) (proj1 P1) (proj2 P1))
    as (x3 & -> & H3).
  destruct (stage_returns training _ _ _ _ _ n h2 w2 x3 Hl1 H3 (proj1 P2) (proj2 P2)
              (le_n 1)) as (x4 & -> & H4).
  { rewrite !strided_one by tauto. exact B2. }
  rewrite !strided_one in H4 by tauto.
  destruct (stage_returns training _ _ _ _ _ n h2 w2 x4 Hl2 H4 (proj1 P2) (proj2 P2)
              (le_S _ _ (le_n 1)) B3) as (x5 & -> & H5).
  destruct (stage_returns training _ _ _ _ _ n h3 w3 x5 Hl3 H5 (proj1 P3) (proj2 P3)
              (le_S _ _ (le_n 1)) B4) as (x6 & -> & H6).
  destruct (stage_returns training _ _ _ _ _ n h4 w4 x6 Hl4 H6 (proj1 P4) (proj2 P4)
              (le_S _ _ (le_n 1)) B5) as (x7 & -> & H7).
  exact (head_returns net layers num_classes n _ _ x7 Hnet H7 (proj1 P5) (proj2 P5)).
Qed.

(** In training mode a single image whose last feature map is one pixel
    makes the network raise, in the first normalisation of the last stage. *)
Lemma network_forward_raises (net : ResNet.t BasicBlock.t) (layers : list nat)
    (num_classes h w : nat) (x : Tensor) :
  assembled net layers num_classes ->
  shape x = [1; 3; h; w] -> 1 <= h -> 1 <= w ->
  final_size h = 1 -> final_size w = 1 ->
  strided (strided (strided (strided h 2) 2) 2) 2
  * strided (strided (strided (strided w 2) 2) 2) 2 <> 1 ->
  ResNet.forward true net x = None.
Proof.
  intros Hnet Hx Hh Hw Hfh Hfw Hbig.
  pose proof Hnet as (Hc1 & _ & Hb1 & Hmp & Hl1 & Hl2 & Hl3 & Hl4 & _).
  rewrite forward_is_stem_stages_head. unfold final_size in Hfh, Hfw.
  set (h1 := strided h 2) in *. set (w1 := strided w 2) in *.
  set (h2 := strided h1 2) in *. set (w2 := strided w1 2) in *.
  set (h3 := strided h2 2) in *. set (w3 := strided w2 2) in *.
  set (h4 := strided h3 2) in *. set (w4 := strided w3 2) in *.
  assert (P1 : 1 <= h1 /\ 1 <= w1) by (split; apply strided_pos).
  assert (P2 : 1 <= h2 /\ 1 <= w2) by (split; apply strided_pos).
  assert (P3 : 1 <= h3 /\ 1 <= w3) by (split; apply strided_pos).
  assert (P4 : 1 <= h4 /\ 1 <= w4) by (split; apply strided_pos).
  assert (L43 : h4 <= h3 /\ w4 <= w3) by (split; apply strided_le; tauto).
  assert (L32 : h3 <= h2 /\ w3 <= w2) by (split; apply strided_le; tauto).
  assert (L21 : h2 <= h1 /\ w2 <= w1) by (split; apply strided_le; tauto).
  assert (B4 : true = true -> 1 * h4 * w4 <> 1) by (intros _; lia).
  assert (B3 : true = true -> 1 * h3 * w3 <> 1).
  { apply (batch_ok_larger true 1 _ _ _ _ B4); tauto. }
  assert (B2 : true = true -> 1 * h2 * w2 <> 1).
  { apply (batch_ok_larger true 1 _ _ _ _ B3); tauto. }
  assert (B1 : true = true -> 1 * h1 * w1 <> 1).
  { apply (batch_ok_larger true 1 _ _ _ _ B2); tauto. }
  destruct (conv_returns _ 3 64 2 3 1 h w x Hc1 Hx Hh Hw (le_S _ _ (le_n 1)))
    as (x1 & -> & H1).
  destruct (norm_returns true _ _ _ _ _ x1 Hb1 H1 B1) as (x2 & -> & H2).
  rewrite Hmp.
  destruct (pool_returns 1 64 h1 w1 (relu x2) H2 ltac:(lia) (proj1 P1) (proj2 P1))
    as (x3 & -> & H3).
  destruct (stage_returns true _ _ _ _ _ 1 h2 w2 x3 Hl1 H3 (proj1 P2) (proj2 P2)
              (le_n 1)) as (x4 & -> & H4).
  { rewrite !strided_one by tauto. exact B2. }
  rewrite !strided_one in H4 by tauto.
  destruct (stage_returns true _ _ _ _ _ 1 h2 w2 x4 Hl2 H4 (proj1 P2) (proj2 P2)
              (le_S _ _ (le_n 1)) B3) as (x5 & -> & H5).
  destruct (stage_returns true _ _ _ _ _ 1 h3 w3 x5 Hl3 H5 (proj1 P3) (proj2 P3)
              (le_S _ _ (le_n 1)) B4) as (x6 & -> & H6).
  rewrite (stage_raises _ _ _ _ _ 1 h4 w4 x6 Hl4 H6 (proj1 P4) (proj2 P4)
             (le_S _ _ (le_n 1))); [reflexivity|].
  rewrite Hfh, Hfw. reflexivity.
Qed.

End WithNumerics.

(** *** The stages *)

Definition stages (net : ResNet.t BasicBlock.t) : list (list BasicBlock.t) :=
  [ResNet.layer1 net; ResNet.layer2 net; ResNet.layer3 net; ResNet.layer4 net].

(** The width [W_i] and the stride [S_i] of stage [i], and the value of the
    input-channel tracker when the stage is built. *)
Definition widths : list nat := [64; 128; 256; 512].

Definition stage_stride (i : nat) : nat := if i =? 0 then 1 else 2.

Definition tracker_before (i : nat) : nat :=
  match i with
  | 0 => 64
  | S j => nth j widths 0
  end.

Lemma stage_length (st : list BasicBlock.t) (ic oc s count : nat) :
  stage_is st ic oc s count -> length st = Nat.max 1 count.
Proof.
  intros (first & rest & -> & Hlen & _). cbn [length]. rewrite Hlen. lia.
Qed.

(** C5, as amended.  Stage [i] holds [max(1, count[i])] blocks: the first
    block is always built.  The first block has stride [S_i], takes the
    tracked width to [W_i], and has a downsample transform exactly when
    [S_i <> 1] or the tracked width differs from [W_i]; that transform is a
    1x1 convolution of stride [S_i] without bias followed by a normalisation
    over [W_i] channels, and on every input it returns the shape the main
    path of the block returns.  Every later block has stride 1, width [W_i]
    in and out, and no downsample transform.  The tracker is [W_i] after
    the stage, so the next stage starts from it, and 512 at the end. *)
Theorem stage_structure (layers : list nat) (num_classes : nat)
    (init : Init (ResNet.t BasicBlock.t)) (g : Generator) :
  ResNet.__init__ layers num_classes = Some init ->
  let net := fst (init g) in
  (forall i, i < 4 ->
     stage_is (nth i (stages net) []) (tracker_before i) (nth i widths 0)
              (stage_stride i) (nth i layers 0)
     /\ length (nth i (stages net) []) = Nat.max 1 (nth i layers 0)
     /\ tracker_before (S i) = nth i widths 0)
  /\ ResNet.in_channels net = 512
  /\ (forall (N : Numerics) (training : bool) (b : BasicBlock.t)
             (ic oc s n h w : nat) (x : Tensor),
        block_is b ic oc s ->
        shape x = [n; ic; h; w] -> 1 <= h -> 1 <= w -> 1 <= s ->
        (training = true -> n * strided h s * strided w s <> 1) ->
        exists f identity,
          F training b x = Some f
          /\ shortcut training b x = Some identity
          /\ shape identity = shape f
          /\ shape f = [n; oc; strided h s; strided w s]).
Proof.
  intros Hinit net.
  destruct (init_assembled layers num_classes init g Hinit) as (_ & Hnet).
  fold net in Hnet.
  destruct Hnet as (_ & _ & _ & _ & Hl1 & Hl2 & Hl3 & Hl4 & _ & _ & _ & Htr).
  split; [|split; [exact Htr|]].
  - intros i Hi.
    destruct i as [|[|[|[|i]]]]; [| | | |lia]; simpl;
      (split; [assumption|]); (split; [|reflexivity]);
      eapply stage_length; eassumption.
  - intros N training b ic oc s n h w x Hb Hx Hh Hw Hs Hbatch.
    pose proof Hb as (Hc1 & Hb1 & Hc2 & Hb2 & _).
    destruct (F_returns training b ic oc s n h w x Hc1 Hb1 Hc2 Hb2 Hx Hh Hw Hs Hbatch)
      as (f & Hf & Hfs).
    destruct (shortcut_returns training b ic oc s n h w x Hb Hx Hh Hw Hs Hbatch)
      as (i & Hi & His).
    exists f, i. repeat split; congruence.
Qed.


(** C6, as amended.  The network [resnet18()] is the stem (7x7 stride-2
    convolution, normalisation, activation, 3x3 stride-2 max-pool), four
    stages of two blocks, global average pooling, flattening and a linear
    map to 10 scores, which is the last operation.  On [(N, 3, 224, 224)] it
    returns [(N, 10)] for every [N] in either mode; on [(N, 3, 32, 32)] it
    returns [(N, 10)] for every [N] in inference mode and for every [N]
    other than 1 in training mode. *)
Theorem resnet18_output_shape (N : Numerics)
    (init : Init (ResNet.t BasicBlock.t)) (g : Generator) :
  resnet18 = Some init ->
  let net := fst (init g) in
  assembled net [2; 2; 2; 2] 10
  /\ (forall training x,
        ResNet.forward training net x
        = (x <- Conv2d.forward (ResNet.conv1 net) x ;;
           x <- BatchNorm2d.forward training (ResNet.bn1 net) x ;;
           x <- MaxPool2d.forward (ResNet.maxpool net) (relu x) ;;
           x <- through training (ResNet.layer1 net) x ;;
           x <- through training (ResNet.layer2 net) x ;;
           x <- through training (ResNet.layer3 net) x ;;
           x <- through training (ResNet.layer4 net) x ;;
           x <- AdaptiveAvgPool2d.forward (ResNet.avgpool net) x ;;
           x <- flatten1 x ;;
           Linear.forward (ResNet.fc net) x))
  /\ (forall training n x,
        shape x = [n; 3; 224; 224] ->
        exists y, ResNet.forward training net x = Some y /\ shape y = [n; 10])
  /\ (forall training n x,
        shape x = [n; 3; 32; 32] -> (training = true -> n <> 1) ->
        exists y, ResNet.forward training net x = Some y /\ shape y = [n; 10]).
Proof.
  intros Hinit net.
  destruct (init_assembled [2; 2; 2; 2] 10 init g Hinit) as (_ & Hnet).
  fold net in Hnet.
  split; [exact Hnet|]. split; [|split].
  - intros training x. apply forward_is_stem_stages_head.
  - intros training n x Hx.
    apply (network_forward_returns training net [2; 2; 2; 2] 10 n 224 224 x Hnet Hx);
      [lia|lia|].
    intros _. change (final_size 224) with 7. lia.
  - intros training n x Hx Hn.
    apply (network_forward_returns training net [2; 2; 2; 2] 10 n 32 32 x Hnet Hx);
      [lia|lia|].
    intros Ht. change (final_size 32) with 1. specialize (Hn Ht). lia.
Qed.

(** *** Samples *)

(** A reciprocal square root, a generator and two images to run the
    statements on.  No shape depends on them. *)
Definition sample_numerics : Numerics := {| rsqrt := fun _ => 1%Q |}.

Definition sample_generator : Generator := {| position := 0; stream := fun _ => 0%Q |}.

Definition images (n h w : nat) : Tensor :=
  {| shape := [n; 3; h; w]; data := repeat 0%Q (n * 3 * h * w) |}.

Lemma resnet_init_Some (layers : list nat) (num_classes : nat) :
  4 <= length layers ->
  exists init, ResNet.__init__ (B := BasicBlock.t) layers num_classes = Some init.
Proof.
  intro Hlen. destruct layers as [|a [|b [|c [|d layers]]]]; simpl in Hlen; try lia.
  unfold ResNet.__init__. cbn [nth_error]. eexists. reflexivity.
Qed.

(** The amended C6 on two small images in training mode. *)
Lemma resnet18_output_shape_witness :
  exists init y,
    resnet18 = Some init
    /\ ResNet.forward (H0 := sample_numerics) true (fst (init sample_generator))
                      (images 2 32 32) = Some y
    /\ shape y = [2; 10].
Proof.
  destruct (resnet_init_Some [2; 2; 2; 2] 10 ltac:(simpl; lia)) as (init & Hinit).
  destruct (resnet18_output_shape sample_numerics init sample_generator Hinit)
    as (_ & _ & _ & Hsmall).
  destruct (Hsmall true 2 (images 2 32 32) eq_refl ltac:(intros _; lia))
    as (y & Hy & Hs).
  exists init, y. split; [exact Hinit|]. split; [exact Hy|exact Hs].
Defined.

(** C6 as stated fails for one 32x32 image in training mode: the last stage
    reduces the feature map to one pixel, and its first normalisation
    refuses a batch with a single value per channel. *)
Lemma resnet18_raises_on_one_small_image :
  exists init,
    resnet18 = Some init
    /\ ResNet.forward (H0 := sample_numerics) true (fst (init sample_generator))
                      (images 1 32 32) = None.
Proof.
  destruct (resnet_init_Some [2; 2; 2; 2] 10 ltac:(simpl; lia)) as (init & Hinit).
  exists init. split; [exact Hinit|].
  destruct (init_assembled [2; 2; 2; 2] 10 init sample_generator Hinit)
    as (_ & Hnet).
  apply (network_forward_raises (H := sample_numerics) _ [2; 2; 2; 2] 10 32 32
           (images 1 32 32) Hnet eq_refl); [lia|lia|reflexivity|reflexivity|].
  change (strided (strided (strided (strided 32 2) 2) 2) 2) with 2. lia.
Qed.

(** The amended C5 on [resnet18()]: two blocks in every stage, a
    downsample transform in the first block of stages 1 to 3 only. *)
Lemma stage_structure_witness :
  exists init,
    ResNet.__init__ (B := BasicBlock.t) [2; 2; 2; 2] 10 = Some init
    /\ map (@length BasicBlock.t) (stages (fst (init sample_generator)))
       = [2; 2; 2; 2]
    /\ ResNet.in_channels (fst (init sample_generator)) = 512.
Proof.
  destruct (resnet_init_Some [2; 2; 2; 2] 10 ltac:(simpl; lia)) as (init & Hinit).
  exists init. split; [exact Hinit|].
  destruct (stage_structure [2; 2; 2; 2] 10 init sample_generator Hinit)
    as (Hstages & Htracker & _).
  split; [|exact Htracker].
  destruct (Hstages 0 ltac:(lia)) as (_ & H0 & _).
  destruct (Hstages 1 ltac:(lia)) as (_ & H1 & _).
  destruct (Hstages 2 ltac:(lia)) as (_ & H2 & _).
  destruct (Hstages 3 ltac:(lia)) as (_ & H3 & _).
  unfold stages in *. cbn [nth map] in *.
  rewrite H0, H1, H2, H3. reflexivity.
Defined.

(** C5 as stated fails for a stage whose count is zero: the first block is
    built before the count is looked at, so the stage holds one block. *)
Lemma stage_of_count_zero_has_one_block :
  exists init,
    ResNet.__init__ (B := BasicBlock.t) [0; 2; 2; 2] 10 = Some init
    /\ nth 0 [0; 2; 2; 2] 0 = 0
    /\ length (ResNet.layer1 (fst (init sample_generator))) = 1.
Proof.
  destruct (resnet_init_Some [0; 2; 2; 2] 10 ltac:(simpl; lia)) as (init & Hinit).
  exists init. split; [exact Hinit|]. split; [reflexivity|].
  destruct (init_assembled [0; 2; 2; 2] 10 init sample_generator Hinit)
    as (_ & _ & _ & _ & _ & Hl1 & _).
  exact (stage_length _ _ _ _ _ Hl1).
Qed.


End ResNetFacts.

(** ** The two [SimpleCNN] definitions *)

Module SimpleCNNFacts.
Import Scalar torch nn LayerFacts.







(** *** Shapes through the trunk *)



(** *** The values of a linear layer *)














End SimpleCNNFacts.

(* ================================================================== *)
(** * Properties of the rest of the notebooks *)
(* ================================================================== *)

(** ** More on the average *)

Module AverageMeterOrder.
Import Scalar AverageMeter AverageMeterFacts.








(** *** Runs *)



End AverageMeterOrder.

(** ** Shapes through the small networks *)

Module SmallNetFacts.
Import Scalar torch nn LayerFacts.




















(** *** What the redefinition prints *)






(** *** Runs *)




End SmallNetFacts.

(** ** The residual network on every input size *)

Module ResNetSizes.
Import Scalar torch nn LayerFacts BasicBlockFacts ResNetFacts.

Lemma strided_two_le (a b : nat) : 1 <= a -> 1 <= b -> strided a 2 <= b <-> a <= 2 * b.
Proof.
  intros Ha Hb. unfold strided.
  pose proof (Nat.div_mod_eq (a - 1) 2) as E.
  pose proof (Nat.mod_upper_bound (a - 1) 2 ltac:(lia)) as Hm.
  lia.
Qed.

(** The last feature map is one pixel high exactly for images of at most
    32 pixels: every stage halves, rounding up. *)
Lemma final_size_one (h : nat) : 1 <= h -> final_size h = 1 <-> h <= 32.
Proof.
  intro Hh. unfold final_size.
  set (h1 := strided h 2). set (h2 := strided h1 2).
  set (h3 := strided h2 2). set (h4 := strided h3 2).
  assert (P1 : 1 <= h1) by apply strided_pos.
  assert (P2 : 1 <= h2) by apply strided_pos.
  assert (P3 : 1 <= h3) by apply strided_pos.
  assert (P4 : 1 <= h4) by apply strided_pos.
  pose proof (strided_pos h4 2) as P5.
  pose proof (strided_two_le h4 1 P4 (le_n 1)) as E5.
  pose proof (strided_two_le h3 2 P3 ltac:(lia)) as E4.
  pose proof (strided_two_le h2 4 P2 ltac:(lia)) as E3.
  pose proof (strided_two_le h1 8 P1 ltac:(lia)) as E2.
  pose proof (strided_two_le h 16 Hh ltac:(lia)) as E1.
  fold h1 in E1. fold h2 in E2. fold h3 in E3. fold h4 in E4.
  lia.
Qed.

Lemma one_value (n a b : nat) : n * a * b = 1 <-> n = 1 /\ a = 1 /\ b = 1.
Proof.
  split.
  - intro E. apply Nat.eq_mul_1 in E. destruct E as (E & ->).
    apply Nat.eq_mul_1 in E. tauto.
  - intros (-> & -> & ->). reflexivity.
Qed.

(** The first convolution refuses an image without rows or columns. *)
Lemma stem_raises (c : Conv2d.t) (n h w : nat) (x : Tensor) :
  conv_is c 3 64 7 2 3 -> shape x = [n; 3; h; w] -> h = 0 \/ w = 0 ->
  Conv2d.forward c x = None.
Proof.
  intros (Hin & Hout & Hk & Hs & Hp) Hx Hzero.
  apply (raises _ _ (conv_shape c x)).
  rewrite Hx. unfold Conv2d.forward_shape, window_out. cbn [as_batch].
  rewrite Hin, Nat.eqb_refl, Hk, Hs, Hp. cbn [negb Nat.eqb orb].
  destruct Hzero as [-> | ->]; [reflexivity|].
  destruct (h + 2 * 3 <? 7); reflexivity.
Qed.

Section WithNumerics.
Context `{Numerics}.

(** In training mode a single image whose last feature map is one pixel
    makes the network raise, at the first normalisation that is given a
    single value per channel. *)
Lemma network_raises_on_one_value (net : ResNet.t BasicBlock.t) (layers : list nat)
    (num_classes h w : nat) (x : Tensor) :
  assembled net layers num_classes ->
  shape x = [1; 3; h; w] -> 1 <= h -> 1 <= w ->
  final_size h = 1 -> final_size w = 1 ->
  ResNet.forward true net x = None.
Proof.
  intros Hnet Hx Hh Hw Hfh Hfw.
  destruct (Nat.eq_dec (strided (strided (strided (strided h 2) 2) 2) 2
                        * strided (strided (strided (strided w 2) 2) 2) 2) 1)
    as [E4|E4].
  2:{ exact (network_forward_raises net layers num_classes h w x Hnet Hx Hh Hw
               Hfh Hfw E4). }
  pose proof Hnet as (Hc1 & _ & Hb1 & Hmp & Hl1 & Hl2 & Hl3 & Hl4 & _).
  rewrite forward_is_stem_stages_head.
  set (h1 := strided h 2) in *. set (w1 := strided w 2) in *.
  set (h2 := strided h1 2) in *. set (w2 := strided w1 2) in *.
  set (h3 := strided h2 2) in *. set (w3 := strided w2 2) in *.
  set (h4 := strided h3 2) in *. set (w4 := strided w3 2) in *.
  assert (P1 : 1 <= h1 /\ 1 <= w1) by (split; apply strided_pos).
  assert (P2 : 1 <= h2 /\ 1 <= w2) by (split; apply strided_pos).
  assert (P3 : 1 <= h3 /\ 1 <= w3) by (split; apply strided_pos).
  assert (P4 : 1 <= h4 /\ 1 <= w4) by (split; apply strided_pos).
  assert (L43 : h4 <= h3 /\ w4 <= w3) by (split; apply strided_le; tauto).
  assert (L32 : h3 <= h2 /\ w3 <= w2) by (split; apply strided_le; tauto).
  assert (L21 : h2 <= h1 /\ w2 <= w1) by (split; apply strided_le; tauto).
  destruct (conv_returns _ 3 64 2 3 1 h w x Hc1 Hx Hh Hw (le_S _ _ (le_n 1)))
    as (x1 & -> & H1). fold h1 w1 in H1.
  destruct (Nat.eq_dec (h1 * w1) 1) as [E1|E1].
  { rewrite (norm_raises _ _ _ _ _ x1 H1); [reflexivity|lia]. }
  assert (B1 : true = true -> 1 * h1 * w1 <> 1) by (intros _; lia).
  destruct (norm_returns true _ _ _ _ _ x1 Hb1 H1 B1) as (x2 & -> & H2).
  rewrite Hmp.
  destruct (pool_returns 1 64 h1 w1 (relu x2) H2 ltac:(lia) (proj1 P1) (proj2 P1))
    as (x3 & -> & H3). fold h2 w2 in H3.
  destruct (Nat.eq_dec (h2 * w2) 1) as [E2|E2].
  { rewrite (stage_raises _ _ _ _ _ 1 h2 w2 x3 Hl1 H3 (proj1 P2) (proj2 P2) (le_n 1));
      [reflexivity|].
    rewrite !strided_one by tauto. lia. }
  assert (B2 : true = true -> 1 * h2 * w2 <> 1) by (intros _; lia).
  destruct (stage_returns true _ _ _ _ _ 1 h2 w2 x3 Hl1 H3 (proj1 P2) (proj2 P2)
              (le_n 1)) as (x4 & -> & H4).
  { rewrite !strided_one by tauto. exact B2. }
  rewrite !strided_one in H4 by tauto.
  destruct (Nat.eq_dec (h3 * w3) 1) as [E3|E3].
  { rewrite (stage_raises _ _ _ _ _ 1 h2 w2 x4 Hl2 H4 (proj1 P2) (proj2 P2)
               (le_S _ _ (le_n 1))); [reflexivity|].
    fold h3 w3. lia. }
  assert (B3 : true = true -> 1 * h3 * w3 <> 1) by (intros _; lia).
  destruct (stage_returns true _ _ _ _ _ 1 h2 w2 x4 Hl2 H4 (proj1 P2) (proj2 P2)
              (le_S _ _ (le_n 1)) B3) as (x5 & -> & H5).
  rewrite (stage_raises _ _ _ _ _ 1 h3 w3 x5 Hl3 H5 (proj1 P3) (proj2 P3)
             (le_S _ _ (le_n 1))); [reflexivity|].
  fold h4 w4. lia.
Qed.

End WithNumerics.

(** X6.  [ResNet(BasicBlock, layers, num_classes)] on a batch of [n]
    three-channel images of [h] by [w] pixels.  In inference mode it returns
    [n] rows of [num_classes] scores for every image that has a row and a
    column.  In training mode it raises on a batch of one image of at most
    32 by 32 pixels, whose last feature map is a single pixel, and returns
    on every other batch. *)
Theorem ResNet_returns_except_on_one_value (N : Numerics) (training : bool)
    (layers : list nat) (num_classes : nat) (init : Init (ResNet.t BasicBlock.t))
    (g : Generator) (n h w : nat) (x : Tensor) :
  ResNet.__init__ layers num_classes = Some init ->
  shape x = [n; 3; h; w] ->
  let net := fst (init g) in
  (ResNet.forward training net x <> None
   <-> 1 <= h /\ 1 <= w /\ ~ (training = true /\ n = 1 /\ h <= 32 /\ w <= 32))
  /\ (forall y, ResNet.forward training net x = Some y -> shape y = [n; num_classes]).
Proof.
  intros Hinit Hx net.
  destruct (init_assembled layers num_classes init g Hinit) as (_ & Hnet).
  fold net in Hnet.
  assert (Hone : forall Hh : 1 <= h, forall Hw : 1 <= w,
            n * final_size h * final_size w = 1 <-> n = 1 /\ h <= 32 /\ w <= 32).
  { intros Hh Hw. rewrite one_value, (final_size_one h Hh), (final_size_one w Hw).
    tauto. }
  assert (Hreturns : 1 <= h -> 1 <= w ->
            ~ (training = true /\ n = 1 /\ h <= 32 /\ w <= 32) ->
            exists y, ResNet.forward training net x = Some y
                      /\ shape y = [n; num_classes]).
  { intros Hh Hw Hok.
    apply (network_forward_returns training net layers num_classes n h w x Hnet Hx Hh Hw).
    intros Ht E. apply Hok. split; [exact Ht|]. apply (Hone Hh Hw). exact E. }
  split.
  - split.
    + intro Hne.
      destruct (Nat.eq_dec h 0) as [Eh|Eh].
      { exfalso. apply Hne. rewrite forward_is_stem_stages_head.
        destruct Hnet as (Hc1 & _).
        rewrite (stem_raises _ n h w x Hc1 Hx (or_introl Eh)). reflexivity. }
      destruct (Nat.eq_dec w 0) as [Ew|Ew].
      { exfalso. apply Hne. rewrite forward_is_stem_stages_head.
        destruct Hnet as (Hc1 & _).
        rewrite (stem_raises _ n h w x Hc1 Hx (or_intror Ew)). reflexivity. }
      split; [lia|]. split; [lia|].
      intros (-> & -> & Hh32 & Hw32). apply Hne.
      apply (network_raises_on_one_value net layers num_classes h w x Hnet Hx);
        try lia; apply final_size_one; lia.
    + intros (Hh & Hw & Hok). destruct (Hreturns Hh Hw Hok) as (y & -> & _).
      discriminate.
  - intros y Hy.
    destruct (Nat.eq_dec h 0) as [Eh|Eh].
    { rewrite forward_is_stem_stages_head in Hy. destruct Hnet as (Hc1 & _).
      rewrite (stem_raises _ n h w x Hc1 Hx (or_introl Eh)) in Hy. discriminate. }
    destruct (Nat.eq_dec w 0) as [Ew|Ew].
    { rewrite forward_is_stem_stages_head in Hy. destruct Hnet as (Hc1 & _).
      rewrite (stem_raises _ n h w x Hc1 Hx (or_intror Ew)) in Hy. discriminate. }
    assert (Hok : ~ (training = true /\ n = 1 /\ h <= 32 /\ w <= 32)).
    { intros (-> & -> & Hh32 & Hw32).
      rewrite (network_raises_on_one_value net layers num_classes h w x Hnet Hx) in Hy;
        try lia; try discriminate; apply final_size_one; lia. }
    destruct (Hreturns ltac:(lia) ltac:(lia) Hok) as (y' & Hy' & Hs).
    congruence.
Qed.

(** *** A block that is given no downsample transform *)

Lemma strided_same (h s : nat) : 1 <= h -> 1 <= s -> strided h s = h <-> s = 1 \/ h = 1.
Proof.
  intros Hh Hs. unfold strided. split.
  - intro E. destruct (Nat.eq_dec s 1) as [->|Hs1]; [left; reflexivity|right].
    destruct (Nat.eq_dec h 1) as [->|Hh1]; [reflexivity|exfalso].
    assert ((h - 1) / s < h - 1) by (apply Nat.div_lt; lia). lia.
  - intros [-> | ->].
    + rewrite Nat.div_1_r. lia.
    + simpl. rewrite Nat.Div0.div_0_l. reflexivity.
Qed.

(** X7.  [BasicBlock(in_channels, out_channels, stride)] with the default
    [downsample=None] adds its input to the result of its two convolutions
    in place, so the input must broadcast to that result: the block returns
    exactly when the input has [out_channels] channels or one, and the
    stride is 1 or the image a single pixel; any other block raises at
    [out += identity]. *)
Theorem BasicBlock_without_downsample (N : Numerics) (training : bool)
    (in_channels out_channels stride : nat) (g : Generator)
    (n h w : nat) (x : Tensor) :
  shape x = [n; in_channels; h; w] -> 1 <= h -> 1 <= w -> 1 <= stride ->
  (training = true -> n * strided h stride * strided w stride <> 1) ->
  let b := fst (BasicBlock.__init__ in_channels out_channels stride None g) in
  (BasicBlock.forward training b x <> None
   <-> (in_channels = out_channels \/ in_channels = 1)
       /\ (stride = 1 \/ (h = 1 /\ w = 1)))
  /\ (forall y, BasicBlock.forward training b x = Some y ->
                shape y = [n; out_channels; strided h stride; strided w stride]).
Proof.
  intros Hx Hh Hw Hs Hbatch b.
  destruct (block_init_fields in_channels out_channels stride None g)
    as (Hc1 & Hb1 & Hc2 & Hb2 & Hds).
  fold b in Hc1, Hb1, Hc2, Hb2, Hds.
  rewrite forward_is_residual.
  destruct (F_returns training b _ _ _ n h w x Hc1 Hb1 Hc2 Hb2 Hx Hh Hw Hs Hbatch)
    as (f & -> & Hf).
  unfold shortcut. rewrite Hds.
  pose proof (iadd_shape_of f x) as Hadd.
  rewrite Hf, Hx in Hadd. unfold iadd_shape, broadcastable in Hadd.
  cbn [length Nat.leb Nat.sub skipn dims_match] in Hadd.
  rewrite Nat.eqb_refl in Hadd. cbn [orb andb] in Hadd. rewrite andb_true_r in Hadd.
  pose proof (strided_same h stride Hh Hs) as Sh.
  pose proof (strided_same w stride Hw Hs) as Sw.
  assert (Hrule :
    ((in_channels =? out_channels) || (in_channels =? 1))
    && (((h =? strided h stride) || (h =? 1))
        && ((w =? strided w stride) || (w =? 1))) = true
    <-> (in_channels = out_channels \/ in_channels = 1)
        /\ (stride = 1 \/ (h = 1 /\ w = 1))).
  { rewrite !andb_true_iff, !orb_true_iff, !Nat.eqb_eq.
    split.
    - intros (Hc & Hhh & Hww). split; [exact Hc|].
      assert (stride = 1 \/ h = 1) by (destruct Hhh; [apply Sh; congruence|tauto]).
      assert (stride = 1 \/ w = 1) by (destruct Hww; [apply Sw; congruence|tauto]).
      tauto.
    - intros (Hc & Hst). split; [exact Hc|].
      split; [left; symmetry; apply Sh; tauto|left; symmetry; apply Sw; tauto]. }
  destruct (_ && _) eqn:E in Hadd.
  - destruct (iadd f x) as [o|]; [|discriminate]. simpl in Hadd.
    split.
    + split; [intros _; apply Hrule; exact E|discriminate].
    + intros y Hy. injection Hy as <-. rewrite relu_shape. congruence.
  - destruct (iadd f x) as [o|]; [discriminate|].
    split.
    + split; [intro Hne; exfalso; apply Hne; reflexivity|].
      intro Hc. apply Hrule in Hc. congruence.
    + discriminate.
Qed.

(** *** The pretrained network with a new head *)

Lemma load_resnet18_fields (pretrained : ResNet.t BasicBlock.t) (num_classes : nat)
    (g : Generator) :
  let model := fst (load_resnet18 pretrained num_classes g) in
  ResNet.conv1 model = ResNet.conv1 pretrained
  /\ ResNet.bn1 model = ResNet.bn1 pretrained
  /\ ResNet.maxpool model = ResNet.maxpool pretrained
  /\ ResNet.layer1 model = ResNet.layer1 pretrained
  /\ ResNet.layer2 model = ResNet.layer2 pretrained
  /\ ResNet.layer3 model = ResNet.layer3 pretrained
  /\ ResNet.layer4 model = ResNet.layer4 pretrained
  /\ ResNet.avgpool model = ResNet.avgpool pretrained
  /\ ResNet.in_channels model = ResNet.in_channels pretrained
  /\ Linear.in_features (ResNet.fc model) = Linear.in_features (ResNet.fc pretrained)
  /\ Linear.out_features (ResNet.fc model) = num_classes.
Proof.
  unfold load_resnet18. rewrite bind_run. unfold ret.
  cbn [fst ResNet.conv1 ResNet.bn1 ResNet.maxpool ResNet.layer1 ResNet.layer2
       ResNet.layer3 ResNet.layer4 ResNet.avgpool ResNet.in_channels ResNet.fc].
  repeat (split; [reflexivity|]).
  split; apply linear_init_is.
Qed.

(** X8.  [load_resnet18] replaces the classifier of the pretrained network
    and nothing else: every layer before the head is the pretrained one,
    and a network that was assembled for 1000 classes returns
    [num_classes] scores per image after the call, under the conditions of
    the network itself. *)
Theorem load_resnet18_replaces_the_head (N : Numerics) (training : bool)
    (pretrained : ResNet.t BasicBlock.t) (num_classes : nat) (g : Generator)
    (n h w : nat) (x : Tensor) :
  assembled pretrained [2; 2; 2; 2] 1000 ->
  shape x = [n; 3; h; w] -> 1 <= h -> 1 <= w ->
  ~ (training = true /\ n = 1 /\ h <= 32 /\ w <= 32) ->
  let model := fst (load_resnet18 pretrained num_classes g) in
  (ResNet.conv1 model, ResNet.bn1 model, ResNet.maxpool model,
   ResNet.layer1 model, ResNet.layer2 model, ResNet.layer3 model,
   ResNet.layer4 model, ResNet.avgpool model)
  = (ResNet.conv1 pretrained, ResNet.bn1 pretrained, ResNet.maxpool pretrained,
     ResNet.layer1 pretrained, ResNet.layer2 pretrained, ResNet.layer3 pretrained,
     ResNet.layer4 pretrained, ResNet.avgpool pretrained)
  /\ (exists y, ResNet.forward training pretrained x = Some y /\ shape y = [n; 1000])
  /\ (exists y, ResNet.forward training model x = Some y
                /\ shape y = [n; num_classes]).
Proof.
  intros Hpre Hx Hh Hw Hok model.
  destruct (load_resnet18_fields pretrained num_classes g)
    as (E1 & E2 & E3 & E4 & E5 & E6 & E7 & E8 & E9 & Ei & Eo).
  fold model in E1, E2, E3, E4, E5, E6, E7, E8, E9, Ei, Eo.
  assert (Hbatch : training = true -> n * final_size h * final_size w <> 1).
  { intros Ht E. apply Hok. split; [exact Ht|].
    apply one_value in E. destruct E as (-> & Efh & Efw).
    apply final_size_one in Efh; [|exact Hh]. apply final_size_one in Efw; [|exact Hw].
    tauto. }
  split; [rewrite E1, E2, E3, E4, E5, E6, E7, E8; reflexivity|].
  split.
  - exact (network_forward_returns training pretrained _ _ n h w x Hpre Hx Hh Hw Hbatch).
  - apply (network_forward_returns training model [2; 2; 2; 2] num_classes n h w x);
      try assumption.
    unfold assembled in *. rewrite E1, E2, E3, E4, E5, E6, E7, E8, E9, Ei, Eo.
    tauto.
Qed.

(** *** Runs *)

(** One image in training mode: the network returns on 64x64 pixels and
    raises on 32x32. *)
Lemma ResNet_returns_except_on_one_value_witness :
  exists init,
    ResNet.__init__ (B := BasicBlock.t) [2; 2; 2; 2] 10 = Some init
    /\ (exists y, ResNet.forward (H0 := sample_numerics) true
                    (fst (init sample_generator)) (images 1 64 64) = Some y
                  /\ shape y = [1; 10])
    /\ ResNet.forward (H0 := sample_numerics) true
         (fst (init sample_generator)) (images 1 32 32) = None.
Proof.
  destruct (resnet_init_Some [2; 2; 2; 2] 10 ltac:(simpl; lia)) as (init & Hinit).
  exists init. split; [exact Hinit|]. split.
  - destruct (ResNet_returns_except_on_one_value sample_numerics true [2; 2; 2; 2] 10
                init sample_generator 1 64 64 (images 1 64 64) Hinit eq_refl)
      as (Hiff & Hshape).
    destruct (ResNet.forward true (fst (init sample_generator)) (images 1 64 64))
      as [y|].
    + exists y. split; [reflexivity|]. exact (Hshape y eq_refl).
    + exfalso. apply (proj2 Hiff); [|reflexivity].
      split; [lia|]. split; [lia|]. intros (_ & _ & Hh & _). lia.
  - destruct (ResNet_returns_except_on_one_value sample_numerics true [2; 2; 2; 2] 10
                init sample_generator 1 32 32 (images 1 32 32) Hinit eq_refl)
      as (Hiff & _).
    destruct (ResNet.forward true (fst (init sample_generator)) (images 1 32 32))
      as [y|]; [|reflexivity].
    exfalso. destruct (proj1 Hiff ltac:(discriminate)) as (_ & _ & Hno).
    apply Hno. repeat split; lia.
Defined.

(** On two three-channel images of 8x8 pixels a block from 3 to 3 channels
    returns and a block from 3 to 64 channels raises. *)
Lemma BasicBlock_without_downsample_witness :
  (exists y, BasicBlock.forward (H := sample_numerics) true
               (fst (BasicBlock.__init__ 3 3 1 None sample_generator)) (images 2 8 8)
             = Some y
             /\ shape y = [2; 3; 8; 8])
  /\ BasicBlock.forward (H := sample_numerics) true
       (fst (BasicBlock.__init__ 3 64 1 None sample_generator)) (images 2 8 8) = None.
Proof.
  assert (Hbatch : true = true -> 2 * strided 8 1 * strided 8 1 <> 1).
  { intros _ E. vm_compute in E. discriminate E. }
  split.
  - destruct (BasicBlock_without_downsample sample_numerics true 3 3 1 sample_generator
                2 8 8 (images 2 8 8) eq_refl ltac:(lia) ltac:(lia) ltac:(lia) Hbatch)
      as (Hiff & Hshape).
    destruct (BasicBlock.forward true _ (images 2 8 8)) as [y|].
    + exists y. split; [reflexivity|]. exact (Hshape y eq_refl).
    + exfalso. apply (proj2 Hiff); [|reflexivity]. split; left; reflexivity.
  - destruct (BasicBlock_without_downsample sample_numerics true 3 64 1 sample_generator
                2 8 8 (images 2 8 8) eq_refl ltac:(lia) ltac:(lia) ltac:(lia) Hbatch)
      as (Hiff & _).
    destruct (BasicBlock.forward true _ (images 2 8 8)) as [y|]; [|reflexivity].
    exfalso. destruct (proj1 Hiff ltac:(discriminate)) as ([E|E] & _); discriminate E.
Defined.

(** A network assembled for 1000 classes, given a head for 10. *)
Lemma load_resnet18_replaces_the_head_witness :
  exists pretrained y,
    assembled pretrained [2; 2; 2; 2] 1000
    /\ ResNet.forward (H0 := sample_numerics) false
         (fst (load_resnet18 pretrained 10 sample_generator)) (images 2 32 32) = Some y
    /\ shape y = [2; 10].
Proof.
  destruct (resnet_init_Some [2; 2; 2; 2] 1000 ltac:(simpl; lia)) as (init & Hinit).
  destruct (init_assembled [2; 2; 2; 2] 1000 init sample_generator Hinit)
    as (_ & Hnet).
  destruct (load_resnet18_replaces_the_head sample_numerics false
              (fst (init sample_generator)) 10 sample_generator 2 32 32
              (images 2 32 32) Hnet eq_refl ltac:(lia) ltac:(lia)
              ltac:(intros (E & _); discriminate E))
    as (_ & _ & y & Hy & Hs).
  exists (fst (init sample_generator)), y.
  split; [exact Hnet|]. split; [exact Hy|exact Hs].
Defined.

End ResNetSizes.

(** ** Pictures *)

Module VisualizeFacts.
Import Scalar torch Visualize.

(** *** The least and the greatest element *)









(** *** Slices of a batch *)





(** The chunks with one of them replaced. *)
Definition replaced (chunks : list (list Q)) (k : nat) (d : list Q) : list (list Q) :=
  firstn k chunks ++ d :: skipn (S k) chunks.


Lemma Forall_firstn_skipn {A : Type} (P : A -> Prop) (l : list A) (k : nat) :
  Forall P l -> Forall P (firstn k l) /\ Forall P (skipn k l).
Proof.
  intro Hall. rewrite <- (firstn_skipn k l) in Hall.
  apply Forall_app in Hall. exact Hall.
Qed.

Lemma replaced_lengths (m : nat) (chunks : list (list Q)) (k : nat) (d : list Q) :
  Forall (fun d => length d = m) chunks -> length d = m ->
  Forall (fun d => length d = m) (replaced chunks k d).
Proof.
  intros Hall Hd. unfold replaced. apply Forall_app. split.
  - apply (Forall_firstn_skipn _ _ k Hall).
  - constructor; [exact Hd|]. apply (Forall_firstn_skipn _ _ (S k) Hall).
Qed.

(** *** The loop of [plot_images] *)

(** The data of an image after [normalize_image] has written into it. *)
Definition image_after (d : list Q) : list Q :=
  match normalize_image {| shape := []; data := d |} with
  | Some t => data t
  | None => d
  end.





Lemma skipn_S_tl {A : Type} (l : list A) (k : nat) :
  skipn (S k) l = tl (skipn k l).
Proof.
  revert k. induction l as [|a l IH]; intro k.
  - rewrite !skipn_nil. reflexivity.
  - destruct k as [|k]; [reflexivity|]. simpl skipn at 2. rewrite <- IH. reflexivity.
Qed.







Section Loop.
Variables (c h w : nat) (chunks : list (list Q)) (ls : list Z)
          (classes : list string) (normalize : bool) (r : nat).
Hypothesis Hchunks : Forall (fun d => length d = c * h * w) chunks.
Hypothesis Hpixels : 1 <= c * h * w.

Let f : list Q -> list Q := if normalize then image_after else (fun d => d).

Let labels : LongTensor := {| lshape := [length ls]; ldata := ls |}.




End Loop.


(** *** Runs *)


End VisualizeFacts.

(** ** From the picture to the panel *)

Module TransformFacts.
Import Scalar torch Visualize Transforms Predictions.

(** *** Tables in row-major order *)





(** *** Positions in an image of three channels *)








(** *** Runs *)


End TransformFacts.

(** ** [show_sample_predictions] *)

Module PredictionsFacts.
Import Scalar torch Runner Visualize Predictions LoopFacts VisualizeFacts.



(** *** The predictions *)





Section WithCollaborators.
Context `{Collaborators}.





End WithCollaborators.

(** *** Runs *)


End PredictionsFacts.

(** ** The cells of the second notebook *)

Module ResNetScriptFacts.
Import Scalar torch Runner ResNetScript LoopFacts RunnerFacts.

Section WithCollaborators.
Context `{Collaborators}.




Variable trainloader : nat -> list Batch.


(** *** The evaluation cell *)






End WithCollaborators.

(** *** Runs *)



End ResNetScriptFacts.

(** ** More on the training script *)

Module ScriptFacts.
Import Scalar ScalarFacts torch Runner Driver LoopFacts Checkpoint RunnerFacts DriverFacts.

(** *** The best accuracy *)

(** The final best is the greatest of the starting best and the
    accuracies. *)
Lemma decisions_best (vt : list Q) :
  forall (best : Q) (a : nat),
    let b := snd (decisions best a vt) in
    (best <= b)%Q /\ (forall v, In v vt -> (v <= b)%Q) /\ (b = best \/ In b vt).
Proof.
  induction vt as [|v vt IH]; intros best a; simpl.
  - split; [apply Qle_refl|]. split; [intros v []|left; reflexivity].
  - destruct (Qgtb v best) eqn:E.
    + destruct (IH v (S a)) as (H1 & H2 & H3).
      destruct (decisions v (S a) vt) as [saved b]. simpl in *.
      apply Qgtb_true_iff in E.
      split; [apply Qlt_le_weak; eapply Qlt_le_trans; eassumption|].
      split.
      * intros u [<-|Hu]; [exact H1|apply H2; exact Hu].
      * right. destruct H3 as [->|H3]; [left; reflexivity|right; exact H3].
    + destruct (IH best (S a)) as (H1 & H2 & H3).
      apply Qgtb_false_iff in E.
      split; [exact H1|]. split.
      * intros u [<-|Hu]; [eapply Qle_trans; eassumption|apply H2; exact Hu].
      * destruct H3 as [H3|H3]; [left; exact H3|right; right; exact H3].
Qed.

(** Without a save the best stays. *)
Lemma decisions_unsaved (vt : list Q) :
  forall (best : Q) (a : nat),
    fst (decisions best a vt) = [] -> snd (decisions best a vt) = best.
Proof.
  induction vt as [|v vt IH]; intros best a; simpl; [reflexivity|].
  destruct (Qgtb v best).
  - destruct (decisions v (S a) vt). discriminate.
  - apply IH.
Qed.

(** The epochs that save lie among the epochs that ran. *)
Lemma decisions_range (vt : list Q) :
  forall (best : Q) (a e : nat),
    In e (fst (decisions best a vt)) -> a <= e < a + length vt.
Proof.
  intros best a e Hin. apply saved_iff in Hin. tauto.
Qed.

Section WithCollaborators.
Context `{Collaborators}.
Variable train_loader : nat -> list Batch.
Variable val_loader : list Batch.

Local Abbreviation epoch_body := (Driver.epoch_body train_loader val_loader).
Local Abbreviation training_loop := (Driver.training_loop train_loader val_loader).

(** X15.  When the training cell has run, [best_val_acc] is the greatest
    of 0.0 and the validation accuracies of all epochs: it is not negative,
    no epoch exceeds it, and it is 0.0 or the accuracy of one of the
    epochs. *)
Theorem best_val_acc_is_the_greatest (N : nat) (model : Model)
    (optimizer : OptState) (train_accuracy val_accuracy : MetricState)
    (disk : option (Params * Buffers)) (w : World) :
  training_loop N model optimizer train_accuracy val_accuracy disk = Some w ->
  (0 <= best_val_acc w)%Q
  /\ (forall v, In v (val_accs (events w)) -> (v <= best_val_acc w)%Q)
  /\ (best_val_acc w = 0%Q \/ In (best_val_acc w) (val_accs (events w))).
Proof.
  intro Hrun. apply training_loop_spec in Hrun.
  destruct Hrun as (per_epoch & Hlen & Hev & Hok & _).
  destruct (run_decisions _ _ _ _ Hlen Hev Hok) as (_ & Hd).
  pose proof (decisions_best (val_accs (events w)) 0%Q 0) as Hb.
  rewrite Hd in Hb. exact Hb.
Qed.

(** *** What the file holds *)

(** Two states of the script that differ at most in what was printed. *)
Definition same_script (w w' : World) : Prop :=
  Driver.model w = Driver.model w' /\ optimizer w = optimizer w'
  /\ train_accuracy w = train_accuracy w' /\ val_accuracy w = val_accuracy w'
  /\ best_val_acc w = best_val_acc w' /\ best_model_pth w = best_model_pth w'.

(** [num_epochs] only shows in the printed lines. *)
Lemma epoch_body_lines (N N' : nat) (w w' w1 : World) (e : nat) :
  same_script w w' -> epoch_body N w e = Some w1 ->
  exists w1', epoch_body N' w' e = Some w1' /\ same_script w1 w1'.
Proof.
  intros (Hm & Ho & Hta & Hva & Hb & Hf). unfold Driver.epoch_body.
  rewrite <- Hm, <- Ho, <- Hta, <- Hva, <- Hb, <- Hf.
  destruct (train_one_epoch _ _ _ _ _) as [[[tl ta] ts]|]; [|discriminate].
  destruct (validate _ _ _ _) as [[[vl va] vs]|]; [|discriminate].
  destruct (Qgtb va (best_val_acc w)); intro E; injection E as <-;
    eexists; (split; [reflexivity|]); repeat split.
Qed.

Lemma epochs_lines (N N' : nat) (l : list nat) :
  forall w w' w1,
    same_script w w' ->
    fold_left (fun acc e => w0 <- acc ;; epoch_body N w0 e) l (Some w) = Some w1 ->
    exists w1',
      fold_left (fun acc e => w0 <- acc ;; epoch_body N' w0 e) l (Some w') = Some w1'
      /\ same_script w1 w1'.
Proof.
  induction l as [|e l IH]; intros w w' w1 Hsame Hf.
  - injection Hf as <-. exists w'. split; [reflexivity|exact Hsame].
  - apply (fold_cons_Some (fun w0 e => epoch_body N w0 e)) in Hf.
    destruct Hf as (w2 & Hbody & Hf).
    destruct (epoch_body_lines N N' w w' w2 e Hsame Hbody) as (w2' & Hbody' & Hsame2).
    destruct (IH w2 w2' w1 Hsame2 Hf) as (w1' & Hf' & Hsame1).
    exists w1'. split; [|exact Hsame1]. cbn [fold_left]. rewrite Hbody'. exact Hf'.
Qed.

(** An epoch that saves writes the state the model has at its end. *)
Lemma epoch_body_saves (N : nat) (w w' : World) (e : nat) :
  epoch_body N w e = Some w' ->
  saved_epochs (events w') = saved_epochs (events w) ++ [e] ->
  best_model_pth w' = Some (state_dict (Driver.model w')).
Proof.
  unfold Driver.epoch_body.
  destruct (train_one_epoch _ _ _ _ _) as [[[tl ta] ts]|]; [|discriminate].
  destruct (validate _ _ _ _) as [[[vl va] vs]|]; [|discriminate].
  destruct (Qgtb va (best_val_acc w)); intro E; injection E as <-;
    cbn [events best_model_pth Driver.model]; [reflexivity|].
  rewrite saved_epochs_app. cbn [saved_epochs flat_map app].
  intro Habs. apply app_inv_head in Habs. discriminate.
Qed.

Lemma saved_in_range (N a : nat) (best : Q) (per_epoch : list (list Event))
    (best' : Q) :
  are_epochs N a best per_epoch best' ->
  (forall e, In e (saved_epochs (concat per_epoch)) -> a <= e < a + length per_epoch)
  /\ (saved_epochs (concat per_epoch) = [] -> best' = best).
Proof.
  intro Hok. destruct (are_epochs_decisions _ _ _ _ _ Hok) as (Hlen & Hd).
  split.
  - intros e He. rewrite <- Hlen.
    apply (decisions_range _ best). rewrite Hd. exact He.
  - intro Hnone. pose proof (decisions_unsaved (val_accs (concat per_epoch)) best a) as Hu.
    rewrite Hd in Hu. apply Hu. exact Hnone.
Qed.

Lemma last_of_app (l1 l2 l : list nat) (e : nat) :
  l1 ++ l2 = l ++ [e] -> l2 <> [] -> In e l2.
Proof.
  intros E Hne.
  destruct (exists_last Hne) as (l2' & x & ->).
  rewrite app_assoc in E. apply app_inj_tail in E. destruct E as (_ & ->).
  apply in_or_app. right. left. reflexivity.
Qed.

(** X16.  When the training cell has run and its last checkpoint was
    written at epoch [e], the file holds the state the model had at the end
    of epoch [e], which is the state a run of [e + 1] epochs ends with, and
    [best_val_acc] is the best of that shorter run: the epochs after [e]
    change the model and leave the file. *)
Theorem checkpoint_is_the_model_of_the_last_save (N : nat) (model : Model)
    (optimizer : OptState) (train_accuracy val_accuracy : MetricState)
    (disk : option (Params * Buffers)) (w : World) (earlier : list nat) (e : nat) :
  training_loop N model optimizer train_accuracy val_accuracy disk = Some w ->
  saved_epochs (events w) = earlier ++ [e] ->
  e < N
  /\ exists w_e,
       training_loop (S e) model optimizer train_accuracy val_accuracy disk = Some w_e
       /\ best_model_pth w = Some (state_dict (Driver.model w_e))
       /\ best_val_acc w = best_val_acc w_e.
Proof.
  intros Hrun Hsaved.
  pose proof (training_loop_spec _ _ _ _ _ _ _ _ _ Hrun)
    as (per & Hplen & Hpev & Hpok & _).
  assert (HeN : e < N).
  { destruct (saved_in_range _ _ _ _ _ Hpok) as (Hrange & _).
    specialize (Hrange e). rewrite Hplen in Hrange. apply Hrange.
    rewrite Hpev, saved_epochs_app in Hsaved. cbn [saved_epochs flat_map app] in Hsaved.
    rewrite app_nil_r in Hsaved. rewrite Hsaved. apply in_or_app. right. left.
    reflexivity. }
  split; [exact HeN|].
  unfold Driver.training_loop, Driver.epochs in *.
  match type of Hrun with
  | context [fold_left _ _ (Some ?st)] => set (w0 := st) in *
  end.
  destruct (fold_left _ (seq 0 N) (Some w0)) as [w1|] eqn:Hloop; [|discriminate].
  injection Hrun as <-.
  cbn [close_writer events best_model_pth best_val_acc] in *.
  rewrite saved_epochs_app in Hsaved. cbn [saved_epochs flat_map app] in Hsaved.
  rewrite app_nil_r in Hsaved.
  assert (Hsplit : seq 0 N = seq 0 e ++ [e] ++ seq (S e) (N - S e)).
  { replace N with (e + (1 + (N - S e))) at 1 by lia.
    rewrite seq_app, seq_app. cbn [Nat.add seq].
    replace (e + 1) with (S e) by lia. reflexivity. }
  rewrite Hsplit, !fold_left_app in Hloop.
  destruct (fold_left _ (seq 0 e) (Some w0)) as [wB|] eqn:HB.
  2:{ cbn [fold_left] in Hloop.
      rewrite (fold_None (fun w e => epoch_body N w e)) in Hloop. discriminate. }
  cbn [fold_left] in Hloop.
  destruct (epoch_body N wB e) as [wA|] eqn:HA.
  2:{ rewrite (fold_None (fun w e => epoch_body N w e)) in Hloop. discriminate. }
  destruct (epochs_from train_loader val_loader N e 0 w0 wB HB)
    as (perB & HlenB & HevB & HokB & _).
  destruct (epoch_body_spec train_loader val_loader N wB e wA HA)
    as (va & evs & Hshape & HevA & _ & _).
  destruct (epochs_from train_loader val_loader N (N - S e) (S e) wA w1 Hloop)
    as (perC & HlenC & HevC & HokC & HfileC).
  destruct (saved_in_range _ _ _ _ _ HokB) as (HrangeB & _).
  destruct (saved_in_range _ _ _ _ _ HokC) as (HrangeC & HbestC).
  rewrite HevC, saved_epochs_app in Hsaved.
  assert (HnoC : saved_epochs (concat perC) = []).
  { destruct (saved_epochs (concat perC)) as [|x l] eqn:E; [reflexivity|exfalso].
    assert (Hin : In e (x :: l)) by (apply (last_of_app _ _ _ _ Hsaved); discriminate).
    apply HrangeC in Hin. lia. }
  rewrite HnoC, app_nil_r in Hsaved.
  assert (HsaveA : saved_epochs (events wA) = saved_epochs (events wB) ++ [e]).
  { rewrite HevA, saved_epochs_app. f_equal.
    rewrite (is_epoch_saved _ _ _ _ _ Hshape).
    destruct (Qgtb va (best_val_acc wB)); [reflexivity|exfalso].
    rewrite HevA, saved_epochs_app, (is_epoch_saved _ _ _ _ _ Hshape) in Hsaved.
    rewrite app_nil_r, HevB, saved_epochs_app in Hsaved. cbn [w0 events] in Hsaved.
    cbn [saved_epochs flat_map app] in Hsaved.
    assert (Hin : In e (saved_epochs (concat perB))).
    { rewrite Hsaved. apply in_or_app. right. left. reflexivity. }
    apply HrangeB in Hin. lia. }
  pose proof (epoch_body_saves N wB wA e HA HsaveA) as Hfile.
  assert (HwA : fold_left (fun acc e => w <- acc ;; epoch_body N w e)
                          (seq 0 (S e)) (Some w0) = Some wA).
  { rewrite seq_S, fold_left_app, HB. cbn [fold_left Nat.add]. exact HA. }
  destruct (epochs_lines N (S e) (seq 0 (S e)) w0 w0 wA
              ltac:(repeat split) HwA) as (wA' & HwA' & Hsame).
  destruct Hsame as (Hm & _ & _ & _ & Hb & _).
  fold w0. rewrite HwA'.
  eexists. split; [reflexivity|].
  cbn [close_writer Driver.model best_val_acc].
  rewrite (HfileC HnoC), Hfile, Hm, (HbestC HnoC), Hb. split; reflexivity.
Qed.

(** *** The mode of the model *)

Lemma call_keeps_mode (m m' : Model) (X outputs : Tensor) :
  call m X = Some (outputs, m') -> training m' = training m.
Proof.
  destruct m as [p b g t]. unfold call. cbn [training params buffers grads].
  destruct t.
  - destruct (forward_training p b X) as [[o b']|]; [|discriminate].
    intro E. injection E as _ <-. reflexivity.
  - destruct (forward_inference p b X); [|discriminate].
    intro E. injection E as _ <-. reflexivity.
Qed.

Lemma train_batch_keeps_mode (s s' : TrainState) (b : Batch) :
  train_batch s b = Some s' -> training (t_model s') = training (t_model s).
Proof.
  intro Hb. apply train_batch_spec in Hb.
  destruct Hb as (outputs & m1 & loss & n & preds & metric' & Hcall & _ & Hstep & _).
  apply call_keeps_mode in Hcall. unfold step in Hstep.
  destruct (optimizer_step _ _ _) as [o p]. injection Hstep as _ ->.
  cbn [training backward zero_grad]. exact Hcall.
Qed.

(** X17.  Whatever mode the model arrives in, [train_one_epoch] leaves it
    in training mode and [validate] leaves it as [model.eval()] leaves it, in
    inference mode; neither puts the former mode back.  The training
    cell therefore ends, after one epoch or more, with the model in
    inference mode. *)
Theorem passes_leave_their_mode (model : Model) (dataloader : list Batch)
    (optimizer : OptState) (epoch : nat) (accuracy_metric : MetricState) :
  (forall r s,
     train_one_epoch model dataloader optimizer epoch accuracy_metric = Some (r, s) ->
     training (t_model s) = true)
  /\ (forall r s,
        validate model dataloader epoch accuracy_metric = Some (r, s) ->
        e_model s = eval model /\ training (e_model s) = false)
  /\ (forall N train_accuracy val_accuracy disk w,
        1 <= N ->
        training_loop N model optimizer train_accuracy val_accuracy disk = Some w ->
        training (Driver.model w) = false).
Proof.
  assert (Hval : forall m dl e acc r s,
            validate m dl e acc = Some (r, s) ->
            e_model s = eval m).
  { intros m dl e acc r s Hrun. unfold validate in Hrun.
    match type of Hrun with
    | context [for_each validate_batch _ ?st] => set (start := st) in Hrun
    end.
    destruct (for_each validate_batch dl start) as [s1|] eqn:Hloop; [|discriminate].
    injection Hrun as _ <-. cbn [e_model].
    assert (Hinv : e_model s1 = eval m
                   /\ Forall (fun c => touches_parameters c = false) (e_calls s1)).
    { apply (for_each_invariant validate_batch
               (fun s => e_model s = eval m
                         /\ Forall (fun c => touches_parameters c = false) (e_calls s))
               dl) with (s := start); [| |exact Hloop].
      - intros s0 b s0' _ Hs Hb.
        exact (validate_frame_step (eval m) _ _ _ eq_refl Hs Hb).
      - split; [reflexivity|]. repeat constructor. }
    tauto. }
  split; [|split].
  - intros r s Hrun. unfold train_one_epoch in Hrun.
    match type of Hrun with
    | context [for_each train_batch _ ?st] => set (start := st) in Hrun
    end.
    destruct (for_each train_batch dataloader start) as [s1|] eqn:Hloop; [|discriminate].
    injection Hrun as _ <-.
    apply (for_each_invariant train_batch (fun s => training (t_model s) = true)
             dataloader) with (s := start); [|reflexivity|exact Hloop].
    intros s0 b s0' _ Hs Hb. rewrite (train_batch_keeps_mode _ _ _ Hb). exact Hs.
  - intros r s Hrun. pose proof (Hval _ _ _ _ _ _ Hrun) as E.
    split; [exact E|]. rewrite E. reflexivity.
  - intros N ta va disk w HN Hrun.
    unfold Driver.training_loop, Driver.epochs in Hrun.
    match type of Hrun with
    | context [fold_left _ _ (Some ?st)] => set (w0 := st) in *
    end.
    destruct (fold_left _ (seq 0 N) (Some w0)) as [w1|] eqn:Hloop; [|discriminate].
    injection Hrun as <-. cbn [close_writer Driver.model].
    assert (Hsplit : seq 0 N = seq 0 (N - 1) ++ [N - 1]).
    { replace N with (S (N - 1)) at 1 by lia. apply seq_S. }
    rewrite Hsplit, fold_left_app in Hloop. cbn [fold_left] in Hloop.
    destruct (fold_left _ (seq 0 (N - 1)) (Some w0)) as [wB|]; [|discriminate].
    unfold Driver.epoch_body in Hloop.
    destruct (train_one_epoch _ _ _ _ _) as [[[tl tacc] ts]|]; [|discriminate].
    destruct (validate _ _ _ _) as [[[vl vacc] vs]|] eqn:Hv; [|discriminate].
    apply Hval in Hv.
    destruct (Qgtb vacc (best_val_acc wB)); injection Hloop as <-;
      cbn [Driver.model]; rewrite Hv; reflexivity.
Qed.

End WithCollaborators.

(** *** Runs *)

(** Four epochs with the validation accuracies 0.1, 0.05, 0.3 and 0.2: the
    best is 0.3. *)
Lemma best_val_acc_is_the_greatest_witness :
  exists w,
    training_loop (H := Toy.collaborators [2; 1; 6; 4])
      Toy.train_loader Toy.val_loader 4 (Toy.model [2; 1; 6; 4])
      0 (0, 0) (0, 0) None = Some w
    /\ (best_val_acc w == 3 # 10)%Q
    /\ (forall v, In v (val_accs (events w)) -> (v <= best_val_acc w)%Q).
Proof.
  eexists. split; [vm_compute; reflexivity|].
  match goal with
  | |- (best_val_acc ?w == _)%Q /\ _ =>
      assert (Hrun : training_loop (H := Toy.collaborators [2; 1; 6; 4])
                       Toy.train_loader Toy.val_loader 4 (Toy.model [2; 1; 6; 4])
                       0 (0, 0) (0, 0) None = Some w)
        by (vm_compute; reflexivity)
  end.
  destruct (best_val_acc_is_the_greatest _ _ _ _ _ _ _ _ _ Hrun) as (_ & Hmax & _).
  split; [vm_compute; reflexivity|exact Hmax].
Defined.

(** The same four epochs: the checkpoints are written at epochs 0 and 2, and
    the file holds the model a run of three epochs ends with. *)
Lemma checkpoint_is_the_model_of_the_last_save_witness :
  exists w,
    training_loop (H := Toy.collaborators [2; 1; 6; 4])
      Toy.train_loader Toy.val_loader 4 (Toy.model [2; 1; 6; 4])
      0 (0, 0) (0, 0) None = Some w
    /\ saved_epochs (events w) = [0] ++ [2]
    /\ exists w_e,
         training_loop (H := Toy.collaborators [2; 1; 6; 4])
           Toy.train_loader Toy.val_loader 3 (Toy.model [2; 1; 6; 4])
           0 (0, 0) (0, 0) None = Some w_e
         /\ best_model_pth w = Some (state_dict (Driver.model w_e))
         /\ state_dict (Driver.model w) <> state_dict (Driver.model w_e).
Proof.
  eexists. split; [vm_compute; reflexivity|].
  match goal with
  | |- saved_epochs (events ?w) = _ /\ _ =>
      assert (Hrun : training_loop (H := Toy.collaborators [2; 1; 6; 4])
                       Toy.train_loader Toy.val_loader 4 (Toy.model [2; 1; 6; 4])
                       0 (0, 0) (0, 0) None = Some w)
        by (vm_compute; reflexivity);
      assert (Hsaved : saved_epochs (events w) = [0] ++ [2])
        by (vm_compute; reflexivity)
  end.
  destruct (checkpoint_is_the_model_of_the_last_save _ _ _ _ _ _ _ _ _ _ _ Hrun Hsaved)
    as (_ & w_e & Hshort & Hfile & _).
  split; [exact Hsaved|].
  exists w_e. split; [exact Hshort|]. split; [exact Hfile|].
  vm_compute in Hshort. injection Hshort as <-.
  vm_compute. intro E. discriminate E.
Defined.

End ScriptFacts.

(** ** The choice of the model *)

Module ChoiceFacts.
Import torch nn Choice.

(** X18.  The first notebook constructs [SimpleCNN(num_classes=...)].  The
    redefinition of the class spells its parameter [num_classses], so with
    the redefinition bound to the name the branch for ["simple"] raises,
    whatever the number of classes; with the first definition it builds the
    first network.  The two other branches do not depend on that binding,
    and every other [model_type] raises.  In [02_CIFAR.ipynb] every
    [model_type] but ["custom"] loads the pretrained network. *)
Theorem redefined_SimpleCNN_cannot_be_chosen (pretrained : ResNet.t BasicBlock.t)
    (num_classes : nat) :
  choose SimpleCNN_redefined pretrained "simple" num_classes = None
  /\ choose SimpleCNN_first pretrained "simple" num_classes
     = Some (m <~ SimpleCNN.__init__ num_classes ;; ret (Simple m))
  /\ (forall SimpleCNN,
        choose SimpleCNN pretrained "improved_cnn" num_classes
        = Some (m <~ CNN_BatchNorm.__init__ num_classes ;; ret (Improved m))
        /\ choose SimpleCNN pretrained "resnet" num_classes
           = Some (m <~ load_resnet18 pretrained num_classes ;; ret (Pretrained m)))
  /\ (forall SimpleCNN model_type,
        model_type <> "simple"%string -> model_type <> "improved_cnn"%string ->
        model_type <> "resnet"%string ->
        choose SimpleCNN pretrained model_type num_classes = None)
  /\ (forall SimpleCNN model_type,
        model_type <> "custom"%string ->
        choose_02 SimpleCNN pretrained model_type num_classes
        = Some (m <~ load_resnet18 pretrained num_classes ;; ret (Pretrained m))).
Proof.
  split; [reflexivity|]. split; [reflexivity|].
  split; [intro C; split; reflexivity|]. split.
  - intros C t H1 H2 H3. unfold choose.
    apply String.eqb_neq in H1, H2, H3. rewrite H1, H2, H3. reflexivity.
  - intros C t H1. unfold choose_02.
    apply String.eqb_neq in H1. rewrite H1. reflexivity.
Qed.

End ChoiceFacts.
